(** * Recurring reminders: recurrence expansion and the event store

    A shallow embedding of [calculateRecurringDates] and of the state
    handlers of the [App] component ([handleSave], [deleteEventType],
    [handleDeleteEvent], [addEventType]).

    The expansion is written against the ECMAScript [Date] object, so the
    first part of the file is the day-number arithmetic of ECMA-262
    (sections "Day Number and Time within Day", "Year Number", "Month
    Number", "Date Number", "Week Day", [MakeDay], [MakeDate]) and the
    [Date] methods the source calls.  A time value is the number of
    milliseconds since 1970-01-01T00:00:00Z.

    Conventions of the model:
    - numbers are integers ([Z]); the controls of the picker produce them
      with [parseInt], and the data model has [interval >= 1];
    - the host's local time is a constant offset [tza] from UTC, in
      milliseconds (the value of [-60000 * getTimezoneOffset()]); there
      are no daylight-saving transitions;
    - time values are not clipped at the ECMAScript range of 8.64e15 ms:
      a cursor that leaves the range is an Invalid Date in the source and
      a time after [finalEndDate] here, and either ends the loop (the
      intervals of the data model are not negative);
    - the [Date] constructor reads the strings the date control writes:
      a calendar date [YYYY-MM-DD] of a year 0000..9999, taken as local
      time.  On every other string the model gives an Invalid Date, where
      engines differ: V8 carries a day 29..31 past the end of a month
      into the next month, and every engine reads an expanded year
      [+YYYYYY-MM-DD].  The statements about dates read from strings are
      therefore made for valid calendar dates, and an Invalid Date occurs
      in them only as the value [None] of [newDateFromString];
    - no exception is modelled: [toISOString], the one method that raises
      (on an Invalid Date), is only called on a date that has just passed
      a comparison, which an Invalid Date fails. *)

From Stdlib Require Import ZArith Lia Bool List Ascii String Sorted Permutation.
From stdpp Require Import gmap strings list fin_maps.

Local Open Scope Z_scope.

(** ** Day numbers (ECMA-262, "Time Values and Time Range") *)

Definition msPerDay : Z := 86400000.

Definition Day (t : Z) : Z := t / msPerDay.

Definition TimeWithinDay (t : Z) : Z := t mod msPerDay.

Definition DaysInYear (y : Z) : Z :=
  if negb (y mod 4 =? 0) then 365
  else if negb (y mod 100 =? 0) then 366
  else if negb (y mod 400 =? 0) then 365
  else 366.

Definition DayFromYear (y : Z) : Z :=
  365 * (y - 1970) + (y - 1969) / 4 - (y - 1901) / 100 + (y - 1601) / 400.

(** ECMA-262 defines the year of a day as the largest [y] whose first day
    is not after it.  The estimate [1970 + 400 n / 146097] is off by at
    most one; [YearFromDay_spec] below shows that the adjusted value is
    that largest [y]. *)
Definition YearFromDay (n : Z) : Z :=
  let y0 := 1970 + (400 * n) / 146097 in
  if DayFromYear (y0 + 1) <=? n then y0 + 1
  else if DayFromYear y0 <=? n then y0
  else y0 - 1.

Definition InLeapYear (n : Z) : Z := DaysInYear (YearFromDay n) - 365.

Definition DayWithinYear (n : Z) : Z := n - DayFromYear (YearFromDay n).

(** Day within the year on which month [m] (0 = January) starts, given the
    leap-year flag of the year. *)
Definition monthStart (leap m : Z) : Z :=
  if m <=? 0 then 0
  else if m =? 1 then 31
  else if m =? 2 then 59 + leap
  else if m =? 3 then 90 + leap
  else if m =? 4 then 120 + leap
  else if m =? 5 then 151 + leap
  else if m =? 6 then 181 + leap
  else if m =? 7 then 212 + leap
  else if m =? 8 then 243 + leap
  else if m =? 9 then 273 + leap
  else if m =? 10 then 304 + leap
  else 334 + leap.

Definition MonthFromDay (n : Z) : Z :=
  let d := DayWithinYear n in
  let leap := InLeapYear n in
  if d <? 31 then 0
  else if d <? 59 + leap then 1
  else if d <? 90 + leap then 2
  else if d <? 120 + leap then 3
  else if d <? 151 + leap then 4
  else if d <? 181 + leap then 5
  else if d <? 212 + leap then 6
  else if d <? 243 + leap then 7
  else if d <? 273 + leap then 8
  else if d <? 304 + leap then 9
  else if d <? 334 + leap then 10
  else 11.

Definition DateFromDay (n : Z) : Z :=
  DayWithinYear n - monthStart (InLeapYear n) (MonthFromDay n) + 1.

Definition WeekDay (n : Z) : Z := (n + 4) mod 7.

(** [MakeDay year month date]: the day number of day [date] of month
    [month] of [year]; months outside 0..11 carry into the year and dates
    outside the month carry into the neighbouring months. *)
Definition MakeDay (year month date : Z) : Z :=
  let ym := year + month / 12 in
  let mn := month mod 12 in
  DayFromYear ym + monthStart (DaysInYear ym - 365) mn + date - 1.

Definition MakeTime (hour min sec ms : Z) : Z :=
  hour * 3600000 + min * 60000 + sec * 1000 + ms.

Definition MakeDate (day time : Z) : Z := day * msPerDay + time.

(** Two-digit years of the [Date] constructor: 0..99 mean 1900..1999. *)
Definition MakeFullYear (y : Z) : Z :=
  if (0 <=? y) && (y <=? 99) then 1900 + y else y.

(** ** Strings: decimal fields, the ISO date and its parser *)

Definition digitChar (d : Z) : ascii := ascii_of_N (48 + Z.to_N d).

(** The [w] low-order decimal digits of [n], most significant first. *)
Fixpoint fixedDigits (w : nat) (n : Z) : string :=
  match w with
  | O => EmptyString
  | S w' => (fixedDigits w' (n / 10) ++ String (digitChar (n mod 10)) EmptyString)%string
  end.

(** The year field of [toISOString]: four digits for 0..9999, otherwise a
    sign and six digits. *)
Definition isoYear (y : Z) : string :=
  if (0 <=? y) && (y <=? 9999) then fixedDigits 4 y
  else if y <? 0 then (String "-" (fixedDigits 6 (- y)))
  else (String "+" (fixedDigits 6 y)).

(** [d.toISOString().split('T')[0]] for the day number [n] of the UTC
    calendar. *)
Definition isoDateOfDay (n : Z) : string :=
  (isoYear (YearFromDay n) ++ "-" ++ fixedDigits 2 (MonthFromDay n + 1)
     ++ "-" ++ fixedDigits 2 (DateFromDay n))%string.

Definition digitVal (c : ascii) : option Z :=
  let n := Z.of_N (N_of_ascii c) in
  if (48 <=? n) && (n <=? 57) then Some (n - 48) else None.

Definition digits2 (a b : ascii) : option Z :=
  match digitVal a, digitVal b with
  | Some x, Some y => Some (10 * x + y)
  | _, _ => None
  end.

Definition digits4 (a b c d : ascii) : option Z :=
  match digits2 a b, digits2 c d with
  | Some x, Some y => Some (100 * x + y)
  | _, _ => None
  end.

Definition DaysInMonth (y m : Z) : Z := MakeDay y (m + 1) 1 - MakeDay y m 1.

(** The calendar date written [YYYY-MM-DD], as (year, month 1..12, day). *)
Definition parseISODate (s : string) : option (Z * Z * Z) :=
  match list_ascii_of_string s with
  | [y1; y2; y3; y4; s1; m1; m2; s2; d1; d2] =>
      if Ascii.eqb s1 "-" && Ascii.eqb s2 "-" then
        match digits4 y1 y2 y3 y4, digits2 m1 m2, digits2 d1 d2 with
        | Some y, Some m, Some d =>
            if (1 <=? m) && (m <=? 12) && (1 <=? d) && (d <=? DaysInMonth y (m - 1))
            then Some (y, m, d) else None
        | _, _, _ => None
        end
      else None
  | _ => None
  end.

(** ** The [Date] object at a fixed local offset *)

Section DateObject.

(** Local time minus UTC, in milliseconds. *)
Variable tza : Z.

Definition LocalTime (t : Z) : Z := t + tza.
Definition UTC (lt : Z) : Z := lt - tza.

Definition getFullYear (t : Z) : Z := YearFromDay (Day (LocalTime t)).
Definition getMonth (t : Z) : Z := MonthFromDay (Day (LocalTime t)).
Definition getDate (t : Z) : Z := DateFromDay (Day (LocalTime t)).
Definition getDay (t : Z) : Z := WeekDay (Day (LocalTime t)).

Definition setDate (t dt : Z) : Z :=
  let lt := LocalTime t in
  UTC (MakeDate (MakeDay (YearFromDay (Day lt)) (MonthFromDay (Day lt)) dt)
                (TimeWithinDay lt)).

Definition setMonth (t m : Z) : Z :=
  let lt := LocalTime t in
  UTC (MakeDate (MakeDay (YearFromDay (Day lt)) m (DateFromDay (Day lt)))
                (TimeWithinDay lt)).

Definition setFullYear (t y : Z) : Z :=
  let lt := LocalTime t in
  UTC (MakeDate (MakeDay y (MonthFromDay (Day lt)) (DateFromDay (Day lt)))
                (TimeWithinDay lt)).

Definition setHours (t hour min sec ms : Z) : Z :=
  UTC (MakeDate (Day (LocalTime t)) (MakeTime hour min sec ms)).

(** [new Date(year, month, date)]: local midnight of that day. *)
Definition newDate (year month date : Z) : Z :=
  UTC (MakeDate (MakeDay (MakeFullYear year) month date) 0).

(** [new Date(s + 'T00:00:00')] and [new Date(s + 'T23:59:59')]: the
    date string read as local time, at [timeOfDay] milliseconds into
    the day; [None] is the Invalid Date. *)
Definition newDateFromString (s : string) (timeOfDay : Z) : option Z :=
  match parseISODate s with
  | Some (y, m, d) => Some (UTC (MakeDate (MakeDay y (m - 1) d) timeOfDay))
  | None => None
  end.

(** [d.toISOString().split('T')[0]]: the date of the UTC calendar. *)
Definition toISODate (t : Z) : string := isoDateOfDay (Day t).

Definition getDaysInMonth (year month : Z) : Z :=
  getDate (newDate year (month + 1) 0).

Definition getFirstDayOfMonth (year month : Z) : Z :=
  getDay (newDate year month 1).

End DateObject.

(** ** Type definitions of the source *)

(** The four values of [frequency]; the [default] arm of the [switch]
    is not reached by a value of this type. *)
Inductive Frequency : Type := daily | weekly | monthly | yearly.

Inductive MonthlyType : Type := onDay | onThe.

(** [week: number | 'last'] *)
Inductive Week : Type :=
  | weekNumber (n : Z)
  | weekLast.

Record MonthlyOnThe : Type := {
  week : Week;
  day : Z
}.

(** [startDate] is declared a string, and the date control stores [null]
    when it is cleared: [None] is the absent value. *)
Record RecurringSettings : Type := {
  frequency : Frequency;
  interval : Z;
  weeklyDays : gmap Z bool;
  monthlyType : MonthlyType;
  monthlyOnDay : Z;
  monthlyOnThe : MonthlyOnThe;
  startDate : option string;
  endDate : option string
}.

Record EventType : Type := {
  id : string;
  title : string;
  color : string
}.

Record EventAssignment : Type := {
  typeId : string;
  time : string
}.

Record SavedData : Type := {
  sd_settings : RecurringSettings;
  sd_recurringDates : list string;
  sd_events : gmap string EventAssignment;
  sd_customEventTypes : list EventType
}.

(** ** JavaScript values used by the expansion *)

(** Truthiness of a [string | null] value. *)
Definition truthy (s : option string) : bool :=
  match s with
  | Some EmptyString => false
  | Some _ => true
  | None => false
  end.

(** [Set<string>]: insertion order, no second copy of a member. *)
Definition Set_add (x : string) (s : list string) : list string :=
  if bool_decide (x ∈ s) then s else s ++ [x].

(** [weeklyDays[dayOfWeek]]: a missing key reads [undefined], which is
    falsy. *)
Definition selected (wd : gmap Z bool) (dayOfWeek : Z) : bool :=
  default false (wd !! dayOfWeek).

(** [a[i]] for an integer index: [undefined] outside the array. *)
Definition index {A : Type} (a : list A) (i : Z) : option A :=
  if i <? 0 then None else nth_error a (Z.to_nat i).

(** [Array.prototype.sort] without a comparator orders strings by their
    code units; on distinct strings every sorting algorithm returns the
    same array, here by insertion. *)
Fixpoint insertSorted (x : string) (l : list string) : list string :=
  match l with
  | [] => [x]
  | y :: l' => if String.leb x y then x :: y :: l' else y :: insertSorted x l'
  end.

Definition sort (l : list string) : list string := foldr insertSorted [] l.

(** ** [calculateRecurringDates] *)

(** The variables the loop updates. *)
Record Walk : Type := {
  current : Z;
  iterations : Z;
  dates : list string
}.

Definition maxIterations : Z := 2000.

Section Expansion.

Variable tza : Z.
Variable settings : RecurringSettings.

(** [new Date(settings.startDate + 'T00:00:00')] *)
Variable start : Z.
Variable finalEndDate : Z.

(** One pass of [for (let i = 0; i < 7; i++)], [n] days still to scan. *)
Fixpoint weekScan (n : nat) (cur : Z) (ds : list string) : Z * list string :=
  match n with
  | O => (cur, ds)
  | S n' =>
      let dayOfWeek := getDay tza cur in
      let ds' :=
        if selected (weeklyDays settings) dayOfWeek
           && (start <=? cur) && (cur <=? finalEndDate)
        then Set_add (toISODate cur) ds else ds in
      weekScan n' (setDate tza cur (getDate tza cur + 1)) ds'
  end.

Definition daysInMonthArr (cur : Z) : list Z :=
  map (fun i => newDate tza (getFullYear tza cur) (getMonth tza cur) (i + 1))
      (seqZ 0 (getDaysInMonth tza (getFullYear tza cur) (getMonth tza cur))).

Definition matchingDays (cur : Z) : list Z :=
  List.filter (fun d => getDay tza d =? day (monthlyOnThe settings))
              (daysInMonthArr cur).

Definition targetDate (cur : Z) : option Z :=
  match week (monthlyOnThe settings) with
  | weekLast => index (matchingDays cur) (Z.of_nat (length (matchingDays cur)) - 1)
  | weekNumber w => index (matchingDays cur) (w - 1)
  end.

Definition monthDate (cur : Z) : option Z :=
  match monthlyType settings with
  | onDay => Some (newDate tza (getFullYear tza cur) (getMonth tza cur)
                            (monthlyOnDay settings))
  | onThe => targetDate cur
  end.

Definition yearlyDate (cur : Z) : Z :=
  newDate tza (getFullYear tza cur) (getMonth tza start) (getDate tza start).

Definition inRange (d : Z) : bool := (start <=? d) && (d <=? finalEndDate).

(** The loop condition. *)
Definition guard (w : Walk) : bool :=
  (current w <=? finalEndDate) && (iterations w <? maxIterations).

(** The arms of the [switch]; each starts from the walk before
    [iterations++] and returns the walk at the end of the round. *)
Definition dailyArm (w : Walk) : Walk :=
  let cur := current w in
  {| current := setDate tza cur (getDate tza cur + interval settings);
     iterations := iterations w + 1;
     dates := Set_add (toISODate cur) (dates w) |}.

(** The cursor at the start of the week scan: moved back by the weekday
    of the start date in the first round. *)
Definition weekStart (w : Walk) : Z :=
  let cur := current w in
  if iterations w + 1 =? 1 then
    let startDay := getDay tza start in
    setDate tza cur (getDate tza cur - startDay)
  else cur.

Definition weeklyArm (w : Walk) : Walk :=
  let scanned := weekScan 7 (weekStart w) (dates w) in
  let cur := fst scanned in
  {| current := setDate tza cur (getDate tza cur + (interval settings - 1) * 7);
     iterations := iterations w + 1;
     dates := snd scanned |}.

Definition monthlyArm (w : Walk) : Walk :=
  let cur := current w in
  {| current := setDate tza (setMonth tza cur (getMonth tza cur + interval settings)) 1;
     iterations := iterations w + 1;
     dates :=
       match monthDate cur with
       | Some md => if inRange md then Set_add (toISODate md) (dates w) else dates w
       | None => dates w
       end |}.

Definition yearlyArm (w : Walk) : Walk :=
  let cur := current w in
  let yd := yearlyDate cur in
  {| current := setFullYear tza cur (getFullYear tza cur + interval settings);
     iterations := iterations w + 1;
     dates := if inRange yd then Set_add (toISODate yd) (dates w) else dates w |}.

(** The loop body. *)
Definition body (w : Walk) : Walk :=
  match frequency settings with
  | daily => dailyArm w
  | weekly => weeklyArm w
  | monthly => monthlyArm w
  | yearly => yearlyArm w
  end.

(** [while (guard) body], unrolled at most [fuel] times. *)
Fixpoint while (fuel : nat) (w : Walk) : Walk :=
  match fuel with
  | O => w
  | S fuel' => if guard w then while fuel' (body w) else w
  end.

(** The states in which the body ran, in order. *)
Fixpoint visited (fuel : nat) (w : Walk) : list Walk :=
  match fuel with
  | O => []
  | S fuel' => if guard w then w :: visited fuel' (body w) else []
  end.

End Expansion.

(** [finalEndDate] before [setHours(23, 59, 59, 999)]; [cur] is the start
    of the walk. *)
Definition endOfRange (tza : Z) (settings : RecurringSettings) (cur : Z) : option Z :=
  if truthy (endDate settings) then
    match endDate settings with
    | Some e => newDateFromString tza e (MakeTime 23 59 59 0)
    | None => None
    end
  else Some (newDate tza (getFullYear tza cur + 5) 0 1).

(** The values with which the loop is entered: the parsed start date,
    [finalEndDate] and the initial walk.  [None] stands for an Invalid
    Date on either side of [current <= finalEndDate]: the comparison is
    then false, the body never runs and the set stays empty. *)
Definition loopEntry (tza : Z) (settings : RecurringSettings) : option (Z * Z * Walk) :=
  match startDate settings with
  | Some s =>
      match newDateFromString tza s 0 with
      | Some start =>
          let cur := setHours tza start 0 0 0 0 in
          match endOfRange tza settings cur with
          | Some e =>
              Some (start, setHours tza e 23 59 59 999,
                    {| current := cur; iterations := 0; dates := [] |})
          | None => None
          end
      | None => None
      end
  | None => None
  end.

(** The walk at loop exit. *)
Definition expansion (tza : Z) (settings : RecurringSettings) : option Walk :=
  match loopEntry tza settings with
  | Some (start, finalEndDate, w0) =>
      Some (while tza settings start finalEndDate (S (Z.to_nat maxIterations)) w0)
  | None => None
  end.

(** The walks at the start of each round of the loop. *)
Definition rounds (tza : Z) (settings : RecurringSettings) : list Walk :=
  match loopEntry tza settings with
  | Some (start, finalEndDate, w0) =>
      visited tza settings start finalEndDate (S (Z.to_nat maxIterations)) w0
  | None => []
  end.

Definition calculateRecurringDates (tza : Z) (settings : RecurringSettings) : list string :=
  if negb (truthy (startDate settings)) then []
  else
    match expansion tza settings with
    | Some w => sort (dates w)
    | None => sort []
    end.

(** ** The state of [App] and its handlers *)

(** The state variables the handlers read and write: [savedData],
    [events] and [customEventTypes]. *)
Record AppState : Type := {
  savedData : option SavedData;
  events : gmap string EventAssignment;
  customEventTypes : list EventType
}.

(** The state of the first render. *)
Definition initialState : AppState :=
  {| savedData := None; events := ∅; customEventTypes := [] |}.

(** [[...new Set([...a, ...b])]]: first occurrences, in order. *)
Definition uniqueConcat (a b : list string) : list string :=
  foldl (fun s x => Set_add x s) [] (a ++ b).

(** [{ ...events, ...data.events }]: a key of both takes its value from
    the right-hand spread. *)
Definition spread (old new : gmap string EventAssignment)
  : gmap string EventAssignment := new ∪ old.

Definition handleSave (data : SavedData) (st : AppState) : AppState :=
  let mergedEvents := spread (events st) (sd_events data) in
  let previousDates :=
    match savedData st with
    | Some sd => sd_recurringDates sd
    | None => []
    end in
  let newSavedData :=
    {| sd_settings := sd_settings data;
       sd_recurringDates := uniqueConcat previousDates (sd_recurringDates data);
       sd_events := mergedEvents;
       sd_customEventTypes := sd_customEventTypes data |} in
  {| savedData := Some newSavedData;
     events := mergedEvents;
     customEventTypes := sd_customEventTypes data |}.

(** [types.filter(et => et.id !== id)] *)
Definition withoutType (i : string) (types : list EventType) : list EventType :=
  List.filter (fun et => negb (String.eqb (id et) i)) types.

(** The copy of [events] from which every date whose assignment has type
    [i] was deleted. *)
Definition withoutAssignmentsOf (i : string) (evs : gmap string EventAssignment)
  : gmap string EventAssignment :=
  filter (fun kv => typeId (snd kv) ≠ i) evs.

Definition deleteEventType (i : string) (st : AppState) : AppState :=
  let newEvents := withoutAssignmentsOf i (events st) in
  {| savedData :=
       match savedData st with
       | Some prev =>
           Some {| sd_settings := sd_settings prev;
                   sd_recurringDates := sd_recurringDates prev;
                   sd_events := newEvents;
                   sd_customEventTypes := withoutType i (sd_customEventTypes prev) |}
       | None => None
       end;
     events := newEvents;
     customEventTypes := withoutType i (customEventTypes st) |}.

Definition handleDeleteEvent (date : string) (st : AppState) : AppState :=
  let newEvents := delete date (events st) in
  {| savedData :=
       match savedData st with
       | Some prev =>
           Some {| sd_settings := sd_settings prev;
                   sd_recurringDates := sd_recurringDates prev;
                   sd_events := newEvents;
                   sd_customEventTypes := sd_customEventTypes prev |}
       | None => None
       end;
     events := newEvents;
     customEventTypes := customEventTypes st |}.

(** [addEventType]; [newId] is the string [evt_${Date.now()}]. *)
Definition addEventType (newId title0 color0 : string) (st : AppState) : AppState :=
  {| savedData := savedData st;
     events := events st;
     customEventTypes :=
       customEventTypes st ++ [ {| id := newId; title := title0; color := color0 |} ] |}.

(** The states the application can be in: the first render followed by
    any sequence of handler calls. *)
Inductive reachable : AppState -> Prop :=
  | reach_initial : reachable initialState
  | reach_handleSave data st :
      reachable st -> reachable (handleSave data st)
  | reach_deleteEventType i st :
      reachable st -> reachable (deleteEventType i st)
  | reach_handleDeleteEvent date st :
      reachable st -> reachable (handleDeleteEvent date st)
  | reach_addEventType newId title0 color0 st :
      reachable st -> reachable (addEventType newId title0 color0 st).


(** * More of the source: the picker, the preview calendar, the reminders

    The handlers of [Customization], [DateRange], [ManageEvents],
    [MiniCalendar] and [RecurringDatePicker], and the reminder check of
    [App].  A handler is a function from the state it reads to the state
    it leaves; the values the source takes from its environment are
    arguments: the instant [now] of [new Date()], the id that
    [addEventType] makes from [Date.now()], and [toLowerCase], which is
    any function of strings here. *)

(** ** Numbers as strings *)

(** The decimal digits of a non-negative integer, most significant
    first; [fuel] bounds the number of digits. *)
Fixpoint decimalDigits (fuel : nat) (n : Z) : string :=
  match fuel with
  | O => EmptyString
  | S fuel' =>
      if n <? 10 then String (digitChar n) EmptyString
      else (decimalDigits fuel' (n / 10) ++ String (digitChar (n mod 10)) EmptyString)%string
  end.

(** [String(n)] and [`${n}`] for an integer [n]. *)
Definition numberToString (n : Z) : string :=
  if n <? 0 then String "-" (decimalDigits (S (Z.to_nat (Z.log2 (- n)))) (- n))
  else decimalDigits (S (Z.to_nat (Z.log2 n))) n.

(** [s.padStart(w, c)] for a one-character pad. *)
Definition padStart (w : nat) (c : ascii) (s : string) : string :=
  (string_of_list_ascii (repeat c (w - String.length s)) ++ s)%string.

(** [`${year}-${String(month + 1).padStart(2, '0')}-${String(day).padStart(2, '0')}`],
    the key of a day of the grid. *)
Definition dateStr (year month day : Z) : string :=
  (numberToString year ++ "-" ++ padStart 2 "0" (numberToString (month + 1))
     ++ "-" ++ padStart 2 "0" (numberToString day))%string.

(** ** [Customization]: the handlers of the settings *)

(** [settings] with another [interval], and with other [weeklyDays]. *)
Definition withInterval (s : RecurringSettings) (value : Z) : RecurringSettings :=
  {| frequency := frequency s; interval := value; weeklyDays := weeklyDays s;
     monthlyType := monthlyType s; monthlyOnDay := monthlyOnDay s;
     monthlyOnThe := monthlyOnThe s; startDate := startDate s; endDate := endDate s |}.

Definition withWeeklyDays (s : RecurringSettings) (wd : gmap Z bool) : RecurringSettings :=
  {| frequency := frequency s; interval := interval s; weeklyDays := wd;
     monthlyType := monthlyType s; monthlyOnDay := monthlyOnDay s;
     monthlyOnThe := monthlyOnThe s; startDate := startDate s; endDate := endDate s |}.

(** [{ ...s.weeklyDays, [dayIndex]: !s.weeklyDays[dayIndex] }] *)
Definition toggleWeeklyDay (dayIndex : Z) (s : RecurringSettings) : RecurringSettings :=
  withWeeklyDays s
    (<[dayIndex := negb (selected (weeklyDays s) dayIndex)]> (weeklyDays s)).

(** ** [MiniCalendar] and [RecurringDatePicker] *)

(** ['all' | 'individual'] *)
Inductive EventMode : Type := all | individual.

Record MasterEvent : Type := {
  masterTypeId : option string;
  masterTime : string
}.

(** The state of the picker: [draftEvents], [eventMode] and [masterEvent]
    of [RecurringDatePicker], and [currentDate], [selectedDate] and
    [individualTime] of [MiniCalendar]. *)
Record PickerState : Type := {
  draftEvents : gmap string EventAssignment;
  eventMode : EventMode;
  masterEvent : MasterEvent;
  currentDate : Z;
  selectedDate : option string;
  individualTime : string
}.

Section Preview.

Variable tza : Z.

(** [Array(firstDay).fill(null).concat(Array.from({ length: daysInMonth },
    (_, i) => i + 1))]: the cells of the grid, row after row. *)
Definition calendarDays (year month : Z) : list (option Z) :=
  replicate (Z.to_nat (getFirstDayOfMonth tza year month)) None
  ++ map (fun i => Some (i + 1)) (seqZ 0 (getDaysInMonth tza year month)).

(** The days of the month in view that are recurring dates. *)
Definition recurringDatesInView (recurringDates : list string) (year month : Z) : gset Z :=
  foldl (fun dates dateStr0 =>
           match newDateFromString tza dateStr0 0 with
           | Some d =>
               if (getFullYear tza d =? year) && (getMonth tza d =? month)
               then {[ getDate tza d ]} ∪ dates else dates
           | None => dates
           end)
        ∅ recurringDates.

Definition changeMonth (offset : Z) (p : PickerState) : PickerState :=
  {| draftEvents := draftEvents p; eventMode := eventMode p;
     masterEvent := masterEvent p;
     currentDate := setMonth tza (currentDate p) (getMonth tza (currentDate p) + offset);
     selectedDate := selectedDate p; individualTime := individualTime p |}.

(** [draftEvents[dateStr]?.time || '09:00'] *)
Definition timeOrDefault (a : option EventAssignment) : string :=
  match a with
  | Some a' => if truthy (Some (time a')) then time a' else "09:00"
  | None => "09:00"
  end.

Definition handleDayClick (day : Z) (p : PickerState) : PickerState :=
  match eventMode p with
  | individual =>
      let key := dateStr (getFullYear tza (currentDate p))
                         (getMonth tza (currentDate p)) day in
      {| draftEvents := draftEvents p; eventMode := eventMode p;
         masterEvent := masterEvent p; currentDate := currentDate p;
         selectedDate := Some key;
         individualTime := timeOrDefault (draftEvents p !! key) |}
  | all => p
  end.

End Preview.

Definition handleAssignEvent (eventTypeId : string) (p : PickerState) : PickerState :=
  match selectedDate p with
  | Some key =>
      if truthy (Some key) then
        {| draftEvents :=
             <[key := {| typeId := eventTypeId; time := individualTime p |}]> (draftEvents p);
           eventMode := eventMode p; masterEvent := masterEvent p;
           currentDate := currentDate p; selectedDate := None;
           individualTime := individualTime p |}
      else p
  | None => p
  end.

Definition handleIndividualTimeChange (time0 : string) (p : PickerState) : PickerState :=
  {| draftEvents :=
       match selectedDate p with
       | Some key =>
           if truthy (Some key) then
             match draftEvents p !! key with
             | Some a => <[key := {| typeId := typeId a; time := time0 |}]> (draftEvents p)
             | None => draftEvents p
             end
           else draftEvents p
       | None => draftEvents p
       end;
     eventMode := eventMode p; masterEvent := masterEvent p;
     currentDate := currentDate p; selectedDate := selectedDate p;
     individualTime := time0 |}.

Definition handleRemoveEvent (p : PickerState) : PickerState :=
  match selectedDate p with
  | Some key =>
      if truthy (Some key) then
        {| draftEvents := delete key (draftEvents p);
           eventMode := eventMode p; masterEvent := masterEvent p;
           currentDate := currentDate p; selectedDate := None;
           individualTime := individualTime p |}
      else p
  | None => p
  end.

(** [handleSave] of [RecurringDatePicker]: the data handed to [onSave]. *)
Module RecurringDatePicker.

Definition finalEvents (recurringDates : list string) (p : PickerState)
  : gmap string EventAssignment :=
  match eventMode p with
  | all =>
      match masterTypeId (masterEvent p) with
      | Some t =>
          if truthy (Some t) then
            foldl (fun evs date =>
                     <[date := {| typeId := t; time := masterTime (masterEvent p) |}]> evs)
                  ∅ recurringDates
          else ∅
      | None => ∅
      end
  | individual => draftEvents p
  end.

Definition handleSave (tza : Z) (settings : RecurringSettings) (p : PickerState)
    (types : list EventType) : SavedData :=
  let recurringDates := calculateRecurringDates tza settings in
  {| sd_settings := settings;
     sd_recurringDates := recurringDates;
     sd_events := finalEvents recurringDates p;
     sd_customEventTypes := types |}.

End RecurringDatePicker.

(** ** [ManageEvents] *)

Section Suggestions.

(** [String.prototype.toLowerCase], any function of strings here. *)
Variable toLowerCase : string -> string.

(** [handleAddSuggestion]; [newId] is the id [addEventType] makes. *)
Definition handleAddSuggestion (newId : string) (suggestionTitle suggestionColor : string)
    (st : AppState) : AppState :=
  if existsb (fun et => String.eqb (toLowerCase (title et)) (toLowerCase suggestionTitle))
             (customEventTypes st)
  then st
  else addEventType newId suggestionTitle suggestionColor st.

End Suggestions.

(** ** The reminder check of [App] *)

Record ActiveReminder : Type := {
  eventType : EventType;
  reminderTime : string;
  reminderDate : string
}.

(** The state the check reads and writes, around the state of the
    handlers. *)
Record ReminderState : Type := {
  app : AppState;
  activeReminder : option ActiveReminder;
  triggeredReminders : gset string
}.

Definition getHours (tza t : Z) : Z := (LocalTime tza t / 3600000) mod 24.
Definition getMinutes (tza t : Z) : Z := (LocalTime tza t / 60000) mod 60.

(** [`${String(now.getHours()).padStart(2, '0')}:${String(now.getMinutes()).padStart(2, '0')}`] *)
Definition currentTimeStr (tza now : Z) : string :=
  (padStart 2 "0" (numberToString (getHours tza now)) ++ ":"
     ++ padStart 2 "0" (numberToString (getMinutes tza now)))%string.

(** [`${currentDateStr}-${eventForToday?.time}`] *)
Definition reminderId (currentDateStr : string) (eventForToday : option EventAssignment)
  : string :=
  (currentDateStr ++ "-"
     ++ match eventForToday with Some a => time a | None => "undefined" end)%string.

(** One run of the interval callback at time [now]. *)
Definition checkReminders (tza now : Z) (r : ReminderState) : ReminderState :=
  match savedData (app r), activeReminder r with
  | Some sd, None =>
      let currentDateStr := toISODate now in
      let eventForToday := sd_events sd !! currentDateStr in
      let rid := reminderId currentDateStr eventForToday in
      match eventForToday with
      | Some a =>
          if String.eqb (time a) (currentTimeStr tza now)
             && negb (bool_decide (rid ∈ triggeredReminders r))
          then
            match List.find (fun et => String.eqb (id et) (typeId a))
                            (sd_customEventTypes sd) with
            | Some et =>
                {| app := app r;
                   activeReminder :=
                     Some {| eventType := et; reminderTime := time a;
                             reminderDate := currentDateStr |};
                   triggeredReminders := {[ rid ]} ∪ triggeredReminders r |}
            | None => r
            end
          else r
      | None => r
      end
  | _, _ => r
  end.

(** [onClose] of the reminder pop-up. *)
Definition dismissReminder (r : ReminderState) : ReminderState :=
  {| app := app r; activeReminder := None; triggeredReminders := triggeredReminders r |}.

(** ** The cells of the preview grid *)

(** Truthiness of a [number | null] cell. *)
Definition truthyCell (cell : option Z) : bool :=
  match cell with
  | Some d => negb (d =? 0)
  | None => false
  end.

(** The [eventAssignment] computed for a cell of the grid: what the dot
    of the cell shows. *)
Definition cellAssignment (tza : Z) (recurringDates : list string) (p : PickerState)
    (year month : Z) (cell : option Z) : option EventAssignment :=
  let dateStr0 :=
    match cell with
    | Some day => if truthyCell cell then dateStr year month day else EmptyString
    | None => EmptyString
    end in
  let isRecurring :=
    match cell with
    | Some day =>
        if truthyCell cell
        then bool_decide (day ∈ recurringDatesInView tza recurringDates year month)
        else false
    | None => false
    end in
  match eventMode p, masterTypeId (masterEvent p) with
  | all, Some t =>
      if isRecurring && truthy (Some t)
      then Some {| typeId := t; time := masterTime (masterEvent p) |}
      else None
  | all, None => None
  | individual, _ => if truthyCell cell then draftEvents p !! dateStr0 else None
  end.

(** The state in which the picker opens at time [now]. *)
Definition initialPicker (initialEvents : gmap string EventAssignment) (now : Z)
  : PickerState :=
  {| draftEvents := initialEvents; eventMode := individual;
     masterEvent := {| masterTypeId := None; masterTime := "09:00" |};
     currentDate := now; selectedDate := None; individualTime := "09:00" |}.

(** ** [DateRange] *)

(** ['startDate' | 'endDate'] *)
Inductive DateField : Type := fieldStartDate | fieldEndDate.

(** [setSettings(s => ({ ...s, [field]: value || null }))] *)
Definition handleDateChange (field : DateField) (value : string) (s : RecurringSettings)
  : RecurringSettings :=
  let v := if truthy (Some value) then Some value else None in
  match field with
  | fieldStartDate =>
      {| frequency := frequency s; interval := interval s; weeklyDays := weeklyDays s;
         monthlyType := monthlyType s; monthlyOnDay := monthlyOnDay s;
         monthlyOnThe := monthlyOnThe s; startDate := v; endDate := endDate s |}
  | fieldEndDate =>
      {| frequency := frequency s; interval := interval s; weeklyDays := weeklyDays s;
         monthlyType := monthlyType s; monthlyOnDay := monthlyOnDay s;
         monthlyOnThe := monthlyOnThe s; startDate := startDate s; endDate := v |}
  end.

(** * Notions used to state the properties *)

(** ** Orders, days and ranges *)

(** Order of strings by code units, the order of [sort]. *)
Definition strLt (a b : string) : Prop := String.compare a b = Lt.

(** The day number of a date string of the settings. *)
Definition dayOfDateString (s : string) : option Z :=
  match parseISODate s with
  | Some (y, m, d) => Some (MakeDay y (m - 1) d)
  | None => None
  end.

(** The last day of the range as the specification defines it: the end
    date when there is one, otherwise January 1 of the start year + 5. *)
Definition effectiveEndDay (settings : RecurringSettings) (startYear : Z) : option Z :=
  if truthy (endDate settings) then
    match endDate settings with
    | Some e => dayOfDateString e
    | None => None
    end
  else Some (MakeDay (startYear + 5) 0 1).

(** The time value at which day [n] starts on the host, and the last
    millisecond of that day. *)
Definition startOfDay (tza n : Z) : Z := UTC tza (MakeDate n 0).
Definition endOfDay (tza n : Z) : Z := UTC tza (MakeDate n (msPerDay - 1)).

(** [str] is the ISO date of a day between [firstDay] and [lastDay]. *)
Definition dateWithin (firstDay lastDay : Z) (str : string) : Prop :=
  exists n, str = isoDateOfDay n /\ firstDay <= n <= lastDay.

(** [t] is midnight on the host. *)
Definition atLocalMidnight (tza t : Z) : Prop := TimeWithinDay (LocalTime tza t) = 0.

(** The invariant of the loop on a host at or west of UTC: the dates so
    far are days of the range, the cursor is at local midnight and, in the
    daily walk, not before the start. *)
Definition withinInvariant (tza : Z) (settings : RecurringSettings)
    (firstDay lastDay : Z) (w : Walk) : Prop :=
  Forall (dateWithin firstDay lastDay) (dates w)
  /\ atLocalMidnight tza (current w)
  /\ (frequency settings = daily -> startOfDay tza firstDay <= current w).

(** The year and month of the cursor at the start of each round. *)
Definition monthsVisited (tza : Z) (settings : RecurringSettings) : list (Z * Z) :=
  map (fun w => (getFullYear tza (current w), getMonth tza (current w)))
      (rounds tza settings).

(** ** The week scan, day by day *)

(** What the week scan does with the day that starts at [t]. *)
Definition emitIfSelected (tza : Z) (settings : RecurringSettings)
    (start finalEndDate : Z) (ds : list string) (t : Z) : list string :=
  if selected (weeklyDays settings) (getDay tza t)
     && (start <=? t) && (t <=? finalEndDate)
  then Set_add (toISODate t) ds else ds.

(** The [n] days from [t] on. *)
Definition daysFrom (t : Z) (n : nat) : list Z :=
  map (fun i => t + Z.of_nat i * msPerDay) (seq 0 n).

(** ** Ordinal weekdays *)

(** The ordinal weekday of the specification: the day of the month on
    which weekday [wday] (0 = Sunday) falls for the [n]-th time, or for
    the last time, in a month of [daysInMonth] days whose day 1 has
    weekday [firstWeekDay].  The first occurrence is within the first
    seven days, and the others follow at seven-day steps. *)
Definition ordinalWeekdayIn (firstWeekDay daysInMonth : Z) (wk : Week) (wday : Z)
  : option Z :=
  if (0 <=? wday) && (wday <=? 6) then
    let first := 1 + (wday - firstWeekDay) mod 7 in
    match wk with
    | weekNumber n =>
        if (1 <=? n) && (first + 7 * (n - 1) <=? daysInMonth)
        then Some (first + 7 * (n - 1)) else None
    | weekLast => Some (first + 7 * ((daysInMonth - first) / 7))
    end
  else None.

(** The same for month [m] (0 = January) of year [y]. *)
Definition ordinalWeekday (y m : Z) (wk : Week) (wday : Z) : option Z :=
  ordinalWeekdayIn (WeekDay (MakeDay y m 1)) (DaysInMonth y m) wk wday.

(** Offsets from day 1 of the days of a month that fall on [wday]: what
    the filter of the source keeps. *)
Definition occurrences (firstWeekDay daysInMonth wday : Z) : list Z :=
  List.filter (fun i => (firstWeekDay + i) mod 7 =? wday) (seqZ 0 daysInMonth).

(** The comparison of [occurrences] with [ordinalWeekdayIn] on every
    shape of month (first weekday, 28 to 31 days), weekday and ordinal 1
    to 5 or last. *)
Definition ordinalsAgree : bool :=
  forallb (fun fw =>
    forallb (fun dim =>
      forallb (fun wday =>
        let occ := occurrences fw dim wday in
        (Z.of_nat (length occ) <=? 5)
        && forallb (fun n =>
             bool_decide (index occ (n - 1)
                          = (fun dd => dd - 1) <$> ordinalWeekdayIn fw dim (weekNumber n) wday))
             (seqZ 1 5)
        && bool_decide (index occ (Z.of_nat (length occ) - 1)
                        = (fun dd => dd - 1) <$> ordinalWeekdayIn fw dim weekLast wday))
        (seqZ 0 7))
      (seqZ 28 4))
    (seqZ 0 7).

(** ** Hosts, settings and states used as instances *)

(** Local offsets of two hosts: one at UTC, one at UTC+05:30. *)
Definition utcHost : Z := 0.
Definition istHost : Z := 19800000.

(** Daily, every weekday selected, as the picker initialises its
    settings; the dates are given. *)
Definition pickerDefaults (from : string) (to : option string) : RecurringSettings :=
  {| frequency := daily; interval := 1;
     weeklyDays := {[ 0 := false; 1 := true; 2 := true; 3 := true; 4 := true;
                      5 := true; 6 := false ]};
     monthlyType := onDay; monthlyOnDay := 1;
     monthlyOnThe := {| week := weekNumber 1; day := 0 |};
     startDate := Some from; endDate := to |}.

(** The start date cleared to the empty string. *)
Definition withoutStartDate : RecurringSettings := pickerDefaults "" None.

Definition dailyFirstWeek : RecurringSettings :=
  pickerDefaults "2024-01-01" (Some "2024-01-05"%string).

Definition mondaysAndWednesdays : RecurringSettings :=
  {| frequency := weekly; interval := 1;
     weeklyDays := {[ 1 := true; 3 := true ]};
     monthlyType := onDay; monthlyOnDay := 1;
     monthlyOnThe := {| week := weekNumber 1; day := 0 |};
     startDate := Some "2024-01-01"%string; endDate := Some "2024-01-14"%string |}.

Definition lastFridays : RecurringSettings :=
  {| frequency := monthly; interval := 1;
     weeklyDays := ∅;
     monthlyType := onThe; monthlyOnDay := 1;
     monthlyOnThe := {| week := weekLast; day := 5 |};
     startDate := Some "2024-01-01"%string; endDate := Some "2024-03-31"%string |}.

Definition anniversaries : RecurringSettings :=
  {| frequency := yearly; interval := 1;
     weeklyDays := ∅;
     monthlyType := onDay; monthlyOnDay := 1;
     monthlyOnThe := {| week := weekNumber 1; day := 0 |};
     startDate := Some "2023-02-28"%string; endDate := Some "2025-03-01"%string |}.


(** Day 15 of each month, starting on the last day of January. *)
Definition fifteenthFromEndOfJanuary : RecurringSettings :=
  {| frequency := monthly; interval := 1;
     weeklyDays := ∅;
     monthlyType := onDay; monthlyOnDay := 15;
     monthlyOnThe := {| week := weekNumber 1; day := 0 |};
     startDate := Some "2024-01-31"%string; endDate := Some "2024-04-30"%string |}.

(** Every day for twenty-six years: more rounds than the cap allows. *)
Definition dailyForDecades : RecurringSettings :=
  pickerDefaults "2024-01-01" (Some "2050-01-01"%string).

(** A saved schedule with two assignments of different types, and the
    state after saving it from the first render. *)
Definition savedTwoTypes : SavedData :=
  {| sd_settings := dailyFirstWeek;
     sd_recurringDates := ["2024-01-01"; "2024-01-02"]%string;
     sd_events :=
       {[ "2024-01-01"%string := {| typeId := "evt_1"; time := "09:00" |};
          "2024-01-02"%string := {| typeId := "evt_2"; time := "10:30" |} ]};
     sd_customEventTypes :=
       [ {| id := "evt_1"; title := "Meeting"; color := "bg-blue-500" |};
         {| id := "evt_2"; title := "Birthday"; color := "bg-pink-500" |} ] |}.

Definition stateTwoTypes : AppState := handleSave savedTwoTypes initialState.


(** ** Notions for the rest of the source *)

(** The ISO date of a calendar date (month 1..12). *)
Definition isoDateOf (y m d : Z) : string :=
  (isoYear y ++ "-" ++ fixedDigits 2 m ++ "-" ++ fixedDigits 2 d)%string.

(** ** Picker states used as instances *)

(** The picker in the mode [all], with an event type chosen. *)
Definition pickerWithMaster (now : Z) : PickerState :=
  {| draftEvents := ∅; eventMode := all;
     masterEvent := {| masterTypeId := Some "evt_1"%string; masterTime := "09:00" |};
     currentDate := now; selectedDate := None; individualTime := "09:00" |}.

(** The picker opened to edit the committed events, with a date selected
    in the preview. *)
Definition pickerEditing (st : AppState) (now : Z) (key : string) : PickerState :=
  {| draftEvents := events st; eventMode := individual;
     masterEvent := {| masterTypeId := None; masterTime := "09:00" |};
     currentDate := now; selectedDate := Some key;
     individualTime := timeOrDefault (events st !! key) |}.

(** The reminder state around an application state, with no reminder
    shown and none triggered. *)
Definition reminderStateOf (st : AppState) : ReminderState :=
  {| app := st; activeReminder := None; triggeredReminders := ∅ |}.

(** The day of the UTC calendar on which a local midnight falls, counted
    from the local day: [0] on a host at or west of UTC, [-1] east of it. *)
Definition utcDayShift (tza : Z) : Z := Day (- tza).

(** The ISO dates of [n] days at steps of [k] days, from day [first] on. *)
Definition everyKthDay (first k : Z) (n : nat) : list string :=
  map (fun i => isoDateOfDay (first + Z.of_nat i * k)) (seq 0 n).

(** The invariant of the loop on a host east of UTC: the dates so far are
    days of the range moved one day back, the cursor is at local midnight
    and, in the daily walk, not before the start. *)
Definition eastInvariant (tza : Z) (settings : RecurringSettings)
    (firstDay lastDay : Z) (w : Walk) : Prop :=
  Forall (dateWithin (firstDay - 1) (lastDay - 1)) (dates w)
  /\ atLocalMidnight tza (current w)
  /\ (frequency settings = daily -> startOfDay tza firstDay <= current w).

(** The Gregorian leap years. *)
Definition leapYear (y : Z) : bool :=
  (y mod 4 =? 0) && (negb (y mod 100 =? 0) || (y mod 400 =? 0)).

(** Weekly on no day at all, and the settings of a schedule on every
    February 29. *)
Definition weeklyOnNoDay : RecurringSettings :=
  {| frequency := weekly; interval := 1;
     weeklyDays := {[ 0 := false; 1 := false ]};
     monthlyType := onDay; monthlyOnDay := 1;
     monthlyOnThe := {| week := weekNumber 1; day := 0 |};
     startDate := Some "2024-01-01"%string; endDate := Some "2024-01-14"%string |}.

Definition leapDays : RecurringSettings :=
  {| frequency := yearly; interval := 1;
     weeklyDays := ∅;
     monthlyType := onDay; monthlyOnDay := 1;
     monthlyOnThe := {| week := weekNumber 1; day := 0 |};
     startDate := Some "2024-02-29"%string; endDate := Some "2026-12-31"%string |}.

(** Day 31 of each month. *)
Definition thirtyFirsts : RecurringSettings :=
  {| frequency := monthly; interval := 1;
     weeklyDays := ∅;
     monthlyType := onDay; monthlyOnDay := 31;
     monthlyOnThe := {| week := weekNumber 1; day := 0 |};
     startDate := Some "2024-04-01"%string; endDate := Some "2024-06-30"%string |}.


(** * Properties *)

(** ** The calendar *)

(** [lia] with floor division and remainder by constants. *)
Ltac divlia := Z.to_euclidean_division_equations; lia.

(** Case analysis on the comparisons a definition branches on, closing
    each case that arithmetic settles. *)
Ltac ifs :=
  repeat (match goal with
          | |- context [if ?a <? ?b then _ else _] => destruct (Z.ltb_spec a b)
          | |- context [if ?a <=? ?b then _ else _] => destruct (Z.leb_spec a b)
          | |- context [if ?a =? ?b then _ else _] => destruct (Z.eqb_spec a b)
          end; try lia).

Lemma DaysInYear_cases y : DaysInYear y = 365 \/ DaysInYear y = 366.
Proof.
  unfold DaysInYear.
  destruct (y mod 4 =? 0), (y mod 100 =? 0), (y mod 400 =? 0); simpl; auto.
Qed.

Lemma DayFromYear_succ y : DayFromYear (y + 1) = DayFromYear y + DaysInYear y.
Proof.
  unfold DayFromYear, DaysInYear.
  destruct (Z.eqb_spec (y mod 4) 0), (Z.eqb_spec (y mod 100) 0),
    (Z.eqb_spec (y mod 400) 0); simpl; divlia.
Qed.

Lemma DayFromYear_lt a b : a < b -> DayFromYear a < DayFromYear b.
Proof. unfold DayFromYear. divlia. Qed.

(** [YearFromDay n] is the year whose days include [n]. *)
Lemma YearFromDay_spec n :
  DayFromYear (YearFromDay n) <= n < DayFromYear (YearFromDay n + 1).
Proof.
  unfold YearFromDay.
  destruct (Z.leb_spec (DayFromYear (1970 + 400 * n / 146097 + 1)) n).
  - split; [lia|]. unfold DayFromYear in *. divlia.
  - destruct (Z.leb_spec (DayFromYear (1970 + 400 * n / 146097)) n).
    + lia.
    + split; [unfold DayFromYear in *; divlia|].
      replace (1970 + 400 * n / 146097 - 1 + 1) with (1970 + 400 * n / 146097) by lia.
      lia.
Qed.

Lemma YearFromDay_unique y n :
  DayFromYear y <= n < DayFromYear (y + 1) -> YearFromDay n = y.
Proof.
  intros H. pose proof (YearFromDay_spec n) as Hs.
  destruct (Z.lt_trichotomy (YearFromDay n) y) as [Hlt|[Heq|Hgt]]; [|exact Heq|].
  - assert (YearFromDay n + 1 <= y) as Hle by lia.
    apply Zle_lt_or_eq in Hle as [Hl|He].
    + apply DayFromYear_lt in Hl. lia.
    + rewrite He in Hs. lia.
  - assert (y + 1 <= YearFromDay n) as Hle by lia.
    apply Zle_lt_or_eq in Hle as [Hl|He].
    + apply DayFromYear_lt in Hl. lia.
    + rewrite <- He in Hs. lia.
Qed.

Lemma DayWithinYear_range n : 0 <= DayWithinYear n < DaysInYear (YearFromDay n).
Proof.
  unfold DayWithinYear. pose proof (YearFromDay_spec n) as H.
  rewrite DayFromYear_succ in H. lia.
Qed.

Lemma MonthFromDay_range n : 0 <= MonthFromDay n <= 11.
Proof.
  unfold MonthFromDay.
  repeat match goal with |- context [if ?b then _ else _] => destruct b end; lia.
Qed.

Lemma monthStart_MonthFromDay n :
  let leap := InLeapYear n in
  let m := MonthFromDay n in
  monthStart leap m <= DayWithinYear n < monthStart leap (m + 1) + (if m =? 11 then 31 else 0).
Proof.
  pose proof (DayWithinYear_range n) as Hr.
  pose proof (DaysInYear_cases (YearFromDay n)) as Hc.
  unfold MonthFromDay, InLeapYear in *. cbv zeta. unfold monthStart. ifs.
Qed.

Lemma MakeDay_in_year y m d :
  0 <= m <= 11 ->
  MakeDay y m d = DayFromYear y + monthStart (DaysInYear y - 365) m + d - 1.
Proof.
  intros H. unfold MakeDay.
  rewrite (Z.div_small m 12), (Z.mod_small m 12), Z.add_0_r by lia. reflexivity.
Qed.


Lemma MakeDay_month_carry y m k d :
  MakeDay y (m + 12 * k) d = MakeDay (y + k) m d.
Proof.
  unfold MakeDay.
  replace ((m + 12 * k) / 12) with (k + m / 12) by divlia.
  replace ((m + 12 * k) mod 12) with (m mod 12) by divlia.
  now rewrite Z.add_assoc.
Qed.

Lemma MakeDay_date_shift y m d k : MakeDay y m (d + k) = MakeDay y m d + k.
Proof. unfold MakeDay. lia. Qed.

(** The day number determines, and is determined by, its calendar date. *)
Lemma MakeDay_of_day n :
  MakeDay (YearFromDay n) (MonthFromDay n) (DateFromDay n) = n.
Proof.
  rewrite MakeDay_in_year by apply MonthFromDay_range.
  unfold DateFromDay, InLeapYear, DayWithinYear. lia.
Qed.

Lemma DaysInMonth_table y m :
  0 <= m <= 11 ->
  DaysInMonth y m =
    if m =? 1 then 28 + (DaysInYear y - 365)
    else if (m =? 3) || (m =? 5) || (m =? 8) || (m =? 10) then 30
    else 31.
Proof.
  intros H. unfold DaysInMonth. rewrite (MakeDay_in_year y m) by lia.
  destruct (Z.eq_dec m 11) as [->|Hm].
  - change (11 + 1) with (0 + 12 * 1). rewrite MakeDay_month_carry.
    rewrite MakeDay_in_year, DayFromYear_succ by lia. 
    pose proof (DaysInYear_cases y). unfold monthStart. simpl. lia.
  - rewrite MakeDay_in_year by lia.
    pose proof (DaysInYear_cases y). unfold monthStart.
    assert (m = 0 \/ m = 1 \/ m = 2 \/ m = 3 \/ m = 4 \/ m = 5 \/ m = 6 \/ m = 7
            \/ m = 8 \/ m = 9 \/ m = 10) as Hcase by lia.
    repeat (destruct Hcase as [->|Hcase]; [simpl; lia|]). subst m. simpl. lia.
Qed.

Lemma DaysInMonth_range y m : 0 <= m <= 11 -> 28 <= DaysInMonth y m <= 31.
Proof.
  intros H. rewrite DaysInMonth_table by exact H.
  pose proof (DaysInYear_cases y).
  destruct (m =? 1); [lia|]. destruct (_ || _); lia.
Qed.

Lemma DateFromDay_range n :
  1 <= DateFromDay n <= DaysInMonth (YearFromDay n) (MonthFromDay n).
Proof.
  pose proof (monthStart_MonthFromDay n) as H. cbv zeta in H.
  pose proof (MonthFromDay_range n) as Hm.
  pose proof (DaysInYear_cases (YearFromDay n)) as Hc.
  rewrite DaysInMonth_table by exact Hm.
  unfold DateFromDay. unfold InLeapYear in *.
  set (m := MonthFromDay n) in *. clearbody m. unfold monthStart in *.
  assert (m = 0 \/ m = 1 \/ m = 2 \/ m = 3 \/ m = 4 \/ m = 5 \/ m = 6 \/ m = 7
          \/ m = 8 \/ m = 9 \/ m = 10 \/ m = 11) as Hcase by lia.
  repeat (destruct Hcase as [->|Hcase]; [simpl in *; lia|]).
  subst m. simpl in *. lia.
Qed.

Lemma civil_of_MakeDay y m d :
  0 <= m <= 11 -> 1 <= d <= DaysInMonth y m ->
  YearFromDay (MakeDay y m d) = y
  /\ MonthFromDay (MakeDay y m d) = m
  /\ DateFromDay (MakeDay y m d) = d.
Proof.
  intros Hm Hd. rewrite DaysInMonth_table in Hd by exact Hm.
  pose proof (DaysInYear_cases y) as Hc.
  assert (YearFromDay (MakeDay y m d) = y) as Hy.
  { apply YearFromDay_unique. rewrite DayFromYear_succ, MakeDay_in_year by exact Hm.
    unfold monthStart.
    assert (m = 0 \/ m = 1 \/ m = 2 \/ m = 3 \/ m = 4 \/ m = 5 \/ m = 6 \/ m = 7
            \/ m = 8 \/ m = 9 \/ m = 10 \/ m = 11) as Hcase by lia.
    repeat (destruct Hcase as [->|Hcase]; [simpl in *; lia|]).
    subst m. simpl in *. lia. }
  assert (MonthFromDay (MakeDay y m d) = m) as Hmm.
  { unfold MonthFromDay, InLeapYear, DayWithinYear. rewrite Hy.
    rewrite MakeDay_in_year by exact Hm. unfold monthStart.
    assert (m = 0 \/ m = 1 \/ m = 2 \/ m = 3 \/ m = 4 \/ m = 5 \/ m = 6 \/ m = 7
            \/ m = 8 \/ m = 9 \/ m = 10 \/ m = 11) as Hcase by lia.
    repeat (destruct Hcase as [->|Hcase]; [simpl in *; ifs|]).
    subst m. simpl in *. ifs. }
  repeat split; [exact Hy|exact Hmm|].
  unfold DateFromDay, InLeapYear, DayWithinYear. rewrite Hmm, Hy.
  rewrite MakeDay_in_year by exact Hm. lia.
Qed.

(** ** The [Date] object *)

Section DateFacts.

Variable tza : Z.

Lemma Day_LocalTime_UTC d t :
  0 <= t < msPerDay -> Day (LocalTime tza (UTC tza (MakeDate d t))) = d.
Proof.
  unfold Day, LocalTime, UTC, MakeDate, msPerDay. intros H. divlia.
Qed.

Lemma TimeWithinDay_LocalTime_UTC d t :
  0 <= t < msPerDay -> TimeWithinDay (LocalTime tza (UTC tza (MakeDate d t))) = t.
Proof.
  unfold TimeWithinDay, LocalTime, UTC, MakeDate, msPerDay. intros H. divlia.
Qed.

Lemma Day_newDate y m d : Day (LocalTime tza (newDate tza y m d)) = MakeDay (MakeFullYear y) m d.
Proof. unfold newDate. apply Day_LocalTime_UTC. unfold msPerDay. lia. Qed.

Lemma getDay_newDate y m d :
  getDay tza (newDate tza y m d) = WeekDay (MakeDay (MakeFullYear y) m d).
Proof. unfold getDay. now rewrite Day_newDate. Qed.

(** [setDate] moves by whole days and keeps the time of day. *)
Lemma setDate_shift t k : setDate tza t (getDate tza t + k) = t + k * msPerDay.
Proof.
  unfold setDate, getDate. cbv zeta.
  rewrite MakeDay_date_shift, MakeDay_of_day.
  unfold UTC, MakeDate, TimeWithinDay, Day, LocalTime, msPerDay. divlia.
Qed.

Lemma getDaysInMonth_DaysInMonth y m :
  0 <= m <= 11 -> getDaysInMonth tza y m = DaysInMonth (MakeFullYear y) m.
Proof.
  intros Hm. unfold getDaysInMonth, getDate. rewrite Day_newDate.
  set (Y := MakeFullYear y).
  assert (MakeDay Y (m + 1) 0 = MakeDay Y m (DaysInMonth Y m)) as ->.
  { replace (DaysInMonth Y m) with (1 + (DaysInMonth Y m - 1)) by lia.
    rewrite MakeDay_date_shift. unfold DaysInMonth.
    replace 0 with (1 + (-1)) at 1 by lia. rewrite MakeDay_date_shift. lia. }
  pose proof (DaysInMonth_range Y m Hm).
  apply civil_of_MakeDay; lia.
Qed.

End DateFacts.

(** ** Ordinal weekdays *)

Lemma ordinalsAgree_true : ordinalsAgree = true.
Proof. vm_compute. reflexivity. Qed.

Lemma In_seqZ x a n : In x (seqZ a n) <-> a <= x < a + n.
Proof. rewrite <- list_elem_of_In. apply elem_of_seqZ. Qed.

Lemma index_map {A B : Type} (f : A -> B) (l : list A) (i : Z) :
  index (map f l) i = f <$> index l i.
Proof.
  unfold index. destruct (i <? 0); [reflexivity|]. apply nth_error_map.
Qed.

Lemma index_nil {A : Type} (i : Z) : index (@nil A) i = None.
Proof. unfold index. destruct (i <? 0); [reflexivity|]. now destruct (Z.to_nat i). Qed.

Lemma occurrences_out_of_range fw dim wday :
  ~ 0 <= wday <= 6 -> occurrences fw dim wday = [].
Proof.
  intros H. unfold occurrences.
  induction (seqZ 0 dim) as [|i l IH]; simpl; [reflexivity|].
  destruct (Z.eqb_spec ((fw + i) mod 7) wday) as [E|_]; [|exact IH].
  exfalso. apply H. subst wday. divlia.
Qed.

Lemma occurrences_ordinal fw dim wday :
  0 <= fw <= 6 -> 28 <= dim <= 31 ->
  let occ := occurrences fw dim wday in
  (forall n, index occ (n - 1)
             = (fun dd => dd - 1) <$> ordinalWeekdayIn fw dim (weekNumber n) wday)
  /\ index occ (Z.of_nat (length occ) - 1)
     = (fun dd => dd - 1) <$> ordinalWeekdayIn fw dim weekLast wday.
Proof.
  intros Hfw Hdim occ.
  destruct (decide (0 <= wday <= 6)) as [Hw|Hw].
  - pose proof ordinalsAgree_true as H. unfold ordinalsAgree in H.
    rewrite forallb_forall in H. specialize (H fw). 
    rewrite In_seqZ, forallb_forall in H. specialize (H ltac:(lia) dim).
    rewrite In_seqZ, forallb_forall in H. specialize (H ltac:(lia) wday).
    rewrite In_seqZ in H. specialize (H ltac:(lia)). cbv zeta in H. fold occ in H.
    apply andb_prop in H as [H Hlast]. apply andb_prop in H as [Hlen Hn].
    apply bool_decide_eq_true in Hlast. split; [|exact Hlast].
    intros n. destruct (decide (1 <= n <= 5)) as [Hin|Hout].
    + rewrite forallb_forall in Hn. specialize (Hn n). rewrite In_seqZ in Hn.
      specialize (Hn ltac:(lia)). now apply bool_decide_eq_true in Hn.
    + unfold ordinalWeekdayIn.
      assert ((0 <=? wday) && (wday <=? 6) = true) as -> by lia. cbv zeta.
      destruct (decide (n <= 0)) as [Hn0|Hn6].
      * assert ((1 <=? n) = false) as -> by lia. unfold index.
        assert ((n - 1 <? 0) = true) as -> by lia. reflexivity.
      * assert ((1 + (wday - fw) mod 7 + 7 * (n - 1) <=? dim) = false) as ->
          by (apply Z.leb_gt; divlia).
        rewrite andb_false_r. unfold index.
        assert ((n - 1 <? 0) = false) as -> by lia.
        apply nth_error_None. lia.
  - subst occ. rewrite occurrences_out_of_range by exact Hw.
    unfold ordinalWeekdayIn.
    assert ((0 <=? wday) && (wday <=? 6) = false) as -> by lia.
    split; [intros n|]; apply index_nil.
Qed.

(** What [ordinalWeekdayIn] returns is a day of the month, on the
    wanted weekday, in the [n]-th run of seven days of the month, or in
    the last seven days. *)
Lemma ordinalWeekdayIn_sound fw dim wk wday dd :
  0 <= fw <= 6 -> 28 <= dim ->
  ordinalWeekdayIn fw dim wk wday = Some dd ->
  1 <= dd <= dim
  /\ (fw + (dd - 1)) mod 7 = wday
  /\ match wk with
     | weekNumber n => 7 * (n - 1) < dd <= 7 * n
     | weekLast => dim - 7 < dd
     end.
Proof.
  intros Hfw Hdim. unfold ordinalWeekdayIn.
  destruct ((0 <=? wday) && (wday <=? 6)) eqn:Hw; [|discriminate].
  cbv zeta. destruct wk as [n|].
  - destruct ((1 <=? n) && (_ <=? dim)) eqn:Hn; [|discriminate].
    intros [= <-]. divlia.
  - intros [= <-]. divlia.
Qed.

Lemma WeekDay_shift n i : WeekDay (n + i) = (WeekDay n + i) mod 7.
Proof. unfold WeekDay. divlia. Qed.

Lemma WeekDay_range n : 0 <= WeekDay n <= 6.
Proof. unfold WeekDay. divlia. Qed.

Lemma filter_map_comm {A B : Type} (f : B -> bool) (g : A -> B) (l : list A) :
  List.filter f (map g l) = map g (List.filter (fun x => f (g x)) l).
Proof.
  induction l as [|x l IH]; simpl; [reflexivity|].
  destruct (f (g x)); simpl; now rewrite IH.
Qed.

Section MonthlyFacts.

Variables (tza : Z) (settings : RecurringSettings) (start finalEndDate : Z).

(** The days of the cursor's month that fall on the wanted weekday are
    day 1 moved by the offsets of [occurrences]. *)
Lemma matchingDays_occurrences cur :
  let y := getFullYear tza cur in
  let m := getMonth tza cur in
  matchingDays tza settings cur =
    map (fun i => newDate tza y m (i + 1))
        (occurrences (WeekDay (MakeDay (MakeFullYear y) m 1))
                     (DaysInMonth (MakeFullYear y) m)
                     (day (monthlyOnThe settings))).
Proof.
  intros y m. unfold matchingDays, daysInMonthArr, occurrences. fold y m.
  rewrite filter_map_comm.
  rewrite getDaysInMonth_DaysInMonth by apply MonthFromDay_range.
  f_equal. apply filter_ext. intros i.
  rewrite getDay_newDate.
  replace (i + 1) with (1 + i) by lia.
  now rewrite MakeDay_date_shift, WeekDay_shift.
Qed.

(** [targetDate] is local midnight of the ordinal weekday of the
    cursor's month, when the month has one. *)
Lemma targetDate_ordinalWeekday cur :
  let y := getFullYear tza cur in
  let m := getMonth tza cur in
  targetDate tza settings cur =
    newDate tza y m
      <$> ordinalWeekday (MakeFullYear y) m (week (monthlyOnThe settings))
                         (day (monthlyOnThe settings)).
Proof.
  intros y m. unfold targetDate, ordinalWeekday.
  pose proof (matchingDays_occurrences cur) as Hm. cbv zeta in Hm. fold y m in Hm.
  rewrite Hm. clear Hm.
  set (fw := WeekDay (MakeDay (MakeFullYear y) m 1)).
  set (dim := DaysInMonth (MakeFullYear y) m).
  set (wday := day (monthlyOnThe settings)).
  destruct (occurrences_ordinal fw dim wday) as [Hn Hlast].
  { apply WeekDay_range. }
  { apply DaysInMonth_range, MonthFromDay_range. }
  destruct (week (monthlyOnThe settings)) as [n|].
  - rewrite index_map, Hn.
    destruct (ordinalWeekdayIn fw dim (weekNumber n) wday) as [dd|]; simpl; [|reflexivity].
    f_equal. f_equal. lia.
  - rewrite length_map, index_map, Hlast.
    destruct (ordinalWeekdayIn fw dim weekLast wday) as [dd|]; simpl; [|reflexivity].
    f_equal. f_equal. lia.
Qed.

End MonthlyFacts.

(** ** Order of strings by code units *)

Lemma ascii_compare_refl a : Ascii.compare a a = Eq.
Proof. unfold Ascii.compare. apply N.compare_refl. Qed.

Lemma ascii_compare_trans a b c :
  Ascii.compare a b = Lt -> Ascii.compare b c = Lt -> Ascii.compare a c = Lt.
Proof.
  unfold Ascii.compare. rewrite !N.compare_lt_iff. lia.
Qed.

Lemma string_compare_trans a : forall b c,
  String.compare a b = Lt -> String.compare b c = Lt -> String.compare a c = Lt.
Proof.
  induction a as [|x a IH]; intros [|y b] [|z c]; simpl; try congruence.
  destruct (Ascii.compare x y) eqn:Hxy; try congruence.
  - apply Ascii.compare_eq_iff in Hxy. subst y.
    destruct (Ascii.compare x z) eqn:Hxz; try congruence. eauto.
  - intros _. destruct (Ascii.compare y z) eqn:Hyz; try congruence.
    + apply Ascii.compare_eq_iff in Hyz. subst z. now rewrite Hxy.
    + intros _. now rewrite (ascii_compare_trans _ _ _ Hxy Hyz).
Qed.

Lemma string_compare_refl a : String.compare a a = Eq.
Proof. induction a as [|x a IH]; simpl; [easy|]. now rewrite ascii_compare_refl. Qed.

Lemma strLt_irrefl a : ~ strLt a a.
Proof. unfold strLt. rewrite string_compare_refl. congruence. Qed.

Lemma leb_neq_strLt a b : String.leb a b = true -> a <> b -> strLt a b.
Proof.
  unfold String.leb, strLt. destruct (String.compare a b) eqn:H; try congruence.
  apply String.compare_eq_iff in H. congruence.
Qed.

Lemma not_leb_strLt a b : String.leb a b = false -> strLt b a.
Proof.
  unfold String.leb, strLt. rewrite (String.compare_antisym b a).
  destruct (String.compare a b); simpl; congruence.
Qed.

(** ** Sets and sorting *)

Lemma Set_add_NoDup x s : NoDup s -> NoDup (Set_add x s).
Proof.
  intros H. unfold Set_add. case_bool_decide as Hx; [exact H|].
  apply NoDup_app. repeat split; [exact H| |apply NoDup_singleton].
  intros y Hy Hy'. apply list_elem_of_singleton in Hy'. subst y. contradiction.
Qed.

Lemma elem_of_Set_add y x s : y ∈ Set_add x s <-> y = x \/ y ∈ s.
Proof.
  unfold Set_add. case_bool_decide as Hx.
  - split; [auto|]. intros [->|H]; auto.
  - rewrite elem_of_app, list_elem_of_singleton. tauto.
Qed.

Lemma insertSorted_Permutation x l : Permutation (x :: l) (insertSorted x l).
Proof.
  induction l as [|y l IH]; simpl; [reflexivity|].
  destruct (String.leb x y); [reflexivity|].
  rewrite perm_swap. now apply perm_skip.
Qed.

Lemma sort_Permutation l : Permutation l (sort l).
Proof.
  induction l as [|x l IH]; simpl; [reflexivity|].
  rewrite <- insertSorted_Permutation. now apply perm_skip.
Qed.

Lemma insertSorted_strict x l :
  x ∉ l -> StronglySorted strLt l -> StronglySorted strLt (insertSorted x l).
Proof.
  induction l as [|y l IH]; simpl; intros Hx Hs.
  - constructor; [constructor|constructor].
  - apply not_elem_of_cons in Hx as [Hxy Hxl].
    inversion Hs as [|? ? Hs' Hall]; subst.
    destruct (String.leb x y) eqn:Hle.
    + constructor; [exact Hs|]. pose proof (leb_neq_strLt _ _ Hle Hxy) as Hlt.
      constructor; [exact Hlt|].
      eapply Forall_impl; [exact Hall|]. intros z Hz. eapply string_compare_trans; eauto.
    + constructor; [now apply IH|].
      rewrite <- (insertSorted_Permutation x l).
      constructor; [now apply not_leb_strLt|exact Hall].
Qed.

Lemma sort_strict l : NoDup l -> StronglySorted strLt (sort l).
Proof.
  induction 1 as [|x l Hx Hnd IH]; simpl; [constructor|].
  apply insertSorted_strict; [|exact IH].
  now rewrite <- (sort_Permutation l).
Qed.

Lemma StronglySorted_strLt_NoDup l : StronglySorted strLt l -> NoDup l.
Proof.
  induction 1 as [|x l Hs IH Hall]; constructor; [|exact IH].
  intros Hx. rewrite Forall_forall in Hall. exact (strLt_irrefl _ (Hall _ Hx)).
Qed.

(** ** The loop: shape of the walk *)

Section WalkFacts.

Variables (tza : Z) (settings : RecurringSettings) (start finalEndDate : Z).

Abbreviation round := (body tza settings start finalEndDate).
Abbreviation continues := (guard finalEndDate).
Abbreviation loop := (while tza settings start finalEndDate).

Lemma weekScan_NoDup n : forall cur ds,
  NoDup ds -> NoDup (snd (weekScan tza settings start finalEndDate n cur ds)).
Proof.
  induction n as [|n IH]; intros cur ds H; simpl; [exact H|].
  apply IH. destruct (_ && _); [now apply Set_add_NoDup|exact H].
Qed.

Lemma body_NoDup w : NoDup (dates w) -> NoDup (dates (round w)).
Proof.
  intros H. unfold body, dailyArm, weeklyArm, monthlyArm, yearlyArm.
  destruct (frequency settings); cbn [dates].
  - now apply Set_add_NoDup.
  - now apply weekScan_NoDup.
  - destruct (monthDate _ _ _); [|exact H].
    destruct (inRange _ _ _); [now apply Set_add_NoDup|exact H].
  - destruct (inRange _ _ _); [now apply Set_add_NoDup|exact H].
Qed.

Lemma body_iterations w : iterations (round w) = iterations w + 1.
Proof. unfold body. now destruct (frequency settings). Qed.

Lemma while_NoDup fuel : forall w, NoDup (dates w) -> NoDup (dates (loop fuel w)).
Proof.
  induction fuel as [|fuel IH]; intros w H; simpl; [exact H|].
  destruct (continues w); [|exact H]. apply IH. now apply body_NoDup.
Qed.

Lemma iter_body_iterations n w :
  iterations (Nat.iter n round w) = iterations w + Z.of_nat n.
Proof.
  induction n as [|n IH]; simpl; [lia|]. rewrite body_iterations, IH. lia.
Qed.

Lemma iter_body_shift n w : Nat.iter n round (round w) = Nat.iter (S n) round w.
Proof. induction n as [|n IH]; simpl; [reflexivity|]. now rewrite IH. Qed.

Lemma guard_false_iff w :
  continues w = false <-> finalEndDate < current w \/ maxIterations <= iterations w.
Proof.
  unfold guard. rewrite andb_false_iff, Z.leb_gt, Z.ltb_ge. tauto.
Qed.

(** The unrolled loop is the loop: it leaves after some [n] rounds, with
    the guard true before each of them and false at the end, whenever
    the fuel exceeds the rounds the cap still allows. *)
Lemma while_rounds fuel : forall w,
  iterations w <= maxIterations ->
  maxIterations - iterations w < Z.of_nat fuel ->
  exists n : nat,
    loop fuel w = Nat.iter n round w
    /\ (forall k : nat, (k < n)%nat -> continues (Nat.iter k round w) = true)
    /\ continues (Nat.iter n round w) = false
    /\ iterations w + Z.of_nat n <= maxIterations.
Proof.
  induction fuel as [|fuel IH]; intros w H0 Hf; [lia|].
  simpl. destruct (continues w) eqn:Hg.
  - assert (iterations w < maxIterations) as Hlt.
    { unfold guard in Hg. apply andb_prop in Hg as [_ Hg]. lia. }
    destruct (IH (round w)) as (n & Hw & Hk & Hn & Hle);
      [rewrite body_iterations; lia .. |].
    exists (S n). rewrite <- iter_body_shift. repeat split.
    + exact Hw.
    + intros [|k] Hlt'; [exact Hg|]. rewrite <- iter_body_shift. apply Hk. lia.
    + exact Hn.
    + rewrite body_iterations in Hle. lia.
  - exists O. simpl. repeat split; [lia|exact Hg|lia].
Qed.

End WalkFacts.

(** ** The order of ISO dates is the order of days *)

Lemma string_compare_app_prefix p x y :
  String.compare (p ++ x) (p ++ y) = String.compare x y.
Proof.
  induction p as [|c p IH]; simpl; [reflexivity|].
  now rewrite ascii_compare_refl.
Qed.

Lemma string_compare_app_lt a : forall b x y,
  String.length a = String.length b ->
  String.compare a b = Lt ->
  String.compare (a ++ x) (b ++ y) = Lt.
Proof.
  induction a as [|c a IH]; intros [|c' b] x y Hl H; simpl in *; try discriminate.
  destruct (Ascii.compare c c'); try discriminate; [|reflexivity].
  apply IH; [congruence|exact H].
Qed.

Lemma string_length_app a b :
  String.length (a ++ b) = (String.length a + String.length b)%nat.
Proof. induction a as [|c a IH]; simpl; [reflexivity|]. now rewrite IH. Qed.

Lemma fixedDigits_length w : forall n, String.length (fixedDigits w n) = w.
Proof.
  induction w as [|w IH]; intros n; simpl; [reflexivity|].
  rewrite string_length_app, IH. simpl. lia.
Qed.

Lemma digitChar_lt a b :
  0 <= a < b -> b <= 9 -> Ascii.compare (digitChar a) (digitChar b) = Lt.
Proof.
  intros Ha Hb. unfold Ascii.compare, digitChar.
  rewrite !N_ascii_embedding by lia. apply N.compare_lt_iff. lia.
Qed.

Lemma fixedDigits_lt w : forall a b,
  0 <= a < b -> b < 10 ^ Z.of_nat w ->
  strLt (fixedDigits w a) (fixedDigits w b).
Proof.
  unfold strLt. induction w as [|w IH]; intros a b Hab Hb.
  - simpl in Hb. lia.
  - rewrite Nat2Z.inj_succ, Z.pow_succ_r in Hb by lia.
    cbn [fixedDigits].
    destruct (Z.eq_dec (a / 10) (b / 10)) as [E|E].
    + rewrite E, string_compare_app_prefix. cbn [String.compare].
      rewrite digitChar_lt; [reflexivity|divlia|divlia].
    + apply string_compare_app_lt.
      * now rewrite !fixedDigits_length.
      * apply IH; [divlia|]. generalize dependent (10 ^ Z.of_nat w). intros P HP. divlia.
Qed.

Lemma YearFromDay_le n1 n2 : n1 <= n2 -> YearFromDay n1 <= YearFromDay n2.
Proof.
  intros H. pose proof (YearFromDay_spec n1) as H1. pose proof (YearFromDay_spec n2) as H2.
  destruct (Z.le_gt_cases (YearFromDay n1) (YearFromDay n2)) as [Hle|Hgt]; [exact Hle|].
  assert (YearFromDay n2 + 1 <= YearFromDay n1) as Hs by lia.
  apply Zle_lt_or_eq in Hs as [Hl|He].
  - apply DayFromYear_lt in Hl. lia.
  - rewrite He in H2. lia.
Qed.

Lemma monthStart_le leap a b :
  0 <= leap <= 1 -> 0 <= a -> a <= b -> b <= 11 -> monthStart leap a <= monthStart leap b.
Proof. intros Hl Ha Hab Hb. unfold monthStart. ifs. Qed.

Lemma monthStart_next y m :
  0 <= m <= 10 ->
  monthStart (DaysInYear y - 365) (m + 1)
  = monthStart (DaysInYear y - 365) m + DaysInMonth y m.
Proof.
  intros Hm. unfold DaysInMonth. rewrite !MakeDay_in_year by lia. lia.
Qed.

(** The calendar date grows with the day number, field by field. *)
Lemma civil_lt n1 n2 :
  n1 < n2 ->
  YearFromDay n1 < YearFromDay n2
  \/ (YearFromDay n1 = YearFromDay n2 /\ MonthFromDay n1 < MonthFromDay n2)
  \/ (YearFromDay n1 = YearFromDay n2 /\ MonthFromDay n1 = MonthFromDay n2
      /\ DateFromDay n1 < DateFromDay n2).
Proof.
  intros H. pose proof (YearFromDay_le n1 n2 ltac:(lia)) as Hy.
  apply Zle_lt_or_eq in Hy as [Hy|Hy]; [now left|right].
  pose proof (MakeDay_of_day n1) as E1. pose proof (MakeDay_of_day n2) as E2.
  pose proof (MonthFromDay_range n1) as R1. pose proof (MonthFromDay_range n2) as R2.
  pose proof (DateFromDay_range n1) as D1. pose proof (DateFromDay_range n2) as D2.
  rewrite MakeDay_in_year in E1, E2 by assumption.
  rewrite <- Hy in *.
  pose proof (DaysInYear_cases (YearFromDay n1)) as Hc.
  destruct (Z.lt_trichotomy (MonthFromDay n1) (MonthFromDay n2)) as [Hm|[Hm|Hm]].
  - left. now split.
  - right. rewrite <- Hm in *. repeat split. lia.
  - exfalso.
    pose proof (monthStart_le (DaysInYear (YearFromDay n1) - 365)
                  (MonthFromDay n2 + 1) (MonthFromDay n1) ltac:(lia) ltac:(lia)
                  ltac:(lia) ltac:(lia)) as Hle.
    rewrite monthStart_next in Hle by lia. lia.
Qed.

Lemma isoYear_lt y1 y2 :
  0 <= y1 < y2 -> y2 <= 9999 -> strLt (isoYear y1) (isoYear y2).
Proof.
  intros H1 H2. unfold isoYear.
  assert ((0 <=? y1) && (y1 <=? 9999) = true) as -> by lia.
  assert ((0 <=? y2) && (y2 <=? 9999) = true) as -> by lia.
  apply fixedDigits_lt; [lia|]. change (10 ^ Z.of_nat 4) with 10000. lia.
Qed.

Lemma isoYear_length y : 0 <= y <= 9999 -> String.length (isoYear y) = 4%nat.
Proof.
  intros H. unfold isoYear.
  assert ((0 <=? y) && (y <=? 9999) = true) as -> by lia. apply fixedDigits_length.
Qed.

(** For days of the years 0000..9999 the code-unit order of the ISO
    dates is the order of the days. *)
Lemma isoDateOfDay_chronological n1 n2 :
  0 <= YearFromDay n1 -> YearFromDay n2 <= 9999 -> n1 < n2 ->
  strLt (isoDateOfDay n1) (isoDateOfDay n2).
Proof.
  intros H0 H9 Hlt. pose proof (YearFromDay_le n1 n2 ltac:(lia)) as Hyle.
  pose proof (MonthFromDay_range n1) as R1. pose proof (MonthFromDay_range n2) as R2.
  pose proof (DateFromDay_range n1) as D1. pose proof (DateFromDay_range n2) as D2.
  pose proof (DaysInMonth_range (YearFromDay n1) _ R1) as M1.
  pose proof (DaysInMonth_range (YearFromDay n2) _ R2) as M2.
  unfold strLt, isoDateOfDay.
  destruct (civil_lt n1 n2 Hlt) as [Hy|[[Hy Hm]|(Hy & Hm & Hd)]].
  - apply string_compare_app_lt.
    + rewrite !isoYear_length by lia. reflexivity.
    + apply isoYear_lt; lia.
  - rewrite Hy, string_compare_app_prefix, string_compare_app_prefix.
    apply string_compare_app_lt.
    + now rewrite !fixedDigits_length.
    + apply fixedDigits_lt; [lia|]. change (10 ^ Z.of_nat 2) with 100. lia.
  - rewrite Hy, Hm. rewrite !string_compare_app_prefix.
    apply fixedDigits_lt; [lia|]. change (10 ^ Z.of_nat 2) with 100. lia.
Qed.

(** ** Results on [calculateRecurringDates] that hold on every host *)

Lemma Some_eq_inv {A : Type} (x y : A) : Some x = Some y -> x = y.
Proof. congruence. Qed.


Lemma calculateRecurringDates_dates tza settings :
  calculateRecurringDates tza settings =
    match expansion tza settings with
    | Some w => sort (dates w)
    | None => []
    end.
Proof.
  unfold calculateRecurringDates.
  destruct (truthy (startDate settings)) eqn:Ht; cbn [negb].
  - now destruct (expansion tza settings).
  - destruct (startDate settings) as [[|c s]|] eqn:Hs; [| discriminate |];
      unfold expansion, loopEntry; rewrite Hs; reflexivity.
Qed.

(** C3. The loop of [calculateRecurringDates] leaves after [n <= 2000]
    rounds: the guard holds before each round and fails after the last,
    either because the cursor has passed [finalEndDate] or because the
    cap of 2000 rounds is reached.  In either case the function returns
    the dates accumulated in those rounds, each once, in ascending order.
    The loop is entered with the start date at local midnight and the end
    of the range at 23:59:59.999; when the start date is missing, or
    it or the end date is an Invalid Date, no round is run and the result
    is empty. *)
Theorem calculateRecurringDates_terminates tza settings :
  let result := calculateRecurringDates tza settings in
  match startDate settings with
  | None => result = []
  | Some s =>
      match newDateFromString tza s 0 with
      | None => result = []
      | Some start =>
          let cur0 := setHours tza start 0 0 0 0 in
          let endOfRange0 :=
            if truthy (endDate settings) then
              match endDate settings with
              | Some e => newDateFromString tza e (MakeTime 23 59 59 0)
              | None => None
              end
            else Some (newDate tza (getFullYear tza cur0 + 5) 0 1) in
          match endOfRange0 with
          | None => result = []
          | Some e =>
              let finalEndDate := setHours tza e 23 59 59 999 in
              let round := body tza settings start finalEndDate in
              let w0 := {| current := cur0; iterations := 0; dates := [] |} in
              exists n : nat,
                let w := Nat.iter n round w0 in
                (n <= 2000)%nat
                /\ iterations w = Z.of_nat n
                /\ (forall k : nat, (k < n)%nat ->
                      guard finalEndDate (Nat.iter k round w0) = true)
                /\ guard finalEndDate w = false
                /\ (finalEndDate < current w \/ n = 2000%nat)
                /\ Permutation (dates w) result
                /\ StronglySorted strLt result
          end
      end
  end.
Proof.
  intros result. subst result. rewrite calculateRecurringDates_dates.
  unfold expansion, loopEntry, endOfRange.
  destruct (startDate settings) as [s|]; [|reflexivity].
  destruct (newDateFromString tza s 0) as [start|]; [|reflexivity].
  cbv zeta.
  destruct (if truthy (endDate settings)
            then match endDate settings with
                 | Some e => newDateFromString tza e (MakeTime 23 59 59 0)
                 | None => None
                 end
            else Some (newDate tza (getFullYear tza (setHours tza start 0 0 0 0) + 5) 0 1))
    as [e|]; [|reflexivity].
  set (fe := setHours tza e 23 59 59 999).
  set (w0 := {| current := setHours tza start 0 0 0 0; iterations := 0; dates := [] |}).
  destruct (while_rounds tza settings start fe (S (Z.to_nat maxIterations)) w0)
    as (n & Hn & Hk & Hstop & Hle).
  { unfold maxIterations. cbn [iterations w0]. lia. }
  { rewrite Nat2Z.inj_succ, Z2Nat.id by (unfold maxIterations; lia).
    cbn [iterations w0]. lia. }
  cbn [iterations w0] in Hle. unfold maxIterations in Hle.
  rewrite Hn. exists n.
  split; [lia|]. split; [now rewrite iter_body_iterations|].
  split; [exact Hk|]. split; [exact Hstop|]. split.
  - apply guard_false_iff in Hstop. rewrite iter_body_iterations in Hstop.
    cbn [iterations w0] in Hstop. unfold maxIterations in Hstop. lia.
  - split; [apply sort_Permutation|]. apply sort_strict.
    rewrite <- Hn. apply while_NoDup. constructor.
Qed.

(** C8. With an absent or empty [startDate] the result is the empty
    array, whatever the other fields. *)
Theorem calculateRecurringDates_no_start tza settings :
  startDate settings = None \/ startDate settings = Some EmptyString ->
  calculateRecurringDates tza settings = [].
Proof.
  intros [H|H]; unfold calculateRecurringDates; now rewrite H.
Qed.

Lemma calculateRecurringDates_no_start_witness :
  calculateRecurringDates utcHost withoutStartDate = [].
Proof.
  apply (calculateRecurringDates_no_start utcHost withoutStartDate). right. reflexivity.
Defined.

(** ** The handlers of [App] *)

Lemma spread_lookup (old new : gmap string EventAssignment) (date : string) :
  spread old new !! date =
    match new !! date with
    | Some a => Some a
    | None => old !! date
    end.
Proof.
  unfold spread. destruct (new !! date) as [a|] eqn:Hn.
  - now apply lookup_union_Some_l.
  - now apply lookup_union_r.
Qed.

(** C9. After [handleSave data], the committed event map ([events], and
    the [events] of [savedData]) holds at each date the assignment of
    [data.events] when there is one and the previously committed
    assignment otherwise. *)
Theorem handleSave_merges_events (data : SavedData) (st : AppState) (date : string) :
  events (handleSave data st) !! date =
    match sd_events data !! date with
    | Some a => Some a
    | None => events st !! date
    end
  /\ sd_events <$> savedData (handleSave data st) = Some (events (handleSave data st)).
Proof.
  split; [apply spread_lookup|reflexivity].
Qed.

(** Whenever there is saved data, its [events] is the [events] state. *)
Lemma reachable_saved_events st :
  reachable st -> forall sd, savedData st = Some sd -> sd_events sd = events st.
Proof.
  induction 1 as [|data st _ _|i st _ _|date st _ _|newId t c st _ IH]; simpl.
  - discriminate.
  - now intros sd [= <-].
  - destruct (savedData st); [|discriminate]. now intros sd [= <-].
  - destruct (savedData st); [|discriminate]. now intros sd [= <-].
  - exact IH.
Qed.

Lemma withoutAssignmentsOf_lookup i (evs : gmap string EventAssignment) date a :
  withoutAssignmentsOf i evs !! date = Some a <-> evs !! date = Some a /\ typeId a ≠ i.
Proof. unfold withoutAssignmentsOf. now rewrite map_lookup_filter_Some. Qed.

Lemma elem_of_withoutType i types et :
  et ∈ withoutType i types <-> et ∈ types /\ id et ≠ i.
Proof.
  unfold withoutType. rewrite !list_elem_of_In, filter_In, negb_true_iff.
  now rewrite String.eqb_neq.
Qed.

(** C10. In a state the application can reach, [deleteEventType i]
    leaves in the registry exactly the types whose id is not [i], and in
    [events] and in the [events] of the saved data exactly the
    assignments, unchanged, whose [typeId] is not [i]. *)
Theorem deleteEventType_cascades (i : string) (st : AppState) :
  reachable st ->
  let st' := deleteEventType i st in
  (forall et, et ∈ customEventTypes st' <-> et ∈ customEventTypes st /\ id et ≠ i)
  /\ (forall date a,
        events st' !! date = Some a <-> events st !! date = Some a /\ typeId a ≠ i)
  /\ match savedData st, savedData st' with
     | Some sd, Some sd' =>
         (forall et, et ∈ sd_customEventTypes sd'
                     <-> et ∈ sd_customEventTypes sd /\ id et ≠ i)
         /\ (forall date a,
               sd_events sd' !! date = Some a
               <-> sd_events sd !! date = Some a /\ typeId a ≠ i)
     | None, None => True
     | _, _ => False
     end.
Proof.
  intros Hr st'. split; [|split].
  - intros et. apply elem_of_withoutType.
  - intros date a. apply withoutAssignmentsOf_lookup.
  - pose proof (reachable_saved_events st Hr) as Hinv.
    subst st'. simpl. destruct (savedData st) as [sd|]; [|exact I].
    simpl. split.
    + intros et. apply elem_of_withoutType.
    + intros date a. rewrite (Hinv sd eq_refl). apply withoutAssignmentsOf_lookup.
Qed.

Lemma deleteEventType_cascades_witness :
  reachable stateTwoTypes
  /\ forall date a,
       events (deleteEventType "evt_1" stateTwoTypes) !! date = Some a
       <-> events stateTwoTypes !! date = Some a /\ typeId a ≠ "evt_1"%string.
Proof.
  assert (reachable stateTwoTypes) as Hr by apply reach_handleSave, reach_initial.
  split; [exact Hr|].
  exact (proj1 (proj2 (deleteEventType_cascades "evt_1" stateTwoTypes Hr))).
Defined.

(** ** Dates within the range, on hosts at or west of UTC *)

Section RangeFacts.

Variable tza : Z.

Lemma setHours_startOfDay t : setHours tza t 0 0 0 0 = startOfDay tza (Day (LocalTime tza t)).
Proof. reflexivity. Qed.

Lemma setHours_endOfDay t :
  setHours tza t 23 59 59 999 = endOfDay tza (Day (LocalTime tza t)).
Proof. reflexivity. Qed.

Lemma Day_startOfDay n : Day (LocalTime tza (startOfDay tza n)) = n.
Proof. apply Day_LocalTime_UTC. unfold msPerDay. lia. Qed.

Lemma parseISODate_valid s y m d :
  parseISODate s = Some (y, m, d) ->
  0 <= y <= 9999 /\ 1 <= m <= 12 /\ 1 <= d <= DaysInMonth y (m - 1).
Proof.
  unfold parseISODate.
  destruct (list_ascii_of_string s) as [|y1 [|y2 [|y3 [|y4 [|s1 [|m1 [|m2 [|s2 [|d1 [|d2 [|? ?]]]]]]]]]]];
    try discriminate.
  destruct (_ && _); [|discriminate].
  destruct (digits4 y1 y2 y3 y4) as [y'|] eqn:Hy; [|discriminate].
  destruct (digits2 m1 m2) as [m'|]; [|discriminate].
  destruct (digits2 d1 d2) as [d'|]; [|discriminate].
  destruct (_ && _) eqn:Hv; [|discriminate].
  intros [= <- <- <-].
  split; [|lia].
  unfold digits4, digits2, digitVal in Hy. cbv zeta in Hy.
  repeat match type of Hy with
         | context [if ?b then _ else _] => destruct b eqn:?; [|discriminate]
         end.
  injection Hy as <-. lia.
Qed.

Lemma newDateFromString_startOfDay s n :
  dayOfDateString s = Some n -> newDateFromString tza s 0 = Some (startOfDay tza n).
Proof.
  unfold dayOfDateString, newDateFromString.
  destruct (parseISODate s) as [[[y m] d]|]; [|discriminate]. now intros [= <-].
Qed.

Lemma getFullYear_startOfDay s y m d :
  parseISODate s = Some (y, m, d) ->
  getFullYear tza (startOfDay tza (MakeDay y (m - 1) d)) = y.
Proof.
  intros H. apply parseISODate_valid in H as (_ & Hm & Hd).
  unfold getFullYear. rewrite Day_startOfDay. apply civil_of_MakeDay; lia.
Qed.

(** The values with which the loop is entered, in day numbers. *)
Lemma loopEntry_days settings s y m d lastDay :
  startDate settings = Some s ->
  parseISODate s = Some (y, m, d) ->
  100 <= y ->
  effectiveEndDay settings y = Some lastDay ->
  loopEntry tza settings
  = Some (startOfDay tza (MakeDay y (m - 1) d), endOfDay tza lastDay,
          {| current := startOfDay tza (MakeDay y (m - 1) d);
             iterations := 0; dates := [] |}).
Proof.
  intros Hs Hp Hy He. unfold loopEntry. rewrite Hs.
  rewrite (newDateFromString_startOfDay s (MakeDay y (m - 1) d))
    by (unfold dayOfDateString; now rewrite Hp).
  rewrite setHours_startOfDay, Day_startOfDay.
  unfold endOfRange, effectiveEndDay in *.
  destruct (truthy (endDate settings)).
  - destruct (endDate settings) as [e|]; [|discriminate].
    unfold dayOfDateString in He. unfold newDateFromString.
    destruct (parseISODate e) as [[[ye me] de]|]; [|discriminate].
    injection He as <-. rewrite setHours_endOfDay.
    rewrite Day_LocalTime_UTC by (unfold MakeTime, msPerDay; lia). reflexivity.
  - injection He as <-. rewrite (getFullYear_startOfDay s y m d Hp).
    rewrite setHours_endOfDay, Day_newDate. unfold MakeFullYear.
    assert ((0 <=? y + 5) && (y + 5 <=? 99) = false) as -> by lia. reflexivity.
Qed.


Lemma TimeWithinDay_range t : 0 <= TimeWithinDay t < msPerDay.
Proof. unfold TimeWithinDay, msPerDay. divlia. Qed.

Lemma atLocalMidnight_startOfDay n : atLocalMidnight tza (startOfDay tza n).
Proof. apply TimeWithinDay_LocalTime_UTC. unfold msPerDay. lia. Qed.

Lemma atLocalMidnight_newDate y m d : atLocalMidnight tza (newDate tza y m d).
Proof. apply atLocalMidnight_startOfDay. Qed.

Lemma atLocalMidnight_setDate t dt :
  atLocalMidnight tza t -> atLocalMidnight tza (setDate tza t dt).
Proof.
  unfold atLocalMidnight, setDate. intros H. cbv zeta.
  rewrite TimeWithinDay_LocalTime_UTC; [exact H|apply TimeWithinDay_range].
Qed.

Lemma atLocalMidnight_setMonth t m :
  atLocalMidnight tza t -> atLocalMidnight tza (setMonth tza t m).
Proof.
  unfold atLocalMidnight, setMonth. intros H. cbv zeta.
  rewrite TimeWithinDay_LocalTime_UTC; [exact H|apply TimeWithinDay_range].
Qed.

Lemma atLocalMidnight_setFullYear t y :
  atLocalMidnight tza t -> atLocalMidnight tza (setFullYear tza t y).
Proof.
  unfold atLocalMidnight, setFullYear. intros H. cbv zeta.
  rewrite TimeWithinDay_LocalTime_UTC; [exact H|apply TimeWithinDay_range].
Qed.

Section Bounds.

Hypothesis west : - msPerDay < tza <= 0.

Variables (settings : RecurringSettings) (firstDay lastDay : Z).

Abbreviation start := (startOfDay tza firstDay).
Abbreviation finalEndDate := (endOfDay tza lastDay).

(** A local midnight between the bounds of the loop is written as the
    date of a day of the range. *)
Lemma toISODate_within t :
  atLocalMidnight tza t -> start <= t <= finalEndDate ->
  dateWithin firstDay lastDay (toISODate t).
Proof.
  intros Hm Ht. exists (Day (LocalTime tza t)). unfold toISODate.
  unfold atLocalMidnight, TimeWithinDay, startOfDay, endOfDay, UTC, MakeDate, Day,
    LocalTime, msPerDay in *.
  split; [f_equal|]; divlia.
Qed.

Lemma Set_add_within str ds :
  dateWithin firstDay lastDay str ->
  Forall (dateWithin firstDay lastDay) ds ->
  Forall (dateWithin firstDay lastDay) (Set_add str ds).
Proof.
  intros Hs Hd. unfold Set_add. case_bool_decide; [exact Hd|].
  apply Forall_app. split; [exact Hd|]. now constructor.
Qed.

Lemma inRange_spec d :
  inRange start finalEndDate d = true <-> start <= d <= finalEndDate.
Proof. unfold inRange. rewrite andb_true_iff, !Z.leb_le. tauto. Qed.

Lemma weekScan_within n : forall cur ds,
  atLocalMidnight tza cur ->
  Forall (dateWithin firstDay lastDay) ds ->
  atLocalMidnight tza (fst (weekScan tza settings start finalEndDate n cur ds))
  /\ Forall (dateWithin firstDay lastDay)
            (snd (weekScan tza settings start finalEndDate n cur ds)).
Proof.
  induction n as [|n IH]; intros cur ds Hc Hd; [now split|].
  cbn [weekScan]. apply IH; [now apply atLocalMidnight_setDate|].
  destruct (selected _ _ && (start <=? cur) && (cur <=? finalEndDate)) eqn:E; [|exact Hd].
  apply Set_add_within; [|exact Hd]. apply toISODate_within; [exact Hc|]. lia.
Qed.

Lemma body_within w :
  0 <= interval settings ->
  guard finalEndDate w = true ->
  withinInvariant tza settings firstDay lastDay w ->
  withinInvariant tza settings firstDay lastDay (body tza settings start finalEndDate w).
Proof.
  intros Hi Hg (Hd & Hm & Hs). unfold guard in Hg.
  apply andb_prop in Hg as [Hg _]. apply Z.leb_le in Hg.
  unfold withinInvariant, body.
  destruct (frequency settings) eqn:Hf.
  - unfold dailyArm. cbn [dates current]. split; [|split].
    + apply Set_add_within; [|exact Hd]. apply toISODate_within; [exact Hm|].
      specialize (Hs eq_refl). lia.
    + now apply atLocalMidnight_setDate.
    + intros _. rewrite setDate_shift. specialize (Hs eq_refl). unfold msPerDay. nia.
  - unfold weeklyArm. cbn [dates current].
    destruct (weekScan_within 7 (weekStart tza start w) (dates w)) as [Hc' Hd'].
    { unfold weekStart. destruct (_ =? 1); [now apply atLocalMidnight_setDate|exact Hm]. }
    { exact Hd. }
    split; [exact Hd'|]. split; [now apply atLocalMidnight_setDate|discriminate].
  - unfold monthlyArm. cbn [dates current]. split; [|split; [|discriminate]].
    + unfold monthDate. destruct (monthlyType settings).
      * destruct (inRange _ _ _) eqn:E; [|exact Hd].
        apply Set_add_within; [|exact Hd]. apply toISODate_within.
        -- apply atLocalMidnight_newDate.
        -- now apply inRange_spec.
      * pose proof (targetDate_ordinalWeekday tza settings (current w)) as Ht.
        cbv zeta in Ht. rewrite Ht.
        destruct (ordinalWeekday _ _ _ _) as [dd|]; [|exact Hd]. cbn [fmap option_fmap option_map].
        destruct (inRange _ _ _) eqn:E; [|exact Hd].
        apply Set_add_within; [|exact Hd]. apply toISODate_within.
        -- apply atLocalMidnight_newDate.
        -- now apply inRange_spec.
    + now apply atLocalMidnight_setDate, atLocalMidnight_setMonth.
  - unfold yearlyArm. cbn [dates current]. split; [|split; [|discriminate]].
    + destruct (inRange _ _ _) eqn:E; [|exact Hd].
      apply Set_add_within; [|exact Hd]. apply toISODate_within.
      * apply atLocalMidnight_newDate.
      * now apply inRange_spec.
    + now apply atLocalMidnight_setFullYear.
Qed.

Lemma while_within fuel : forall w,
  0 <= interval settings ->
  withinInvariant tza settings firstDay lastDay w ->
  withinInvariant tza settings firstDay lastDay (while tza settings start finalEndDate fuel w).
Proof.
  induction fuel as [|fuel IH]; intros w Hi Hw; [exact Hw|].
  cbn [while]. destruct (guard finalEndDate w) eqn:Hg; [|exact Hw].
  apply IH; [exact Hi|]. now apply body_within.
Qed.

End Bounds.

End RangeFacts.

(** On a host at or west of UTC, with a start year from 0100 and a
    non-negative interval, every string of the result is the ISO date of a
    day from the start date to the end date, or to January 1 of the start
    year + 5 when there is no end date. *)
Theorem dates_within_range_west_of_utc tza settings s y m d lastDay str :
  - msPerDay < tza <= 0 ->
  0 <= interval settings ->
  startDate settings = Some s ->
  parseISODate s = Some (y, m, d) ->
  100 <= y ->
  effectiveEndDay settings y = Some lastDay ->
  In str (calculateRecurringDates tza settings) ->
  dateWithin (MakeDay y (m - 1) d) lastDay str.
Proof.
  intros Htz Hi Hs Hp Hy He Hin.
  rewrite calculateRecurringDates_dates in Hin. unfold expansion in Hin.
  rewrite (loopEntry_days tza settings s y m d lastDay Hs Hp Hy He) in Hin.
  rewrite <- list_elem_of_In, <- (sort_Permutation _) in Hin.
  pose proof (while_within tza Htz settings (MakeDay y (m - 1) d) lastDay
                (S (Z.to_nat maxIterations))
                {| current := startOfDay tza (MakeDay y (m - 1) d);
                   iterations := 0; dates := [] |} Hi) as [Hd _].
  { split; [constructor|]. split; [apply atLocalMidnight_startOfDay|].
    intros _. cbn [current]. lia. }
  rewrite Forall_forall in Hd. now apply Hd.
Qed.

(** ** The rounds of the weekly, monthly and yearly walks *)

Section RoundFacts.

Variables (tza : Z) (settings : RecurringSettings) (start finalEndDate : Z).

Lemma daysFrom_succ t n : daysFrom t (S n) = t :: daysFrom (t + msPerDay) n.
Proof.
  unfold daysFrom. cbn [seq map]. f_equal; [lia|].
  rewrite <- seq_shift, map_map. apply map_ext. intros i. lia.
Qed.

Lemma weekScan_days n : forall cur ds,
  weekScan tza settings start finalEndDate n cur ds
  = (cur + Z.of_nat n * msPerDay,
     foldl (emitIfSelected tza settings start finalEndDate) ds (daysFrom cur n)).
Proof.
  induction n as [|n IH]; intros cur ds.
  - cbn. f_equal. lia.
  - rewrite daysFrom_succ. cbn [weekScan foldl].
    rewrite setDate_shift, IH. f_equal. lia.
Qed.

(** In a round of the weekly walk, each of the seven days from the week
    start on is added when its weekday is selected and it is within
    [start, finalEndDate]; the cursor then stands [interval] weeks after
    the week start. *)
Lemma weekly_round w :
  frequency settings = weekly ->
  let ws := weekStart tza start w in
  let w' := body tza settings start finalEndDate w in
  dates w' = foldl (emitIfSelected tza settings start finalEndDate) (dates w) (daysFrom ws 7)
  /\ current w' = ws + 7 * msPerDay + (interval settings - 1) * 7 * msPerDay
  /\ iterations w' = iterations w + 1.
Proof.
  intros Hf ws w'. subst w'. unfold body. rewrite Hf. unfold weeklyArm.
  cbn [dates current iterations]. fold ws. rewrite weekScan_days. cbn [fst snd].
  rewrite setDate_shift. repeat split.
Qed.

(** In the first round the week start is the Sunday on or before the
    start date. *)
Lemma weekStart_first_round w :
  iterations w = 0 -> current w = start ->
  let ws := weekStart tza start w in
  getDay tza ws = 0
  /\ ws = start - getDay tza start * msPerDay
  /\ ws <= start < ws + 7 * msPerDay.
Proof.
  intros Hi Hc ws. subst ws. unfold weekStart. rewrite Hi, Hc.
  change (0 + 1 =? 1) with true. cbv iota.
  replace (getDate tza start - getDay tza start)
    with (getDate tza start + - getDay tza start) by lia.
  rewrite setDate_shift. unfold getDay, WeekDay, Day, LocalTime, msPerDay.
  repeat split; divlia.
Qed.

Lemma weekStart_later_rounds w :
  iterations w <> 0 -> weekStart tza start w = current w.
Proof. intros H. unfold weekStart. destruct (Z.eqb_spec (iterations w + 1) 1); [lia|reflexivity]. Qed.

Lemma MakeDay_normalize y m d : MakeDay y m d = MakeDay (y + m / 12) (m mod 12) d.
Proof.
  unfold MakeDay.
  replace (m mod 12 / 12) with 0 by divlia.
  replace ((m mod 12) mod 12) with (m mod 12) by divlia.
  now rewrite Z.add_0_r.
Qed.

Lemma Day_setMonth t m :
  Day (LocalTime tza (setMonth tza t m))
  = MakeDay (getFullYear tza t) m (getDate tza t).
Proof. unfold setMonth. cbv zeta. apply Day_LocalTime_UTC, TimeWithinDay_range. Qed.

Lemma Day_setDate t dt :
  Day (LocalTime tza (setDate tza t dt))
  = MakeDay (getFullYear tza t) (getMonth tza t) dt.
Proof. unfold setDate. cbv zeta. apply Day_LocalTime_UTC, TimeWithinDay_range. Qed.

Lemma Day_setFullYear t y :
  Day (LocalTime tza (setFullYear tza t y))
  = MakeDay y (getMonth tza t) (getDate tza t).
Proof. unfold setFullYear. cbv zeta. apply Day_LocalTime_UTC, TimeWithinDay_range. Qed.

(** From a cursor on day 1..28, a round of the monthly walk moves to day
    1 of the month [interval] months later. *)
Lemma monthly_round_cursor w :
  frequency settings = monthly ->
  getDate tza (current w) <= 28 ->
  let cur' := current (body tza settings start finalEndDate w) in
  getDate tza cur' = 1
  /\ 12 * getFullYear tza cur' + getMonth tza cur'
     = 12 * getFullYear tza (current w) + getMonth tza (current w) + interval settings.
Proof.
  intros Hf Hd cur'. subst cur'. unfold body. rewrite Hf. unfold monthlyArm.
  cbn [current].
  set (cur := current w) in *.
  set (y := getFullYear tza cur). set (m := getMonth tza cur).
  set (k := interval settings).
  set (t1 := setMonth tza cur (m + k)).
  pose proof (DateFromDay_range (Day (LocalTime tza cur))) as Hr.
  fold (getDate tza cur) in Hr.
  assert (0 <= (m + k) mod 12 <= 11) as Hmk by divlia.
  pose proof (DaysInMonth_range (y + (m + k) / 12) ((m + k) mod 12) Hmk) as Hdim.
  destruct (civil_of_MakeDay (y + (m + k) / 12) ((m + k) mod 12) (getDate tza cur))
    as (Hy' & Hm' & _); [lia..|].
  destruct (civil_of_MakeDay (y + (m + k) / 12) ((m + k) mod 12) 1)
    as (Hy1 & Hm1 & Hd1); [lia..|].
  assert (getFullYear tza t1 = y + (m + k) / 12 /\ getMonth tza t1 = (m + k) mod 12)
    as [Hyt Hmt].
  { unfold getFullYear, getMonth. subst t1. rewrite Day_setMonth.
    fold y. rewrite (MakeDay_normalize y (m + k)). now split. }
  unfold getDate at 1, getFullYear at 1, getMonth at 1.
  rewrite !Day_setDate, Hyt, Hmt, Hy1, Hm1, Hd1.
  split; [reflexivity|]. divlia.
Qed.

Lemma YearFromDay_MakeDay_any y0 y m d :
  0 <= m <= 11 -> 1 <= d <= DaysInMonth y0 m -> YearFromDay (MakeDay y m d) = y.
Proof.
  intros Hm Hd. rewrite DaysInMonth_table in Hd by exact Hm.
  pose proof (DaysInYear_cases y0). pose proof (DaysInYear_cases y).
  apply YearFromDay_unique. rewrite DayFromYear_succ, MakeDay_in_year by exact Hm.
  unfold monthStart.
  assert (m = 0 \/ m = 1 \/ m = 2 \/ m = 3 \/ m = 4 \/ m = 5 \/ m = 6 \/ m = 7
          \/ m = 8 \/ m = 9 \/ m = 10 \/ m = 11) as Hcase by lia.
  repeat (destruct Hcase as [->|Hcase]; [simpl in *; lia|]).
  subst m. simpl in *. lia.
Qed.

(** In a round of the yearly walk the candidate is the start's month and
    day in the cursor's year, added when within [start, finalEndDate];
    the cursor's year then grows by [interval]. *)
Lemma yearly_round w :
  frequency settings = yearly ->
  let cur := current w in
  let yd := newDate tza (getFullYear tza cur) (getMonth tza start) (getDate tza start) in
  let w' := body tza settings start finalEndDate w in
  dates w' = (if inRange start finalEndDate yd
              then Set_add (toISODate yd) (dates w) else dates w)
  /\ getFullYear tza (current w') = getFullYear tza cur + interval settings
  /\ iterations w' = iterations w + 1.
Proof.
  intros Hf cur yd w'. subst w'. unfold body. rewrite Hf. unfold yearlyArm.
  cbn [dates current iterations]. split; [reflexivity|]. split; [|reflexivity].
  unfold getFullYear at 1.
  rewrite Day_setFullYear.
  apply (YearFromDay_MakeDay_any (YearFromDay (Day (LocalTime tza cur)))).
  - apply MonthFromDay_range.
  - apply DateFromDay_range.
Qed.

(** The daily walk moves by [interval] days a round. *)
Lemma daily_rounds n : forall w,
  frequency settings = daily ->
  current (Nat.iter n (body tza settings start finalEndDate) w)
  = current w + Z.of_nat n * interval settings * msPerDay.
Proof.
  induction n as [|n IH]; intros w Hf; [cbn; lia|].
  assert (forall x, body tza settings start finalEndDate x
                    = dailyArm tza settings x) as Hb
    by (intros x; unfold body; now rewrite Hf).
  rewrite Nat.iter_succ, Hb. unfold dailyArm. cbn [current].
  rewrite setDate_shift, IH by exact Hf. lia.
Qed.

End RoundFacts.

(** ** The expansion on given settings *)

(** The examples of the specification, on a host at UTC. *)
Example dailyFirstWeek_utc :
  calculateRecurringDates utcHost dailyFirstWeek
  = ["2024-01-01"; "2024-01-02"; "2024-01-03"; "2024-01-04"; "2024-01-05"]%string.
Proof. vm_compute. reflexivity. Qed.

Example mondaysAndWednesdays_utc :
  calculateRecurringDates utcHost mondaysAndWednesdays
  = ["2024-01-01"; "2024-01-03"; "2024-01-08"; "2024-01-10"]%string.
Proof. vm_compute. reflexivity. Qed.

Example lastFridays_utc :
  calculateRecurringDates utcHost lastFridays
  = ["2024-01-26"; "2024-02-23"; "2024-03-29"]%string.
Proof. vm_compute. reflexivity. Qed.

Example anniversaries_utc :
  calculateRecurringDates utcHost anniversaries
  = ["2023-02-28"; "2024-02-28"; "2025-02-28"]%string.
Proof. vm_compute. reflexivity. Qed.

(** C1.  On a host at UTC+05:30 the daily expansion from 2024-01-01 to
    2024-01-05 starts with 2023-12-31, a string before the start date, and
    does not reach 2024-01-05: the dates are built at local midnight and
    written with [toISOString], which gives the date of the UTC calendar. *)
Theorem dates_before_start_east_of_utc :
  calculateRecurringDates istHost dailyFirstWeek
  = ["2023-12-31"; "2024-01-01"; "2024-01-02"; "2024-01-03"; "2024-01-04"]%string
  /\ startDate dailyFirstWeek = Some "2024-01-01"%string
  /\ strLt "2023-12-31" "2024-01-01".
Proof. vm_compute. repeat split. Qed.

(** C4.  From a start on 2024-01-31 the monthly walk visits January,
    March and April 2024: [setMonth] runs before [setDate(1)], so the step
    from January 31 lands on March 2 and February is skipped; February 15
    is in range and not in the result. *)
Theorem monthly_walk_skips_february :
  monthsVisited utcHost fifteenthFromEndOfJanuary = [(2024, 0); (2024, 2); (2024, 3)]
  /\ calculateRecurringDates utcHost fifteenthFromEndOfJanuary
     = ["2024-03-15"; "2024-04-15"]%string.
Proof. vm_compute. split; reflexivity. Qed.

(** C5.  On a host at UTC+05:30 the weekly example of the specification
    gives the days before the Mondays and Wednesdays. *)
Theorem mondaysAndWednesdays_east_of_utc :
  calculateRecurringDates istHost mondaysAndWednesdays
  = ["2023-12-31"; "2024-01-02"; "2024-01-07"; "2024-01-09"]%string.
Proof. vm_compute. reflexivity. Qed.

(** C7.  On a host at UTC+05:30 the yearly example of the specification
    gives February 27 of each year. *)
Theorem anniversaries_east_of_utc :
  calculateRecurringDates istHost anniversaries
  = ["2023-02-27"; "2024-02-27"; "2025-02-27"]%string.
Proof. vm_compute. reflexivity. Qed.


(** ** Monthly recurrence on an ordinal weekday *)




(** With more days to go than the cap allows, the loop leaves after
    2000 rounds with the cursor still before [finalEndDate]: the daily walk
    from 2024-01-01 to 2050-01-01 stops on 2029-06-23. *)
Example dailyForDecades_capped :
  exists w,
    expansion utcHost dailyForDecades = Some w
    /\ iterations w = 2000
    /\ toISODate (current w) = "2029-06-23"%string
    /\ current w <= 2524694399999
    /\ loopEntry utcHost dailyForDecades
       = Some (1704067200000, 2524694399999,
               {| current := 1704067200000; iterations := 0; dates := [] |}).
Proof.
  assert (loopEntry utcHost dailyForDecades
          = Some (1704067200000, 2524694399999,
                  {| current := 1704067200000; iterations := 0; dates := [] |})) as He
    by (vm_compute; reflexivity).
  unfold expansion. rewrite He. eexists. split; [reflexivity|].
  set (w0 := {| current := 1704067200000; iterations := 0; dates := [] |}).
  destruct (while_rounds utcHost dailyForDecades 1704067200000 2524694399999
              (S (Z.to_nat maxIterations)) w0)
    as (n & Hn & _ & Hstop & Hle).
  { unfold maxIterations. cbn [iterations w0]. lia. }
  { rewrite Nat2Z.inj_succ, Z2Nat.id by (unfold maxIterations; lia).
    cbn [iterations w0]. lia. }
  rewrite Hn. apply guard_false_iff in Hstop.
  rewrite iter_body_iterations, daily_rounds in * by reflexivity.
  cbn [iterations current w0] in *.
  change (interval dailyForDecades) with 1 in *.
  unfold maxIterations, msPerDay in *.
  assert (n = 2000%nat) as -> by lia.
  split; [lia|]. split; [vm_compute; reflexivity|]. split; [lia|reflexivity].
Qed.


(** * More of the source *)

(** ** Date strings: writing and reading back *)

Lemma digitVal_digitChar k : 0 <= k <= 9 -> digitVal (digitChar k) = Some k.
Proof.
  intros H. unfold digitVal, digitChar. cbv zeta.
  rewrite N_ascii_embedding by lia.
  replace (Z.of_N (48 + Z.to_N k)) with (48 + k) by lia.
  assert ((48 <=? 48 + k) && (48 + k <=? 57) = true) as -> by lia.
  f_equal. lia.
Qed.

Lemma digitChar_digitVal c k : digitVal c = Some k -> 0 <= k <= 9 /\ c = digitChar k.
Proof.
  unfold digitVal, digitChar. cbv zeta.
  destruct ((48 <=? _) && (_ <=? 57)) eqn:E; [|discriminate].
  intros [= <-]. split; [lia|].
  replace (48 + Z.to_N (Z.of_N (N_of_ascii c) - 48))%N with (N_of_ascii c) by lia.
  now rewrite ascii_N_embedding.
Qed.

Lemma fixedDigits_2 n :
  fixedDigits 2 n
  = String (digitChar (n / 10 mod 10)) (String (digitChar (n mod 10)) EmptyString).
Proof. reflexivity. Qed.

Lemma fixedDigits_4 n :
  fixedDigits 4 n
  = String (digitChar (n / 10 / 10 / 10 mod 10))
      (String (digitChar (n / 10 / 10 mod 10))
         (String (digitChar (n / 10 mod 10))
            (String (digitChar (n mod 10)) EmptyString))).
Proof. reflexivity. Qed.

Lemma string_app_cons c s t : (String c s ++ t)%string = String c (s ++ t)%string.
Proof. reflexivity. Qed.

Lemma string_app_nil t : (EmptyString ++ t)%string = t.
Proof. reflexivity. Qed.

Lemma digits2_digitChar a b :
  0 <= a <= 9 -> 0 <= b <= 9 -> digits2 (digitChar a) (digitChar b) = Some (10 * a + b).
Proof. intros Ha Hb. unfold digits2. now rewrite !digitVal_digitChar. Qed.

(** Reading the string written for a calendar date gives the date back. *)
Lemma parseISODate_isoDateOf y m d :
  0 <= y <= 9999 -> 1 <= m <= 12 -> 1 <= d <= DaysInMonth y (m - 1) ->
  parseISODate (isoDateOf y m d) = Some (y, m, d).
Proof.
  intros Hy Hm Hd.
  pose proof (DaysInMonth_range y (m - 1) ltac:(lia)) as Hdim.
  unfold isoDateOf, isoYear.
  assert ((0 <=? y) && (y <=? 9999) = true) as -> by lia.
  rewrite fixedDigits_4, !fixedDigits_2.
  repeat (rewrite string_app_cons || rewrite string_app_nil).
  unfold parseISODate. cbn [list_ascii_of_string Ascii.eqb Bool.eqb andb].
  unfold digits4.
  rewrite !digits2_digitChar by divlia.
  replace (100 * (10 * (y / 10 / 10 / 10 mod 10) + y / 10 / 10 mod 10)
           + (10 * (y / 10 mod 10) + y mod 10)) with y by divlia.
  replace (10 * (m / 10 mod 10) + m mod 10) with m by divlia.
  replace (10 * (d / 10 mod 10) + d mod 10) with d by divlia.
  assert ((1 <=? m) && (m <=? 12) && (1 <=? d) && (d <=? DaysInMonth y (m - 1)) = true)
    as -> by lia.
  reflexivity.
Qed.

(** A string that reads as a calendar date is the string written for it. *)
Lemma parseISODate_inv s y m d :
  parseISODate s = Some (y, m, d) -> s = isoDateOf y m d.
Proof.
  intros H. pose proof (parseISODate_valid s y m d H) as (Hy & Hm & Hd).
  pose proof (DaysInMonth_range y (m - 1) ltac:(lia)) as Hdim.
  unfold parseISODate in H.
  rewrite <- (string_of_list_ascii_of_string s).
  destruct (list_ascii_of_string s)
    as [|y1 [|y2 [|y3 [|y4 [|s1 [|m1 [|m2 [|s2 [|d1 [|d2 [|? ?]]]]]]]]]]];
    try discriminate.
  destruct (Ascii.eqb s1 "-") eqn:E1; [|discriminate].
  destruct (Ascii.eqb s2 "-") eqn:E2; [|discriminate].
  apply Ascii.eqb_eq in E1, E2. subst s1 s2. cbn [andb] in H.
  unfold digits4, digits2 in H.
  destruct (digitVal y1) as [a1|] eqn:Ey1; [|discriminate].
  destruct (digitVal y2) as [a2|] eqn:Ey2; [|discriminate].
  destruct (digitVal y3) as [a3|] eqn:Ey3; [|discriminate].
  destruct (digitVal y4) as [a4|] eqn:Ey4; [|discriminate].
  destruct (digitVal m1) as [b1|] eqn:Em1; [|discriminate].
  destruct (digitVal m2) as [b2|] eqn:Em2; [|discriminate].
  destruct (digitVal d1) as [c1|] eqn:Ed1; [|discriminate].
  destruct (digitVal d2) as [c2|] eqn:Ed2; [|discriminate].
  destruct (_ && _); [|discriminate].
  injection H as Hy' Hm' Hd'.
  apply digitChar_digitVal in Ey1 as [? ->], Ey2 as [? ->], Ey3 as [? ->], Ey4 as [? ->],
    Em1 as [? ->], Em2 as [? ->], Ed1 as [? ->], Ed2 as [? ->].
  unfold isoDateOf, isoYear.
  assert ((0 <=? y) && (y <=? 9999) = true) as -> by lia.
  rewrite fixedDigits_4, !fixedDigits_2.
  repeat (rewrite string_app_cons || rewrite string_app_nil).
  cbn [string_of_list_ascii].
  repeat f_equal; divlia.
Qed.

Lemma isoDateOfDay_isoDateOf n :
  isoDateOfDay n = isoDateOf (YearFromDay n) (MonthFromDay n + 1) (DateFromDay n).
Proof. reflexivity. Qed.

Lemma isoDateOf_MakeDay y m d :
  1 <= m <= 12 -> 1 <= d <= DaysInMonth y (m - 1) ->
  isoDateOf y m d = isoDateOfDay (MakeDay y (m - 1) d).
Proof.
  intros Hm Hd. rewrite isoDateOfDay_isoDateOf.
  destruct (civil_of_MakeDay y (m - 1) d) as (-> & -> & ->); [lia..|].
  f_equal. lia.
Qed.

(** The ISO date of a day of the years 0000..9999 reads back as the
    year, month and day of the day. *)
Lemma isoDateOfDay_reads_back n :
  0 <= YearFromDay n <= 9999 ->
  parseISODate (isoDateOfDay n)
  = Some (YearFromDay n, MonthFromDay n + 1, DateFromDay n).
Proof.
  intros Hy. rewrite isoDateOfDay_isoDateOf.
  pose proof (MonthFromDay_range n). pose proof (DateFromDay_range n).
  apply parseISODate_isoDateOf; [lia..|].
  now replace (MonthFromDay n + 1 - 1) with (MonthFromDay n) by lia.
Qed.

(** ** Numbers as strings *)

Lemma decimalDigits_small fuel n :
  0 <= n < 10 -> decimalDigits (S fuel) n = String (digitChar n) EmptyString.
Proof. intros H. cbn [decimalDigits]. now assert ((n <? 10) = true) as -> by lia. Qed.

(** A number of [w + 1] digits is written with exactly its digits. *)
Lemma decimalDigits_fixedDigits w : forall fuel n,
  (w < fuel)%nat ->
  10 ^ Z.of_nat w <= n < 10 ^ Z.of_nat (S w) ->
  decimalDigits fuel n = fixedDigits (S w) n.
Proof.
  induction w as [|w IH]; intros [|fuel] n Hf Hn; try lia.
  - change (10 ^ Z.of_nat 0) with 1 in Hn. change (10 ^ Z.of_nat 1) with 10 in Hn.
    rewrite decimalDigits_small by lia. cbn [fixedDigits].
    rewrite string_app_nil. now rewrite Z.mod_small by lia.
  - rewrite (Nat2Z.inj_succ (S w)), Z.pow_succ_r in Hn by lia.
    rewrite Nat2Z.inj_succ, Z.pow_succ_r in Hn by lia.
    assert (0 < 10 ^ Z.of_nat w) as Hpos by (apply Z.pow_pos_nonneg; lia).
    cbn [decimalDigits]. assert ((n <? 10) = false) as -> by lia.
    change (fixedDigits (S (S w)) n)
      with (fixedDigits (S w) (n / 10) ++ String (digitChar (n mod 10)) EmptyString)%string.
    f_equal. apply IH; [lia|].
    rewrite Nat2Z.inj_succ, Z.pow_succ_r by lia.
    generalize dependent (10 ^ Z.of_nat w). intros P HP Hpos. divlia.
Qed.

Lemma log2_fuel n w : 10 ^ Z.of_nat w <= n -> (w < S (Z.to_nat (Z.log2 n)))%nat.
Proof.
  intros H.
  assert (2 ^ Z.of_nat w <= 10 ^ Z.of_nat w) as H2
    by (apply Z.pow_le_mono_l; lia).
  assert (Z.of_nat w <= Z.log2 n) as Hl.
  { rewrite <- (Z.log2_pow2 (Z.of_nat w)) by lia. apply Z.log2_le_mono. lia. }
  lia.
Qed.

Lemma numberToString_fixedDigits w n :
  10 ^ Z.of_nat w <= n < 10 ^ Z.of_nat (S w) -> numberToString n = fixedDigits (S w) n.
Proof.
  intros H. unfold numberToString.
  assert (0 < 10 ^ Z.of_nat w) as Hpos by (apply Z.pow_pos_nonneg; lia).
  assert ((n <? 0) = false) as -> by lia.
  apply decimalDigits_fixedDigits; [now apply log2_fuel|exact H].
Qed.

(** A field of one or two digits, padded to two. *)
Lemma padStart_two_digits n :
  0 <= n <= 99 -> padStart 2 "0" (numberToString n) = fixedDigits 2 n.
Proof.
  intros H. destruct (Z.lt_ge_cases n 10) as [Hs|Hb].
  - unfold numberToString. assert ((n <? 0) = false) as -> by lia.
    rewrite decimalDigits_small by lia. rewrite fixedDigits_2.
    replace (n / 10 mod 10) with 0 by divlia. now rewrite Z.mod_small by lia.
  - rewrite (numberToString_fixedDigits 1) by (cbn; lia).
    unfold padStart. now rewrite fixedDigits_length.
Qed.

(** For a four-digit year the key of a day is its ISO date. *)
Lemma dateStr_isoDateOf year month day :
  1000 <= year <= 9999 -> 0 <= month <= 98 -> 0 <= day <= 99 ->
  dateStr year month day = isoDateOf year (month + 1) day.
Proof.
  intros Hy Hm Hd. unfold dateStr, isoDateOf, isoYear.
  assert ((0 <=? year) && (year <=? 9999) = true) as -> by lia.
  rewrite (numberToString_fixedDigits 3) by (cbn; lia).
  now rewrite !padStart_two_digits by lia.
Qed.

(** ** The preview calendar *)

Section PreviewFacts.

Variable tza : Z.

Lemma getDate_startOfDay s y m d :
  parseISODate s = Some (y, m, d) ->
  getFullYear tza (startOfDay tza (MakeDay y (m - 1) d)) = y
  /\ getMonth tza (startOfDay tza (MakeDay y (m - 1) d)) = m - 1
  /\ getDate tza (startOfDay tza (MakeDay y (m - 1) d)) = d.
Proof.
  intros H. apply parseISODate_valid in H as (_ & Hm & Hd).
  unfold getFullYear, getMonth, getDate. rewrite Day_startOfDay.
  apply civil_of_MakeDay; lia.
Qed.

Lemma recurringDatesInView_elem recurringDates year month day :
  day ∈ recurringDatesInView tza recurringDates year month
  <-> exists s, s ∈ recurringDates /\ parseISODate s = Some (year, month + 1, day).
Proof.
  unfold recurringDatesInView.
  assert (forall (acc : gset Z),
    day ∈ foldl (fun dates dateStr0 =>
                   match newDateFromString tza dateStr0 0 with
                   | Some d =>
                       if (getFullYear tza d =? year) && (getMonth tza d =? month)
                       then {[ getDate tza d ]} ∪ dates else dates
                   | None => dates
                   end) acc recurringDates
    <-> day ∈ acc
        \/ exists s, s ∈ recurringDates /\ parseISODate s = Some (year, month + 1, day))
    as H.
  { induction recurringDates as [|s l IH]; intros acc; cbn [foldl].
    - split; [auto|]. intros [H|(s & Hs & _)]; [exact H|]. now apply elem_of_nil in Hs.
    - rewrite IH. clear IH. unfold newDateFromString.
      destruct (parseISODate s) as [[[y m] d]|] eqn:Hp.
      + destruct (getDate_startOfDay s y m d Hp) as (Hy & Hm & Hd).
        fold (startOfDay tza (MakeDay y (m - 1) d)). rewrite Hy, Hm, Hd.
        destruct ((y =? year) && (m - 1 =? month)) eqn:E.
        * assert (y = year /\ m = month + 1) as [-> ->] by lia.
          rewrite elem_of_union, elem_of_singleton. split.
          -- intros [[->|Ha]|(s' & Hs' & Hp')]; [right|now left|right].
             ++ exists s. split; [apply elem_of_cons; now left|exact Hp].
             ++ exists s'. split; [apply elem_of_cons; now right|exact Hp'].
          -- intros [Ha|(s' & Hs' & Hp')]; [left; now right|].
             apply elem_of_cons in Hs' as [->|Hs'].
             ++ left. left. congruence.
             ++ right. eauto.
        * split.
          -- intros [Ha|(s' & Hs' & Hp')]; [now left|right].
             exists s'. split; [apply elem_of_cons; now right|exact Hp'].
          -- intros [Ha|(s' & Hs' & Hp')]; [now left|].
             apply elem_of_cons in Hs' as [->|Hs']; [|right; eauto].
             rewrite Hp in Hp'. injection Hp' as -> -> ->. lia.
      + split.
        * intros [Ha|(s' & Hs' & Hp')]; [now left|right].
          exists s'. split; [apply elem_of_cons; now right|exact Hp'].
        * intros [Ha|(s' & Hs' & Hp')]; [now left|].
          apply elem_of_cons in Hs' as [->|Hs']; [congruence|right; eauto]. }
  rewrite H. split; [intros [Ha|Hs]; [now apply elem_of_empty in Ha|exact Hs]|auto].
Qed.

(** For a day of a month of a four-digit year, the key of the day is in
    the list exactly when the day is marked. *)
Lemma recurringDatesInView_dateStr recurringDates year month day :
  1000 <= year <= 9999 -> 0 <= month <= 11 -> 1 <= day <= DaysInMonth year month ->
  day ∈ recurringDatesInView tza recurringDates year month
  <-> dateStr year month day ∈ recurringDates.
Proof.
  intros Hy Hm Hd. pose proof (DaysInMonth_range year month Hm) as Hr.
  rewrite recurringDatesInView_elem, dateStr_isoDateOf by lia. split.
  - intros (s & Hs & Hp). apply parseISODate_inv in Hp. now subst s.
  - intros Hin. exists (isoDateOf year (month + 1) day). split; [exact Hin|].
    apply parseISODate_isoDateOf; [lia..|].
    now replace (month + 1 - 1) with month by lia.
Qed.

Lemma grid_lookup (fd dim : Z) (i : nat) (day : Z) :
  0 <= fd ->
  (replicate (Z.to_nat fd) (@None Z) ++ map (fun j => Some (j + 1)) (seqZ 0 dim)) !! i
  = Some (Some day)
  <-> 1 <= day <= dim /\ Z.of_nat i = fd + day - 1.
Proof.
  intros Hfd.
  destruct (decide (i < Z.to_nat fd)%nat) as [Hlt|Hge].
  - rewrite lookup_app_l by (rewrite length_replicate; exact Hlt).
    rewrite lookup_replicate_2 by exact Hlt. split; [discriminate|lia].
  - rewrite lookup_app_r by (rewrite length_replicate; lia).
    rewrite length_replicate, list_lookup_fmap.
    destruct (seqZ 0 dim !! (i - Z.to_nat fd)%nat) as [j|] eqn:Hj; cbn.
    + apply lookup_seqZ in Hj as [-> Hj]. split.
      * intros [= <-]. lia.
      * intros [? ?]. do 2 f_equal. lia.
    + split; [discriminate|]. intros [H1 H2]. exfalso.
      assert (seqZ 0 dim !! (i - Z.to_nat fd)%nat = Some (0 + Z.of_nat (i - Z.to_nat fd)))
        as Hs by (apply lookup_seqZ; lia).
      congruence.
Qed.

Lemma getFirstDayOfMonth_range year month : 0 <= getFirstDayOfMonth tza year month <= 6.
Proof. unfold getFirstDayOfMonth. rewrite getDay_newDate. apply WeekDay_range. Qed.

Lemma calendarDays_lookup year month (i : nat) day :
  calendarDays tza year month !! i = Some (Some day)
  <-> 1 <= day <= getDaysInMonth tza year month
      /\ Z.of_nat i = getFirstDayOfMonth tza year month + day - 1.
Proof. apply grid_lookup, getFirstDayOfMonth_range. Qed.

(** X1. When [recurringDates] holds the ISO dates of days of the years
    0000..9999, as [toISOString] writes them, a day of the month in view
    is marked as recurring exactly when one of those days has the year
    and month in view and that day of the month.  This holds on every
    host, since the strings are read as local dates and compared with
    local fields. *)
Theorem recurringDatesInView_marks days year month dd :
  Forall (fun n => 0 <= YearFromDay n <= 9999) days ->
  dd ∈ recurringDatesInView tza (map isoDateOfDay days) year month
  <-> exists n, n ∈ days
                /\ YearFromDay n = year /\ MonthFromDay n = month /\ DateFromDay n = dd.
Proof.
  intros Hy. rewrite Forall_forall in Hy. rewrite recurringDatesInView_elem. split.
  - intros (s & Hs & Hp).
    apply list_elem_of_In, in_map_iff in Hs as (n & <- & Hn).
    apply list_elem_of_In in Hn.
    rewrite isoDateOfDay_reads_back in Hp by now apply Hy.
    injection Hp as H1 H2 H3. exists n. repeat split; [exact Hn|exact H1|lia|exact H3].
  - intros (n & Hn & H1 & H2 & H3). exists (isoDateOfDay n). split.
    + apply list_elem_of_In, in_map, list_elem_of_In, Hn.
    + rewrite isoDateOfDay_reads_back by now apply Hy. now rewrite H1, H2, H3.
Qed.

(** X2. In a month of a year 1000..9999, a day of the grid is marked as
    recurring exactly when the key [handleDayClick] builds for it is one
    of the recurring dates. *)
Theorem recurringDatesInView_key recurringDates year month day :
  1000 <= year <= 9999 -> 0 <= month <= 11 -> 1 <= day <= DaysInMonth year month ->
  day ∈ recurringDatesInView tza recurringDates year month
  <-> dateStr year month day ∈ recurringDates.
Proof. apply recurringDatesInView_dateStr. Qed.

(** X3. The key of a day of a month of a year 1000..9999, read back as
    [new Date(key + 'T00:00:00')], is the local midnight
    [new Date(year, month, day)] of that day. *)
Theorem dateStr_reads_back year month day :
  1000 <= year <= 9999 -> 0 <= month <= 11 -> 1 <= day <= DaysInMonth year month ->
  newDateFromString tza (dateStr year month day) 0 = Some (newDate tza year month day).
Proof.
  intros Hy Hm Hd. pose proof (DaysInMonth_range year month Hm) as Hr.
  rewrite dateStr_isoDateOf by lia. unfold newDateFromString.
  rewrite parseISODate_isoDateOf;
    [|lia|lia|now replace (month + 1 - 1) with month by lia].
  unfold newDate, MakeFullYear.
  assert ((0 <=? year) && (year <=? 99) = false) as -> by lia.
  now replace (month + 1 - 1) with month by lia.
Qed.

(** X4. The grid of a month (0 = January) holds every day of the month
    once, and each day stands in the column of its weekday: with seven
    cells a row, the cell of [day] has column [getDay] of that date,
    under the header of that weekday. *)
Theorem calendarDays_columns year month :
  0 <= month <= 11 ->
  (forall day, 1 <= day <= DaysInMonth (MakeFullYear year) month ->
     exists i : nat, calendarDays tza year month !! i = Some (Some day))
  /\ (forall (i j : nat) day,
        calendarDays tza year month !! i = Some (Some day) ->
        calendarDays tza year month !! j = Some (Some day) -> i = j)
  /\ (forall (i : nat) day,
        calendarDays tza year month !! i = Some (Some day) ->
        1 <= day <= DaysInMonth (MakeFullYear year) month
        /\ Z.of_nat i mod 7 = getDay tza (newDate tza year month day)).
Proof.
  intros Hm. pose proof (getFirstDayOfMonth_range year month) as Hfd.
  split; [|split].
  - intros dd Hd.
    exists (Z.to_nat (getFirstDayOfMonth tza year month + dd - 1)).
    apply calendarDays_lookup. rewrite getDaysInMonth_DaysInMonth by exact Hm. lia.
  - intros i j dd Hi Hj.
    apply calendarDays_lookup in Hi as [_ Hi]. apply calendarDays_lookup in Hj as [_ Hj].
    lia.
  - intros i dd H. apply calendarDays_lookup in H as [H1 H2].
    rewrite getDaysInMonth_DaysInMonth in H1 by exact Hm. split; [lia|].
    rewrite H2. unfold getFirstDayOfMonth. rewrite !getDay_newDate.
    replace dd with (1 + (dd - 1)) at 2 by lia.
    rewrite MakeDay_date_shift, WeekDay_shift. f_equal. lia.
Qed.

(** The time of day is kept by [setMonth]. *)
Lemma TimeWithinDay_setMonth t m :
  TimeWithinDay (LocalTime tza (setMonth tza t m)) = TimeWithinDay (LocalTime tza t).
Proof. unfold setMonth. cbv zeta. apply TimeWithinDay_LocalTime_UTC, TimeWithinDay_range. Qed.

Lemma time_of_day_and_day t :
  UTC tza (MakeDate (Day (LocalTime tza t)) (TimeWithinDay (LocalTime tza t))) = t.
Proof. unfold UTC, MakeDate, Day, TimeWithinDay, LocalTime, msPerDay. divlia. Qed.

Lemma setMonth_getters t m :
  setMonth tza t m
  = UTC tza (MakeDate (MakeDay (getFullYear tza t) m (getDate tza t))
                      (TimeWithinDay (LocalTime tza t))).
Proof. reflexivity. Qed.

(** The month a [setMonth] aims at, as year and month 0..11. *)
Lemma setMonth_target t k :
  let y := getFullYear tza t in
  let m := getMonth tza t in
  Day (LocalTime tza (setMonth tza t (m + k)))
  = MakeDay (y + (m + k) / 12) ((m + k) mod 12) (getDate tza t).
Proof. cbv zeta. now rewrite Day_setMonth, MakeDay_normalize. Qed.

(** X5. When the date in view is on day 1..28 of its month,
    [changeMonth offset] moves the view by exactly [offset] months and
    keeps the day of the month, and [changeMonth (- offset)] then
    restores the state. *)
Theorem changeMonth_moves offset p :
  getDate tza (currentDate p) <= 28 ->
  let p' := changeMonth tza offset p in
  getDate tza (currentDate p') = getDate tza (currentDate p)
  /\ 12 * getFullYear tza (currentDate p') + getMonth tza (currentDate p')
     = 12 * getFullYear tza (currentDate p) + getMonth tza (currentDate p) + offset
  /\ changeMonth tza (- offset) p' = p.
Proof.
  intros Hd p'. subst p'. destruct p as [de em me t sd it]. unfold changeMonth.
  cbn [currentDate draftEvents eventMode masterEvent selectedDate individualTime] in *.
  set (y := getFullYear tza t). set (m := getMonth tza t). set (d := getDate tza t).
  set (t1 := setMonth tza t (m + offset)).
  pose proof (DateFromDay_range (Day (LocalTime tza t))) as Hr. fold (getDate tza t) in Hr.
  pose proof (MonthFromDay_range (Day (LocalTime tza t))) as Hmr. fold (getMonth tza t) in Hmr.
  fold d in Hd, Hr. fold m in Hmr.
  assert (0 <= (m + offset) mod 12 <= 11) as Hmk by divlia.
  pose proof (DaysInMonth_range (y + (m + offset) / 12) ((m + offset) mod 12) Hmk) as Hdim.
  destruct (civil_of_MakeDay (y + (m + offset) / 12) ((m + offset) mod 12) d)
    as (Hy1 & Hm1 & Hd1); [lia..|].
  assert (Day (LocalTime tza t1) = MakeDay (y + (m + offset) / 12) ((m + offset) mod 12) d)
    as HD by apply setMonth_target.
  assert (getFullYear tza t1 = y + (m + offset) / 12) as Hyt
    by (unfold getFullYear; now rewrite HD).
  assert (getMonth tza t1 = (m + offset) mod 12) as Hmt
    by (unfold getMonth; now rewrite HD).
  assert (getDate tza t1 = d) as Hdt by (unfold getDate; now rewrite HD).
  split; [exact Hdt|]. split; [rewrite Hyt, Hmt; divlia|].
  assert (setMonth tza t1 (getMonth tza t1 + - offset) = t) as ->; [|reflexivity].
  rewrite setMonth_getters, Hyt, Hmt, Hdt. subst t1. rewrite TimeWithinDay_setMonth.
  rewrite MakeDay_normalize.
  replace (y + (m + offset) / 12 + ((m + offset) mod 12 + - offset) / 12) with y by divlia.
  replace (((m + offset) mod 12 + - offset) mod 12) with m by divlia.
  subst y m d. unfold getFullYear, getMonth, getDate.
  rewrite MakeDay_of_day. apply time_of_day_and_day.
Qed.

(** X6. When the date in view is on a day the month aimed at does not
    have (day 29..31), [changeMonth offset] shows the month after it: the
    date overflows by the missing days. *)
Theorem changeMonth_overflow offset p :
  let y := getFullYear tza (currentDate p) in
  let m := getMonth tza (currentDate p) in
  let d := getDate tza (currentDate p) in
  let daysInTarget := DaysInMonth (y + (m + offset) / 12) ((m + offset) mod 12) in
  daysInTarget < d ->
  let p' := changeMonth tza offset p in
  getDate tza (currentDate p') = d - daysInTarget
  /\ 12 * getFullYear tza (currentDate p') + getMonth tza (currentDate p')
     = 12 * y + m + offset + 1.
Proof.
  intros y m d dim Hd p'. subst p'. unfold changeMonth. cbn [currentDate].
  set (t := currentDate p) in *.
  assert (1 <= d <= 31 /\ 0 <= m <= 11) as [Hr Hmr].
  { pose proof (DateFromDay_range (Day (LocalTime tza t))) as Hr.
    pose proof (MonthFromDay_range (Day (LocalTime tza t))) as Hmr.
    pose proof (DaysInMonth_range (YearFromDay (Day (LocalTime tza t))) _ Hmr) as Hsrc.
    subst d m. unfold getDate, getMonth. lia. }
  set (Y := y + (m + offset) / 12) in *. set (M := (m + offset) mod 12) in *.
  assert (0 <= M <= 11) as HM by (subst M; divlia).
  pose proof (DaysInMonth_range Y M HM) as Hdim. fold dim in Hdim.
  assert (0 <= (M + 1) mod 12 <= 11) as HM1 by divlia.
  pose proof (DaysInMonth_range (Y + (M + 1) / 12) ((M + 1) mod 12) HM1) as Hnext.
  assert (Day (LocalTime tza (setMonth tza t (m + offset)))
          = MakeDay (Y + (M + 1) / 12) ((M + 1) mod 12) (d - dim)) as HD.
  { rewrite setMonth_target. fold y m d Y M.
    rewrite <- MakeDay_normalize.
    replace d with (1 + (d - 1)) at 1 by lia.
    replace (d - dim) with (1 + (d - dim - 1)) by lia.
    rewrite !MakeDay_date_shift. subst dim. unfold DaysInMonth. lia. }
  destruct (civil_of_MakeDay (Y + (M + 1) / 12) ((M + 1) mod 12) (d - dim))
    as (Hy1 & Hm1 & Hd1); [lia..|].
  fold m. unfold getDate at 1, getFullYear at 1, getMonth at 1. rewrite HD, Hy1, Hm1, Hd1.
  split; [reflexivity|]. subst Y M. divlia.
Qed.

End PreviewFacts.

Lemma recurringDatesInView_marks_witness :
  3 ∈ recurringDatesInView istHost (map isoDateOfDay [19723; 19756]) 2024 1
  <-> exists n, n ∈ [19723; 19756]
                /\ YearFromDay n = 2024 /\ MonthFromDay n = 1 /\ DateFromDay n = 3.
Proof.
  apply recurringDatesInView_marks.
  repeat constructor; vm_compute; discriminate.
Defined.

Lemma recurringDatesInView_key_witness :
  3 ∈ recurringDatesInView utcHost ["2024-01-01"; "2024-02-03"]%string 2024 1
  <-> dateStr 2024 1 3 ∈ ["2024-01-01"; "2024-02-03"]%string.
Proof.
  apply recurringDatesInView_key; [lia|lia|].
  split; [lia|]. vm_compute. discriminate.
Defined.

Lemma dateStr_reads_back_witness :
  newDateFromString utcHost (dateStr 2024 1 29) 0 = Some (newDate utcHost 2024 1 29).
Proof.
  apply dateStr_reads_back; [lia|lia|].
  split; [lia|]. vm_compute. discriminate.
Defined.

Lemma calendarDays_columns_witness :
  (forall day, 1 <= day <= DaysInMonth (MakeFullYear 2024) 1 ->
     exists i : nat, calendarDays utcHost 2024 1 !! i = Some (Some day))
  /\ (forall (i j : nat) day,
        calendarDays utcHost 2024 1 !! i = Some (Some day) ->
        calendarDays utcHost 2024 1 !! j = Some (Some day) -> i = j)
  /\ (forall (i : nat) day,
        calendarDays utcHost 2024 1 !! i = Some (Some day) ->
        1 <= day <= DaysInMonth (MakeFullYear 2024) 1
        /\ Z.of_nat i mod 7 = getDay utcHost (newDate utcHost 2024 1 day)).
Proof. apply calendarDays_columns. lia. Defined.

Lemma changeMonth_moves_witness :
  let p := initialPicker ∅ 1705312800000 in
  let p' := changeMonth utcHost 1 p in
  getDate utcHost (currentDate p') = getDate utcHost (currentDate p)
  /\ 12 * getFullYear utcHost (currentDate p') + getMonth utcHost (currentDate p')
     = 12 * getFullYear utcHost (currentDate p) + getMonth utcHost (currentDate p) + 1
  /\ changeMonth utcHost (- (1)) p' = p.
Proof.
  apply (changeMonth_moves utcHost 1 (initialPicker ∅ 1705312800000)).
  vm_compute. discriminate.
Defined.

Lemma changeMonth_overflow_witness :
  let p' := changeMonth utcHost 1 (initialPicker ∅ 1706695200000) in
  getDate utcHost (currentDate p') = 31 - 29
  /\ 12 * getFullYear utcHost (currentDate p') + getMonth utcHost (currentDate p')
     = 12 * 2024 + 0 + 1 + 1.
Proof.
  apply (changeMonth_overflow utcHost 1 (initialPicker ∅ 1706695200000)).
  vm_compute. reflexivity.
Defined.

(** ** Editing the draft in the preview *)

Lemma truthy_app_dash a b : truthy (Some (a ++ "-" ++ b)%string) = true.
Proof. destruct a; [rewrite string_app_nil|]; rewrite string_app_cons; reflexivity. Qed.

Lemma dateStr_truthy year month dd : truthy (Some (dateStr year month dd)) = true.
Proof. unfold dateStr. apply truthy_app_dash. Qed.

Lemma truthy_nonempty s : s <> EmptyString -> truthy (Some s) = true.
Proof. destruct s; [congruence|reflexivity]. Qed.

Lemma timeOrDefault_time a : time a <> EmptyString -> timeOrDefault (Some a) = time a.
Proof. intros H. unfold timeOrDefault. now rewrite truthy_nonempty. Qed.

(** X7. Changing the time in the preview changes the assignment of the
    selected date when there is one, and nothing else: it never creates or
    removes an assignment and never changes the type of one. *)
Theorem handleIndividualTimeChange_draft time0 p key :
  typeId <$> (draftEvents (handleIndividualTimeChange time0 p) !! key)
  = typeId <$> (draftEvents p !! key)
  /\ (selectedDate p <> Some key ->
      draftEvents (handleIndividualTimeChange time0 p) !! key = draftEvents p !! key)
  /\ (selectedDate p = Some key -> key <> EmptyString ->
      time <$> (draftEvents (handleIndividualTimeChange time0 p) !! key)
      = (fun _ => time0) <$> (draftEvents p !! key)).
Proof.
  unfold handleIndividualTimeChange. cbn [draftEvents].
  destruct (selectedDate p) as [sel|] eqn:Hsel.
  - destruct (truthy (Some sel)) eqn:Ht.
    + destruct (draftEvents p !! sel) as [a|] eqn:Ha.
      * destruct (decide (sel = key)) as [->|Hne].
        -- rewrite lookup_insert_eq, Ha. cbn. repeat split; congruence.
        -- rewrite lookup_insert_ne by exact Hne. repeat split; congruence.
      * repeat split. intros [= ->] _. now rewrite Ha.
    + repeat split. intros [= ->] Hk. now rewrite truthy_nonempty in Ht.
  - repeat split. discriminate.
Qed.

(** X8. In individual mode, clicking a day and then choosing an event
    type assigns that type to the key of the day and clears the selection.
    The time is the one the day had when it had an assignment with a
    time, otherwise 09:00; no other date changes. *)
Theorem assign_after_click tza dd eventTypeId p :
  eventMode p = individual ->
  let key := dateStr (getFullYear tza (currentDate p)) (getMonth tza (currentDate p)) dd in
  let p' := handleAssignEvent eventTypeId (handleDayClick tza dd p) in
  draftEvents p'
  = <[key := {| typeId := eventTypeId; time := timeOrDefault (draftEvents p !! key) |}]>
      (draftEvents p)
  /\ selectedDate p' = None
  /\ (draftEvents p !! key = None ->
      draftEvents p' !! key = Some {| typeId := eventTypeId; time := "09:00" |})
  /\ (forall a, draftEvents p !! key = Some a -> time a <> EmptyString ->
      draftEvents p' !! key = Some {| typeId := eventTypeId; time := time a |}).
Proof.
  intros Hm key p'. subst p'. unfold handleDayClick. rewrite Hm. fold key.
  unfold handleAssignEvent. cbn [selectedDate draftEvents individualTime].
  subst key. rewrite dateStr_truthy. cbn [selectedDate draftEvents].
  split; [reflexivity|]. split; [reflexivity|]. split.
  - intros ->. now rewrite lookup_insert_eq.
  - intros a -> Ht. now rewrite lookup_insert_eq, timeOrDefault_time.
Qed.

(** X9. In individual mode, clicking the day again and removing deletes
    what click and assign had stored: the draft is the one from before
    without the key of the day, and the very same draft when the day had
    no assignment. *)
Theorem remove_after_assign tza dd eventTypeId p :
  eventMode p = individual ->
  let key := dateStr (getFullYear tza (currentDate p)) (getMonth tza (currentDate p)) dd in
  let p1 := handleAssignEvent eventTypeId (handleDayClick tza dd p) in
  let p2 := handleRemoveEvent (handleDayClick tza dd p1) in
  draftEvents p2 = delete key (draftEvents p)
  /\ selectedDate p2 = None
  /\ (draftEvents p !! key = None -> draftEvents p2 = draftEvents p).
Proof.
  intros Hm key p1 p2.
  assert (p1 = {| draftEvents :=
                    <[key := {| typeId := eventTypeId;
                                time := timeOrDefault (draftEvents p !! key) |}]>
                      (draftEvents p);
                  eventMode := individual; masterEvent := masterEvent p;
                  currentDate := currentDate p; selectedDate := None;
                  individualTime := timeOrDefault (draftEvents p !! key) |}) as Hp1.
  { subst p1. unfold handleDayClick. rewrite Hm. fold key.
    unfold handleAssignEvent. cbn [selectedDate draftEvents individualTime].
    subst key. rewrite dateStr_truthy. reflexivity. }
  subst p2. rewrite Hp1. unfold handleDayClick. cbn [eventMode currentDate draftEvents].
  fold key. unfold handleRemoveEvent. cbn [selectedDate draftEvents].
  subst key. rewrite dateStr_truthy. cbn [selectedDate draftEvents].
  rewrite delete_insert_eq. split; [reflexivity|]. split; [reflexivity|].
  apply delete_id.
Qed.

(** ** Saving from the picker *)

Lemma finalEvents_fold (recurringDates : list string) (a : EventAssignment) date :
  forall acc : gmap string EventAssignment,
  foldl (fun evs d => <[d := a]> evs) acc recurringDates !! date
  = if bool_decide (date ∈ recurringDates) then Some a else acc !! date.
Proof.
  induction recurringDates as [|d l IH]; intros acc; cbn [foldl].
  - now rewrite bool_decide_eq_false_2 by apply not_elem_of_nil.
  - rewrite IH. destruct (decide (date ∈ l)) as [Hin|Hnin].
    + rewrite !bool_decide_eq_true_2; [reflexivity| |exact Hin].
      apply elem_of_cons. now right.
    + rewrite (bool_decide_eq_false_2 _ Hnin).
      destruct (decide (d = date)) as [->|Hne].
      * rewrite lookup_insert_eq, bool_decide_eq_true_2; [reflexivity|].
        apply elem_of_cons. now left.
      * rewrite lookup_insert_ne by exact Hne.
        rewrite bool_decide_eq_false_2; [reflexivity|].
        rewrite elem_of_cons. intros [->|?]; congruence.
Qed.

Lemma finalEvents_all recurringDates p t date :
  eventMode p = all -> masterTypeId (masterEvent p) = Some t -> t <> EmptyString ->
  RecurringDatePicker.finalEvents recurringDates p !! date
  = if bool_decide (date ∈ recurringDates)
    then Some {| typeId := t; time := masterTime (masterEvent p) |} else None.
Proof.
  intros Hm Ht Hne. unfold RecurringDatePicker.finalEvents.
  rewrite Hm, Ht, truthy_nonempty by exact Hne. now rewrite finalEvents_fold.
Qed.

Lemma finalEvents_all_none recurringDates p :
  eventMode p = all ->
  truthy (masterTypeId (masterEvent p)) = false ->
  RecurringDatePicker.finalEvents recurringDates p = ∅.
Proof.
  intros Hm Ht. unfold RecurringDatePicker.finalEvents. rewrite Hm.
  destruct (masterTypeId (masterEvent p)) as [t|]; [|reflexivity]. now rewrite Ht.
Qed.

(** X10. Saving from the picker in the mode [all]: with an event type
    chosen, every date of [calculateRecurringDates settings] gets the
    master assignment, replacing what that date had, and every other date
    keeps its assignment; with no event type chosen no assignment changes. *)
Theorem save_assigns_all tza settings p types st :
  eventMode p = all ->
  let st' := handleSave (RecurringDatePicker.handleSave tza settings p types) st in
  (forall t, masterTypeId (masterEvent p) = Some t -> t <> EmptyString ->
     forall date,
       events st' !! date
       = if bool_decide (date ∈ calculateRecurringDates tza settings)
         then Some {| typeId := t; time := masterTime (masterEvent p) |}
         else events st !! date)
  /\ (truthy (masterTypeId (masterEvent p)) = false -> events st' = events st).
Proof.
  intros Hm st'. subst st'. unfold handleSave, RecurringDatePicker.handleSave.
  cbn [events sd_events]. split.
  - intros t Ht Hne date. rewrite spread_lookup, (finalEvents_all _ p t) by assumption.
    now destruct (bool_decide _).
  - intros Ht. rewrite finalEvents_all_none by assumption.
    unfold spread. apply (left_id ∅ (∪)).
Qed.

(** X11. What the preview shows is what is saved: for a day of the month
    in view, in a year 1000..9999, the assignment computed for the cell of
    the day is the one [handleSave] of the picker stores under the key of
    the day, in either mode. *)
Theorem preview_shows_what_is_saved tza recurringDates p year month dd :
  1000 <= year <= 9999 -> 0 <= month <= 11 -> 1 <= dd <= DaysInMonth year month ->
  cellAssignment tza recurringDates p year month (Some dd)
  = RecurringDatePicker.finalEvents recurringDates p !! dateStr year month dd.
Proof.
  intros Hy Hmo Hd. unfold cellAssignment, truthyCell.
  assert ((dd =? 0) = false) as -> by lia. cbn [negb].
  destruct (eventMode p) eqn:Hm.
  - destruct (masterTypeId (masterEvent p)) as [t|] eqn:Ht.
    + destruct (decide (t = EmptyString)) as [->|Hne].
      * rewrite andb_false_r, finalEvents_all_none; [reflexivity|exact Hm|now rewrite Ht].
      * rewrite (finalEvents_all _ p t) by assumption.
        rewrite truthy_nonempty, andb_true_r by exact Hne.
        rewrite (bool_decide_ext _ _ (recurringDatesInView_dateStr tza recurringDates
                                        year month dd Hy Hmo Hd)).
        reflexivity.
    + rewrite finalEvents_all_none; [reflexivity|exact Hm|now rewrite Ht].
  - unfold RecurringDatePicker.finalEvents. now rewrite Hm.
Qed.

(** X12. Removing an event in the picker does not remove it from the
    schedule: when the selected date has a committed assignment, saving
    after [handleRemoveEvent] leaves that assignment in [events], since
    the saved events are merged over the committed ones. *)
Theorem removed_in_picker_stays_committed tza settings p types st key a :
  eventMode p = individual ->
  selectedDate p = Some key -> key <> EmptyString ->
  events st !! key = Some a ->
  events (handleSave (RecurringDatePicker.handleSave tza settings
                        (handleRemoveEvent p) types) st) !! key
  = Some a.
Proof.
  intros Hm Hsel Hne Ha. unfold handleSave, RecurringDatePicker.handleSave.
  cbn [events sd_events]. rewrite spread_lookup.
  unfold RecurringDatePicker.finalEvents, handleRemoveEvent.
  rewrite Hsel, truthy_nonempty by exact Hne. cbn [eventMode draftEvents].
  now rewrite Hm, lookup_delete_eq.
Qed.

Lemma assign_after_click_witness :
  let p := initialPicker ∅ 1705312800000 in
  let p' := handleAssignEvent "evt_1" (handleDayClick utcHost 15 p) in
  draftEvents p' !! "2024-01-15"%string
  = Some {| typeId := "evt_1"; time := "09:00" |}.
Proof.
  intros p p'.
  exact (proj1 (proj2 (proj2 (assign_after_click utcHost 15 "evt_1" p eq_refl))) eq_refl).
Defined.

Lemma remove_after_assign_witness :
  let p := initialPicker ∅ 1705312800000 in
  let p1 := handleAssignEvent "evt_1" (handleDayClick utcHost 15 p) in
  draftEvents (handleRemoveEvent (handleDayClick utcHost 15 p1)) = draftEvents p.
Proof.
  intros p p1.
  exact (proj2 (proj2 (remove_after_assign utcHost 15 "evt_1" p eq_refl)) eq_refl).
Defined.

Lemma save_assigns_all_witness :
  let p := pickerWithMaster 1705312800000 in
  let st' := handleSave (RecurringDatePicker.handleSave utcHost dailyFirstWeek p []) stateTwoTypes in
  (forall t, masterTypeId (masterEvent p) = Some t -> t <> EmptyString ->
     forall date,
       events st' !! date
       = if bool_decide (date ∈ calculateRecurringDates utcHost dailyFirstWeek)
         then Some {| typeId := t; time := masterTime (masterEvent p) |}
         else events stateTwoTypes !! date)
  /\ (truthy (masterTypeId (masterEvent p)) = false -> events st' = events stateTwoTypes).
Proof.
  apply (save_assigns_all utcHost dailyFirstWeek (pickerWithMaster 1705312800000) []
           stateTwoTypes).
  reflexivity.
Defined.

Lemma preview_shows_what_is_saved_witness :
  cellAssignment utcHost ["2024-01-03"]%string (pickerWithMaster 1705312800000) 2024 0 (Some 3)
  = RecurringDatePicker.finalEvents ["2024-01-03"]%string (pickerWithMaster 1705312800000)
      !! dateStr 2024 0 3.
Proof.
  apply preview_shows_what_is_saved; [lia|lia|].
  split; [lia|]. vm_compute. discriminate.
Defined.

Lemma removed_in_picker_stays_committed_witness :
  events (handleSave (RecurringDatePicker.handleSave utcHost dailyFirstWeek
                        (handleRemoveEvent (pickerEditing stateTwoTypes 1705312800000
                                              "2024-01-02"))
                        (customEventTypes stateTwoTypes))
                     stateTwoTypes) !! "2024-01-02"%string
  = Some {| typeId := "evt_2"; time := "10:30" |}.
Proof.
  apply removed_in_picker_stays_committed; [reflexivity|reflexivity|discriminate|].
  vm_compute. reflexivity.
Defined.

(** ** The committed state *)

Lemma events_without_saved st :
  reachable st -> savedData st = None -> events st = ∅.
Proof.
  induction 1 as [|data st _ _|i st _ IH|date st _ IH|newId t c st _ IH]; simpl.
  - reflexivity.
  - discriminate.
  - destruct (savedData st); [discriminate|]. intros _.
    rewrite IH by reflexivity. apply map_filter_empty.
  - destruct (savedData st); [discriminate|]. intros _.
    rewrite IH by reflexivity. apply delete_empty.
  - exact IH.
Qed.

(** X13. In every state the application can reach, the [events] of the
    saved data are the [events] state, and there are no events while
    nothing was saved. *)
Theorem events_agree_with_saved st :
  reachable st ->
  match savedData st with
  | Some sd => sd_events sd = events st
  | None => events st = ∅
  end.
Proof.
  intros Hr. destruct (savedData st) as [sd|] eqn:Hs.
  - now apply reachable_saved_events.
  - now apply events_without_saved.
Qed.

Lemma events_agree_with_saved_witness :
  match savedData (handleDeleteEvent "2024-01-01" stateTwoTypes) with
  | Some sd => sd_events sd = events (handleDeleteEvent "2024-01-01" stateTwoTypes)
  | None => events (handleDeleteEvent "2024-01-01" stateTwoTypes) = ∅
  end.
Proof.
  apply events_agree_with_saved.
  apply reach_handleDeleteEvent, reach_handleSave, reach_initial.
Defined.

Lemma uniqueConcat_fold l : forall acc,
  NoDup acc ->
  NoDup (foldl (fun s x => Set_add x s) acc l)
  /\ forall y, y ∈ foldl (fun s x => Set_add x s) acc l <-> y ∈ acc \/ y ∈ l.
Proof.
  induction l as [|x l IH]; intros acc Hn; cbn [foldl].
  - split; [exact Hn|]. intros y. rewrite elem_of_nil. tauto.
  - destruct (IH (Set_add x acc) (Set_add_NoDup x acc Hn)) as [H1 H2].
    split; [exact H1|]. intros y. rewrite H2, elem_of_Set_add, elem_of_cons. tauto.
Qed.

Lemma foldl_Set_add_prefix l : forall acc,
  exists rest, foldl (fun s x => Set_add x s) acc l = acc ++ rest.
Proof.
  induction l as [|x l IH]; intros acc; cbn [foldl].
  - exists []. now rewrite app_nil_r.
  - destruct (IH (Set_add x acc)) as [rest ->]. unfold Set_add.
    case_bool_decide; [now exists rest|].
    exists (x :: rest). now rewrite <- app_assoc.
Qed.

Lemma foldl_Set_add_NoDup l :
  NoDup l -> foldl (fun s x => Set_add x s) [] l = l.
Proof.
  assert (forall acc, NoDup (acc ++ l) ->
                      foldl (fun s x => Set_add x s) acc l = acc ++ l) as H.
  { induction l as [|x l IH]; intros acc Hn; cbn [foldl].
    - now rewrite app_nil_r.
    - unfold Set_add. apply NoDup_app in Hn as Hn'. destruct Hn' as (_ & Hd & _).
      rewrite bool_decide_eq_false_2.
      + rewrite IH; rewrite <- app_assoc; [reflexivity|exact Hn].
      + intros Hin. apply (Hd x Hin). apply elem_of_cons. now left. }
  intros Hn. now apply (H []).
Qed.

(** X14. [handleSave] accumulates the recurring dates: the saved list has
    no duplicates and holds exactly the dates saved before and those of
    the new data; when the earlier list had no duplicates it is kept as
    it was, and the new dates follow it. *)
Theorem handleSave_accumulates_dates (data : SavedData) (st : AppState) :
  let previous := match savedData st with
                  | Some sd => sd_recurringDates sd
                  | None => []
                  end in
  exists sd',
    savedData (handleSave data st) = Some sd'
    /\ NoDup (sd_recurringDates sd')
    /\ (forall s, s ∈ sd_recurringDates sd'
                  <-> s ∈ previous \/ s ∈ sd_recurringDates data)
    /\ (NoDup previous -> exists rest, sd_recurringDates sd' = previous ++ rest).
Proof.
  intros previous. eexists. split; [reflexivity|]. cbn [sd_recurringDates].
  fold previous. unfold uniqueConcat.
  destruct (uniqueConcat_fold (previous ++ sd_recurringDates data) [] (NoDup_nil_2))
    as [H1 H2].
  split; [exact H1|]. split.
  - intros s. rewrite H2, elem_of_nil, elem_of_app. tauto.
  - intros Hn. rewrite foldl_app, (foldl_Set_add_NoDup previous Hn).
    apply foldl_Set_add_prefix.
Qed.

Lemma withoutAssignmentsOf_comm i j (evs : gmap string EventAssignment) :
  withoutAssignmentsOf i (withoutAssignmentsOf j evs)
  = withoutAssignmentsOf j (withoutAssignmentsOf i evs).
Proof.
  apply map_eq. intros k. apply option_eq. intros a.
  rewrite !withoutAssignmentsOf_lookup. tauto.
Qed.

Lemma withoutAssignmentsOf_idemp i (evs : gmap string EventAssignment) :
  withoutAssignmentsOf i (withoutAssignmentsOf i evs) = withoutAssignmentsOf i evs.
Proof.
  apply map_eq. intros k. apply option_eq. intros a.
  rewrite !withoutAssignmentsOf_lookup. tauto.
Qed.

Lemma withoutType_comm i j types :
  withoutType i (withoutType j types) = withoutType j (withoutType i types).
Proof.
  unfold withoutType. induction types as [|et l IH]; [reflexivity|].
  cbn [List.filter].
  destruct (negb (String.eqb (id et) j)) eqn:Ej, (negb (String.eqb (id et) i)) eqn:Ei;
    cbn [List.filter]; rewrite ?Ej, ?Ei, IH; reflexivity.
Qed.

Lemma withoutType_idemp i types :
  withoutType i (withoutType i types) = withoutType i types.
Proof.
  unfold withoutType. induction types as [|et l IH]; [reflexivity|].
  cbn [List.filter].
  destruct (negb (String.eqb (id et) i)) eqn:Ei; cbn [List.filter]; rewrite ?Ei, IH;
    reflexivity.
Qed.

(** X15. Deleting an event type twice is deleting it once, and two event
    types can be deleted in either order: the resulting states are equal. *)
Theorem deleteEventType_idempotent_commutes (i j : string) (st : AppState) :
  deleteEventType i (deleteEventType i st) = deleteEventType i st
  /\ deleteEventType i (deleteEventType j st) = deleteEventType j (deleteEventType i st).
Proof.
  destruct st as [[sd|] evs types]; unfold deleteEventType;
    cbn [savedData events customEventTypes sd_settings sd_recurringDates sd_events
         sd_customEventTypes];
    rewrite !withoutAssignmentsOf_idemp, !withoutType_idemp,
      (withoutAssignmentsOf_comm i j), !(withoutType_comm i j); split; reflexivity.
Qed.

(** ** Event types from the suggestions *)

Section SuggestionFacts.

Variable toLowerCase : string -> string.

(** X16. A suggestion is added once: after [handleAddSuggestion] for a
    title, another call for a title that is the same up to case adds
    nothing, whatever its colour and the id it would get. *)
Theorem handleAddSuggestion_once newId1 newId2 title1 title2 color1 color2 st :
  toLowerCase title2 = toLowerCase title1 ->
  handleAddSuggestion toLowerCase newId2 title2 color2
    (handleAddSuggestion toLowerCase newId1 title1 color1 st)
  = handleAddSuggestion toLowerCase newId1 title1 color1 st.
Proof.
  intros Ht. unfold handleAddSuggestion at 2 3.
  destruct (existsb _ (customEventTypes st)) eqn:E.
  - unfold handleAddSuggestion. rewrite Ht. now rewrite E.
  - unfold handleAddSuggestion, addEventType. cbn [customEventTypes].
    rewrite existsb_app. cbn [existsb title]. rewrite Ht, String.eqb_refl.
    now rewrite orb_true_r.
Qed.

End SuggestionFacts.

Lemma handleAddSuggestion_once_witness :
  handleAddSuggestion (fun s => s) "evt_4" "Meeting" "bg-red-500"
    (handleAddSuggestion (fun s => s) "evt_3" "Meeting" "bg-blue-500" initialState)
  = handleAddSuggestion (fun s => s) "evt_3" "Meeting" "bg-blue-500" initialState.
Proof. apply handleAddSuggestion_once. reflexivity. Defined.

(** ** The reminders *)

Lemma checkReminders_fires tza now r a :
  activeReminder r = None ->
  activeReminder (checkReminders tza now r) = Some a ->
  exists sd ev,
    savedData (app r) = Some sd
    /\ sd_events sd !! toISODate now = Some ev
    /\ time ev = currentTimeStr tza now
    /\ (reminderId (toISODate now) (Some ev) ∉ triggeredReminders r)
    /\ List.find (fun et => String.eqb (id et) (typeId ev)) (sd_customEventTypes sd)
       = Some (eventType a)
    /\ reminderTime a = time ev
    /\ reminderDate a = toISODate now
    /\ triggeredReminders (checkReminders tza now r)
       = {[ reminderId (toISODate now) (Some ev) ]} ∪ triggeredReminders r.
Proof.
  intros Hnone. unfold checkReminders. rewrite Hnone.
  destruct (savedData (app r)) as [sd|]; [|now rewrite Hnone].
  destruct (sd_events sd !! toISODate now) as [ev|] eqn:Hev; [|now rewrite Hnone].
  destruct (String.eqb (time ev) (currentTimeStr tza now)) eqn:Ht;
    [|cbn [andb]; now rewrite Hnone].
  cbn [andb]. case_bool_decide as Hin; cbn [negb]; [now rewrite Hnone|].
  destruct (List.find _ (sd_customEventTypes sd)) as [et|] eqn:Hf; [|now rewrite Hnone].
  cbn [activeReminder triggeredReminders]. intros [= <-]. exists sd, ev.
  apply String.eqb_eq in Ht. repeat split; try assumption; reflexivity.
Qed.

(** X17. A reminder is raised only when it is due: the saved events hold,
    under the date of the UTC calendar at [now], an assignment whose time
    is the local time of day [HH:MM] at [now], that was not triggered
    before and whose type is one of the saved event types; the reminder
    shows that type, time and date. *)
Theorem reminder_only_when_due tza now r a :
  activeReminder r = None ->
  activeReminder (checkReminders tza now r) = Some a ->
  exists sd ev,
    savedData (app r) = Some sd
    /\ sd_events sd !! toISODate now = Some ev
    /\ time ev = currentTimeStr tza now
    /\ (reminderId (toISODate now) (Some ev) ∉ triggeredReminders r)
    /\ eventType a ∈ sd_customEventTypes sd
    /\ id (eventType a) = typeId ev
    /\ reminderTime a = time ev
    /\ reminderDate a = toISODate now.
Proof.
  intros Hnone Hsome.
  destruct (checkReminders_fires tza now r a Hnone Hsome)
    as (sd & ev & Hsd & Hev & Ht & Hin & Hf & Hrt & Hrd & _).
  exists sd, ev. apply find_some in Hf as [Hf1 Hf2].
  apply String.eqb_eq in Hf2. apply list_elem_of_In in Hf1.
  repeat split; assumption.
Qed.

Lemma checkReminders_quiet tza now r :
  activeReminder r = None ->
  activeReminder (checkReminders tza now r) = None ->
  checkReminders tza now r = r.
Proof.
  intros Hnone. unfold checkReminders. rewrite Hnone.
  destruct (savedData (app r)) as [sd|]; [|reflexivity].
  destruct (sd_events sd !! toISODate now) as [ev|]; [|reflexivity].
  destruct (_ && _); [|reflexivity].
  destruct (List.find _ _); [discriminate|reflexivity].
Qed.

Lemma checkReminders_triggered tza now r :
  activeReminder r = None ->
  match savedData (app r) with
  | Some sd =>
      match sd_events sd !! toISODate now with
      | Some ev =>
          time ev = currentTimeStr tza now ->
          reminderId (toISODate now) (Some ev) ∈ triggeredReminders r ->
          checkReminders tza now r = r
      | None => checkReminders tza now r = r
      end
  | None => checkReminders tza now r = r
  end.
Proof.
  intros Hnone. unfold checkReminders. rewrite Hnone.
  destruct (savedData (app r)) as [sd|]; [|reflexivity].
  destruct (sd_events sd !! toISODate now) as [ev|]; [|reflexivity].
  intros Ht Hin. rewrite (bool_decide_eq_true_2 _ Hin). cbn [negb].
  now rewrite andb_false_r.
Qed.

(** X18. A reminder is raised at most once for a date and time: after a
    check at [now] and the dismissal of what it raised, a check at any
    [now'] with the same UTC date and the same local [HH:MM] raises
    nothing, as long as the saved data are the same. *)
Theorem reminder_at_most_once tza now now' r :
  activeReminder r = None ->
  toISODate now' = toISODate now ->
  currentTimeStr tza now' = currentTimeStr tza now ->
  activeReminder (checkReminders tza now' (dismissReminder (checkReminders tza now r)))
  = None.
Proof.
  intros Hnone Hd Ht.
  destruct (activeReminder (checkReminders tza now r)) as [a|] eqn:Hfire.
  - destruct (checkReminders_fires tza now r a Hnone Hfire)
      as (sd & ev & Hsd & Hev & Htime & _ & _ & _ & _ & Htr).
    set (r1 := dismissReminder (checkReminders tza now r)).
    assert (app r1 = app r) as Happ.
    { subst r1. unfold dismissReminder. cbn [app]. unfold checkReminders.
      rewrite Hnone, Hsd, Hev. destruct (_ && _); [|reflexivity].
      now destruct (List.find _ _). }
    assert (activeReminder r1 = None) as Hn1 by reflexivity.
    pose proof (checkReminders_triggered tza now' r1 Hn1) as Hq.
    rewrite Happ, Hsd, Hd, Hev in Hq. rewrite Hq; [exact Hn1|congruence|].
    subst r1. unfold dismissReminder. cbn [triggeredReminders]. rewrite Htr.
    apply elem_of_union_l, elem_of_singleton. reflexivity.
  - rewrite (checkReminders_quiet tza now r Hnone Hfire).
    assert (dismissReminder r = r) as ->.
    { destruct r as [ap ar tr]. cbn in Hnone. subst ar. reflexivity. }
    destruct (activeReminder (checkReminders tza now' r)) as [a'|] eqn:Hfire';
      [|reflexivity].
    exfalso.
    destruct (checkReminders_fires tza now' r a' Hnone Hfire')
      as (sd & ev & Hsd & Hev & Htime & Hin & Hf & _).
    assert (activeReminder (checkReminders tza now r) <> None) as Hne; [|congruence].
    unfold checkReminders. rewrite Hnone, Hsd, <- Hd, Hev, Htime, <- Ht, String.eqb_refl.
    cbn [andb]. rewrite (bool_decide_eq_false_2 _ Hin). cbn [negb]. rewrite Hf.
    discriminate.
Qed.

(** X19. After [deleteEventType i] no reminder of type [i] is raised, and
    after [handleDeleteEvent date] none is raised on that date (the date
    of the UTC calendar at the time of the check). *)
Theorem deleted_raise_no_reminder tza now r st :
  activeReminder r = None ->
  (forall i a, app r = deleteEventType i st ->
     activeReminder (checkReminders tza now r) = Some a -> id (eventType a) <> i)
  /\ (app r = handleDeleteEvent (toISODate now) st ->
      activeReminder (checkReminders tza now r) = None).
Proof.
  intros Hnone. split.
  - intros i a Happ Hfire.
    destruct (checkReminders_fires tza now r a Hnone Hfire)
      as (sd & ev & Hsd & _ & _ & _ & Hf & _).
    apply find_some in Hf as [Hf _]. rewrite Happ in Hsd. unfold deleteEventType in Hsd.
    cbn [savedData] in Hsd. destruct (savedData st) as [prev|]; [|discriminate].
    injection Hsd as <-. cbn [sd_customEventTypes] in Hf.
    apply list_elem_of_In, elem_of_withoutType in Hf. tauto.
  - intros Happ.
    destruct (activeReminder (checkReminders tza now r)) as [a|] eqn:Hfire; [|reflexivity].
    destruct (checkReminders_fires tza now r a Hnone Hfire)
      as (sd & ev & Hsd & Hev & _).
    rewrite Happ in Hsd. unfold handleDeleteEvent in Hsd. cbn [savedData] in Hsd.
    destruct (savedData st) as [prev|]; [|discriminate].
    injection Hsd as <-. cbn [sd_events] in Hev.
    now rewrite lookup_delete_eq in Hev.
Qed.

Lemma reminder_only_when_due_witness :
  exists sd ev,
    savedData (app (reminderStateOf stateTwoTypes)) = Some sd
    /\ sd_events sd !! toISODate 1704099600000 = Some ev
    /\ time ev = currentTimeStr utcHost 1704099600000
    /\ (reminderId (toISODate 1704099600000) (Some ev)
          ∉ triggeredReminders (reminderStateOf stateTwoTypes))
    /\ {| id := "evt_1"; title := "Meeting"; color := "bg-blue-500" |}
         ∈ sd_customEventTypes sd
    /\ "evt_1"%string = typeId ev
    /\ "09:00"%string = time ev
    /\ "2024-01-01"%string = toISODate 1704099600000.
Proof.
  apply (reminder_only_when_due utcHost 1704099600000 (reminderStateOf stateTwoTypes)
           {| eventType := {| id := "evt_1"; title := "Meeting"; color := "bg-blue-500" |};
              reminderTime := "09:00"; reminderDate := "2024-01-01" |});
    [reflexivity|vm_compute; reflexivity].
Defined.

Lemma reminder_at_most_once_witness :
  activeReminder (checkReminders utcHost 1704099600000 (reminderStateOf stateTwoTypes))
  <> None
  /\ activeReminder
       (checkReminders utcHost 1704099610000
          (dismissReminder
             (checkReminders utcHost 1704099600000 (reminderStateOf stateTwoTypes))))
     = None.
Proof.
  split; [vm_compute; discriminate|].
  apply reminder_at_most_once; [reflexivity|vm_compute; reflexivity..].
Defined.

Lemma deleted_raise_no_reminder_witness :
  activeReminder
    (checkReminders utcHost 1704099600000
       (reminderStateOf (handleDeleteEvent "2024-01-01" stateTwoTypes))) = None
  /\ exists a,
       activeReminder
         (checkReminders utcHost 1704191400000
            (reminderStateOf (deleteEventType "evt_1" stateTwoTypes))) = Some a
       /\ id (eventType a) <> "evt_1"%string.
Proof.
  split.
  - apply (proj2 (deleted_raise_no_reminder utcHost 1704099600000
                    (reminderStateOf (handleDeleteEvent "2024-01-01" stateTwoTypes))
                    stateTwoTypes eq_refl)).
    vm_compute. reflexivity.
  - eexists. split; [vm_compute; reflexivity|].
    apply (proj1 (deleted_raise_no_reminder utcHost 1704191400000
                    (reminderStateOf (deleteEventType "evt_1" stateTwoTypes))
                    stateTwoTypes eq_refl) "evt_1"%string); [reflexivity|].
    vm_compute. reflexivity.
Defined.

(** ** The daily walk, exactly *)

Lemma utcDayShift_cases tza :
  - msPerDay < tza <= msPerDay ->
  utcDayShift tza = if 0 <? tza then -1 else 0.
Proof. unfold utcDayShift, Day, msPerDay. intros H. ifs; divlia. Qed.

Lemma toISODate_startOfDay tza n :
  toISODate (startOfDay tza n) = isoDateOfDay (n + utcDayShift tza).
Proof.
  unfold toISODate, startOfDay, utcDayShift, UTC, MakeDate, Day, msPerDay.
  f_equal. divlia.
Qed.

Lemma startOfDay_shift tza n k : startOfDay tza n + k * msPerDay = startOfDay tza (n + k).
Proof. unfold startOfDay, UTC, MakeDate, msPerDay. lia. Qed.

Lemma startOfDay_le_endOfDay tza a b : startOfDay tza a <= endOfDay tza b <-> a <= b.
Proof. unfold startOfDay, endOfDay, UTC, MakeDate, msPerDay. lia. Qed.

Lemma strLt_leb a b : strLt a b -> String.leb a b = true.
Proof. unfold strLt, String.leb. now intros ->. Qed.

(** Sorting leaves an ascending array as it is. *)
Lemma sort_ascending l : StronglySorted strLt l -> sort l = l.
Proof.
  induction 1 as [|x l Hs IH Hall]; [reflexivity|].
  cbn [sort foldr]. fold (sort l). rewrite IH.
  destruct l as [|y l']; [reflexivity|]. cbn [insertSorted].
  inversion Hall as [|? ? Hxy _]; subst. now rewrite (strLt_leb _ _ Hxy).
Qed.

Lemma StronglySorted_map_seq (f : nat -> string) n : forall a,
  (forall i j, (a <= i < j)%nat -> (j < a + n)%nat -> strLt (f i) (f j)) ->
  StronglySorted strLt (map f (seq a n)).
Proof.
  induction n as [|n IH]; intros a H; cbn [seq map]; constructor.
  - apply IH. intros i j Hij Hj. apply H; lia.
  - apply Forall_forall. intros x Hx. apply list_elem_of_In, in_map_iff in Hx.
    destruct Hx as (j & <- & Hj). apply in_seq in Hj. apply H; lia.
Qed.

Lemma everyKthDay_ascending first k n :
  0 < k -> 0 <= YearFromDay first ->
  YearFromDay (first + (Z.of_nat n - 1) * k) <= 9999 ->
  StronglySorted strLt (everyKthDay first k n).
Proof.
  intros Hk H0 H9. apply StronglySorted_map_seq. intros i j Hij Hj.
  apply isoDateOfDay_chronological.
  - apply Z.le_trans with (YearFromDay first); [exact H0|]. apply YearFromDay_le. nia.
  - apply Z.le_trans with (YearFromDay (first + (Z.of_nat n - 1) * k)); [|exact H9].
    apply YearFromDay_le. nia.
  - nia.
Qed.

Lemma everyKthDay_succ first k n :
  everyKthDay first k (S n)
  = everyKthDay first k n ++ [isoDateOfDay (first + Z.of_nat n * k)].
Proof. unfold everyKthDay. now rewrite seq_S, map_app. Qed.

Section DailyFacts.

Variables (tza : Z) (settings : RecurringSettings) (finalEndDate : Z) (first : Z).

Hypothesis Hdaily : frequency settings = daily.
Hypothesis Hk : 0 < interval settings.

Abbreviation start0 := (startOfDay tza first).
Abbreviation w0 := {| current := startOfDay tza first; iterations := 0; dates := [] |}.
Abbreviation stepDaily := (body tza settings (startOfDay tza first) finalEndDate).

Lemma daily_cursor n :
  current (Nat.iter n stepDaily w0)
  = startOfDay tza (first + Z.of_nat n * interval settings).
Proof.
  rewrite daily_rounds by exact Hdaily. cbn [current]. apply startOfDay_shift.
Qed.

Lemma daily_dates n :
  0 <= YearFromDay (first + utcDayShift tza) ->
  YearFromDay (first + utcDayShift tza + (Z.of_nat n - 1) * interval settings) <= 9999 ->
  dates (Nat.iter n stepDaily w0)
  = everyKthDay (first + utcDayShift tza) (interval settings) n.
Proof.
  induction n as [|n IH]; intros H0 H9; [reflexivity|].
  assert (YearFromDay (first + utcDayShift tza + (Z.of_nat n - 1) * interval settings)
          <= 9999) as H9'.
  { apply Z.le_trans with (2 := H9). apply YearFromDay_le. nia. }
  rewrite Nat.iter_succ. unfold body at 1. rewrite Hdaily. unfold dailyArm. cbn [dates].
  rewrite daily_cursor, toISODate_startOfDay, IH by assumption.
  rewrite everyKthDay_succ. unfold Set_add.
  replace (first + Z.of_nat n * interval settings + utcDayShift tza)
    with (first + utcDayShift tza + Z.of_nat n * interval settings) by lia.
  rewrite bool_decide_eq_false_2; [reflexivity|].
  intros Hin.
  pose proof (everyKthDay_ascending (first + utcDayShift tza) (interval settings) (S n)
                Hk H0 H9) as Hs.
  rewrite everyKthDay_succ in Hs. apply StronglySorted_strLt_NoDup in Hs.
  apply NoDup_app in Hs as (_ & Hd & _). apply (Hd _ Hin). apply elem_of_cons. now left.
Qed.

End DailyFacts.

(** X20. The daily expansion is the arithmetic progression of the days: for
    a start date in a year from 0100, an end of range in a year up to
    9999 and an interval [k >= 1], the result is the ISO dates of
    [first, first + k, first + 2k, ...] up to the last day of the range,
    where [first] is the start date on a host at or west of UTC and the
    day before it on a host east of UTC; the list stops after 2000 dates
    when the range holds more. *)
Theorem daily_every_kth_day tza settings s y m d lastDay :
  frequency settings = daily ->
  1 <= interval settings ->
  - msPerDay < tza <= msPerDay ->
  startDate settings = Some s ->
  parseISODate s = Some (y, m, d) ->
  100 <= y ->
  effectiveEndDay settings y = Some lastDay ->
  YearFromDay lastDay <= 9999 ->
  let first := MakeDay y (m - 1) d in
  let k := interval settings in
  exists n : nat,
    calculateRecurringDates tza settings
    = everyKthDay (first + (if 0 <? tza then -1 else 0)) k n
    /\ Z.of_nat n <= maxIterations
    /\ (forall i : nat, (i < n)%nat -> first + Z.of_nat i * k <= lastDay)
    /\ (Z.of_nat n = maxIterations \/ lastDay < first + Z.of_nat n * k).
Proof.
  intros Hf Hk Htz Hs Hp Hy He H9 first k.
  rewrite <- (utcDayShift_cases tza Htz).
  assert (utcDayShift tza = 0 \/ utcDayShift tza = -1) as Hshift
    by (rewrite (utcDayShift_cases tza Htz); destruct (0 <? tza); lia).
  rewrite calculateRecurringDates_dates. unfold expansion.
  rewrite (loopEntry_days tza settings s y m d lastDay Hs Hp Hy He). fold first.
  set (w0 := {| current := startOfDay tza first; iterations := 0; dates := [] |}).
  destruct (while_rounds tza settings (startOfDay tza first) (endOfDay tza lastDay)
              (S (Z.to_nat maxIterations)) w0)
    as (n & Hn & Hgo & Hstop & Hle).
  { unfold maxIterations. cbn [iterations w0]. lia. }
  { rewrite Nat2Z.inj_succ, Z2Nat.id by (unfold maxIterations; lia).
    cbn [iterations w0]. lia. }
  cbn [iterations w0] in Hle.
  assert (forall i : nat, (i < n)%nat -> first + Z.of_nat i * k <= lastDay) as Hin.
  { intros i Hi. specialize (Hgo i Hi). unfold guard in Hgo.
    apply andb_prop in Hgo as [Hgo _]. apply Z.leb_le in Hgo.
    subst w0. rewrite (daily_cursor tza settings _ first Hf) in Hgo.
    now apply startOfDay_le_endOfDay in Hgo. }
  exists n. rewrite Hn. split; [|split; [lia|split; [exact Hin|]]].
  - assert (0 <= YearFromDay (first + utcDayShift tza)) as H0.
    { apply Z.le_trans with (YearFromDay (MakeDay 99 0 1)); [vm_compute; discriminate|].
      apply YearFromDay_le.
      apply parseISODate_valid in Hp as (_ & Hm & Hd).
      destruct (civil_of_MakeDay y (m - 1) d) as (Hy1 & _); [lia..|].
      assert (MakeDay 100 0 1 = MakeDay 99 0 1 + 365) as H100 by (vm_compute; reflexivity).
      assert (MakeDay 100 0 1 <= first); [|lia].
      destruct (Z.le_gt_cases (MakeDay 100 0 1) first) as [H|H]; [exact H|].
      pose proof (YearFromDay_le first (MakeDay 100 0 1 - 1) ltac:(lia)) as Hc.
      fold first in Hy1. rewrite Hy1 in Hc.
      change (YearFromDay (MakeDay 100 0 1 - 1)) with 99 in Hc. lia. }
    destruct n as [|n'].
    + reflexivity.
    + assert (YearFromDay (first + utcDayShift tza + (Z.of_nat (S n') - 1) * k) <= 9999)
        as H9'.
      { apply Z.le_trans with (2 := H9). apply YearFromDay_le.
        specialize (Hin n' ltac:(lia)). lia. }
      subst w0. rewrite (daily_dates tza settings _ first Hf ltac:(lia) (S n') H0 H9').
      apply sort_ascending. apply everyKthDay_ascending; [lia|exact H0|exact H9'].
  - apply guard_false_iff in Hstop.
    rewrite iter_body_iterations in Hstop. cbn [iterations w0] in Hstop.
    destruct Hstop as [Hstop|Hstop]; [right|left; lia].
    subst w0. rewrite (daily_cursor tza settings _ first Hf) in Hstop.
    destruct (Z.le_gt_cases (first + Z.of_nat n * k) lastDay) as [Hc|Hc]; [|lia].
    apply (startOfDay_le_endOfDay tza) in Hc. fold k in Hstop. lia.
Qed.

Lemma daily_every_kth_day_witness :
  exists n : nat,
    calculateRecurringDates istHost dailyFirstWeek
    = everyKthDay (MakeDay 2024 (1 - 1) 1 + -1) 1 n
    /\ Z.of_nat n <= maxIterations
    /\ (forall i : nat, (i < n)%nat ->
          MakeDay 2024 (1 - 1) 1 + Z.of_nat i * 1 <= MakeDay 2024 0 5)
    /\ (Z.of_nat n = maxIterations
        \/ MakeDay 2024 0 5 < MakeDay 2024 (1 - 1) 1 + Z.of_nat n * 1).
Proof.
  apply (daily_every_kth_day istHost dailyFirstWeek "2024-01-01" 2024 1 1
           (MakeDay 2024 0 5));
    [reflexivity|vm_compute; discriminate|unfold istHost, msPerDay; lia|reflexivity
    |vm_compute; reflexivity|lia|vm_compute; reflexivity|vm_compute; discriminate].
Defined.

(** ** Dates on hosts east of UTC *)

Section BoundsEast.

Variable tza : Z.

Hypothesis east : 0 < tza <= msPerDay.

Variables (settings : RecurringSettings) (firstDay lastDay : Z).

Abbreviation start := (startOfDay tza firstDay).
Abbreviation finalEndDate := (endOfDay tza lastDay).

(** A local midnight between the bounds of the loop is written as the
    date of the day before. *)
Lemma toISODate_day_before t :
  atLocalMidnight tza t -> start <= t <= finalEndDate ->
  dateWithin (firstDay - 1) (lastDay - 1) (toISODate t).
Proof.
  intros Hm Ht. exists (Day (LocalTime tza t) - 1). unfold toISODate.
  unfold atLocalMidnight, TimeWithinDay, startOfDay, endOfDay, UTC, MakeDate, Day,
    LocalTime, msPerDay in *.
  split; [f_equal|]; divlia.
Qed.

Lemma Set_add_Forall (P : string -> Prop) str ds :
  P str -> Forall P ds -> Forall P (Set_add str ds).
Proof.
  intros Hs Hd. unfold Set_add. case_bool_decide; [exact Hd|].
  apply Forall_app. split; [exact Hd|]. now constructor.
Qed.

Lemma inRange_bounds d :
  inRange start finalEndDate d = true <-> start <= d <= finalEndDate.
Proof. unfold inRange. rewrite andb_true_iff, !Z.leb_le. tauto. Qed.

Lemma weekScan_east n : forall cur ds,
  atLocalMidnight tza cur ->
  Forall (dateWithin (firstDay - 1) (lastDay - 1)) ds ->
  atLocalMidnight tza (fst (weekScan tza settings start finalEndDate n cur ds))
  /\ Forall (dateWithin (firstDay - 1) (lastDay - 1))
            (snd (weekScan tza settings start finalEndDate n cur ds)).
Proof.
  induction n as [|n IH]; intros cur ds Hc Hd; [now split|].
  cbn [weekScan]. apply IH; [now apply atLocalMidnight_setDate|].
  destruct (selected _ _ && (start <=? cur) && (cur <=? finalEndDate)) eqn:E; [|exact Hd].
  apply Set_add_Forall; [|exact Hd]. apply toISODate_day_before; [exact Hc|]. lia.
Qed.

Lemma body_east w :
  0 <= interval settings ->
  guard finalEndDate w = true ->
  eastInvariant tza settings firstDay lastDay w ->
  eastInvariant tza settings firstDay lastDay (body tza settings start finalEndDate w).
Proof.
  intros Hi Hg (Hd & Hm & Hs). unfold guard in Hg.
  apply andb_prop in Hg as [Hg _]. apply Z.leb_le in Hg.
  unfold eastInvariant, body.
  destruct (frequency settings) eqn:Hf.
  - unfold dailyArm. cbn [dates current]. split; [|split].
    + apply Set_add_Forall; [|exact Hd]. apply toISODate_day_before; [exact Hm|].
      specialize (Hs eq_refl). lia.
    + now apply atLocalMidnight_setDate.
    + intros _. rewrite setDate_shift. specialize (Hs eq_refl). unfold msPerDay. nia.
  - unfold weeklyArm. cbn [dates current].
    destruct (weekScan_east 7 (weekStart tza start w) (dates w)) as [Hc' Hd'].
    { unfold weekStart. destruct (_ =? 1); [now apply atLocalMidnight_setDate|exact Hm]. }
    { exact Hd. }
    split; [exact Hd'|]. split; [now apply atLocalMidnight_setDate|discriminate].
  - unfold monthlyArm. cbn [dates current]. split; [|split; [|discriminate]].
    + unfold monthDate. destruct (monthlyType settings).
      * destruct (inRange _ _ _) eqn:E; [|exact Hd].
        apply Set_add_Forall; [|exact Hd]. apply toISODate_day_before.
        -- apply atLocalMidnight_newDate.
        -- now apply inRange_bounds.
      * pose proof (targetDate_ordinalWeekday tza settings (current w)) as Ht.
        cbv zeta in Ht. rewrite Ht.
        destruct (ordinalWeekday _ _ _ _) as [dd|]; [|exact Hd].
        cbn [fmap option_fmap option_map].
        destruct (inRange _ _ _) eqn:E; [|exact Hd].
        apply Set_add_Forall; [|exact Hd]. apply toISODate_day_before.
        -- apply atLocalMidnight_newDate.
        -- now apply inRange_bounds.
    + now apply atLocalMidnight_setDate, atLocalMidnight_setMonth.
  - unfold yearlyArm. cbn [dates current]. split; [|split; [|discriminate]].
    + destruct (inRange _ _ _) eqn:E; [|exact Hd].
      apply Set_add_Forall; [|exact Hd]. apply toISODate_day_before.
      * apply atLocalMidnight_newDate.
      * now apply inRange_bounds.
    + now apply atLocalMidnight_setFullYear.
Qed.

Lemma while_east fuel : forall w,
  0 <= interval settings ->
  eastInvariant tza settings firstDay lastDay w ->
  eastInvariant tza settings firstDay lastDay (while tza settings start finalEndDate fuel w).
Proof.
  induction fuel as [|fuel IH]; intros w Hi Hw; [exact Hw|].
  cbn [while]. destruct (guard finalEndDate w) eqn:Hg; [|exact Hw].
  apply IH; [exact Hi|]. now apply body_east.
Qed.

End BoundsEast.

Lemma dates_one_day_early_east_of_utc tza settings s y m d lastDay str :
  0 < tza <= msPerDay ->
  0 <= interval settings ->
  startDate settings = Some s ->
  parseISODate s = Some (y, m, d) ->
  100 <= y ->
  effectiveEndDay settings y = Some lastDay ->
  In str (calculateRecurringDates tza settings) ->
  dateWithin (MakeDay y (m - 1) d - 1) (lastDay - 1) str.
Proof.
  intros Htz Hi Hs Hp Hy He Hin.
  rewrite calculateRecurringDates_dates in Hin. unfold expansion in Hin.
  rewrite (loopEntry_days tza settings s y m d lastDay Hs Hp Hy He) in Hin.
  rewrite <- list_elem_of_In, <- (sort_Permutation _) in Hin.
  pose proof (while_east tza Htz settings (MakeDay y (m - 1) d) lastDay
                (S (Z.to_nat maxIterations))
                {| current := startOfDay tza (MakeDay y (m - 1) d);
                   iterations := 0; dates := [] |} Hi) as [Hd _].
  { split; [constructor|]. split; [apply atLocalMidnight_startOfDay|].
    intros _. cbn [current]. lia. }
  rewrite Forall_forall in Hd. now apply Hd.
Qed.

(** X21. Whatever the frequency, with a start year from 0100 and a
    non-negative interval, every string of the result is the ISO date of
    a day of the range moved by the host's zone: from the start date to
    the end date (or to January 1 of the start year + 5 when there is no
    end date) on a host at or west of UTC, and from the day before the
    start date to the day before the end date on a host east of UTC,
    where the end date itself is never in the result. *)
Theorem dates_follow_utc_calendar tza settings s y m d lastDay str :
  - msPerDay < tza <= msPerDay ->
  0 <= interval settings ->
  startDate settings = Some s ->
  parseISODate s = Some (y, m, d) ->
  100 <= y ->
  effectiveEndDay settings y = Some lastDay ->
  In str (calculateRecurringDates tza settings) ->
  let shift := if 0 <? tza then -1 else 0 in
  dateWithin (MakeDay y (m - 1) d + shift) (lastDay + shift) str.
Proof.
  intros Htz Hi Hs Hp Hy He Hin shift. subst shift.
  destruct (Z.ltb_spec 0 tza) as [Heast|Hwest].
  - apply (dates_one_day_early_east_of_utc tza settings s y m d lastDay str);
      try assumption. lia.
  - rewrite !Z.add_0_r.
    apply (dates_within_range_west_of_utc tza settings s y m d lastDay str);
      try assumption. lia.
Qed.

Lemma dates_follow_utc_calendar_witness :
  dateWithin (MakeDay 2024 (1 - 1) 1 + -1) (MakeDay 2024 0 5 + -1) "2023-12-31".
Proof.
  apply (dates_follow_utc_calendar istHost dailyFirstWeek "2024-01-01" 2024 1 1
           (MakeDay 2024 0 5) "2023-12-31");
    [unfold istHost, msPerDay; lia|vm_compute; discriminate|reflexivity
    |vm_compute; reflexivity|lia|vm_compute; reflexivity|vm_compute; tauto].
Defined.

(** ** Months and date strings *)

(** X22. [getDaysInMonth] is the Gregorian calendar on every host: 31 or
    30 days by the month, and 28 or 29 in February by the leap-year rule.
    (A year 0..99 is read as 1900..1999, as the [Date] constructor does.) *)
Theorem getDaysInMonth_calendar tza year month :
  0 <= month <= 11 ->
  getDaysInMonth tza year month
  = if month =? 1 then (if leapYear (MakeFullYear year) then 29 else 28)
    else if (month =? 3) || (month =? 5) || (month =? 8) || (month =? 10) then 30
    else 31.
Proof.
  intros Hm. rewrite getDaysInMonth_DaysInMonth, DaysInMonth_table by exact Hm.
  destruct (month =? 1); [|reflexivity].
  unfold DaysInYear, leapYear.
  destruct (MakeFullYear year mod 4 =? 0), (MakeFullYear year mod 100 =? 0),
    (MakeFullYear year mod 400 =? 0); reflexivity.
Qed.

Lemma getDaysInMonth_calendar_witness :
  getDaysInMonth istHost 2024 1 = 29 /\ getDaysInMonth istHost 1900 1 = 28.
Proof.
  split.
  - exact (getDaysInMonth_calendar istHost 2024 1 ltac:(lia)).
  - exact (getDaysInMonth_calendar istHost 1900 1 ltac:(lia)).
Defined.

(** X23. Reading a date string of the result back as a local date and
    writing it again with [toISOString]: for a day of the years 0000..9999
    the string read is the local midnight of its day, and written again
    it is the same date on a host at or west of UTC and the date of the
    day before on a host east of UTC. *)
Theorem date_string_round_trip tza n :
  0 <= YearFromDay n <= 9999 ->
  - msPerDay < tza <= msPerDay ->
  newDateFromString tza (isoDateOfDay n) 0 = Some (startOfDay tza n)
  /\ toISODate (startOfDay tza n) = isoDateOfDay (if 0 <? tza then n - 1 else n).
Proof.
  intros Hy Htz. split.
  - unfold newDateFromString. rewrite isoDateOfDay_reads_back by exact Hy.
    replace (MonthFromDay n + 1 - 1) with (MonthFromDay n) by lia.
    now rewrite MakeDay_of_day.
  - rewrite toISODate_startOfDay, utcDayShift_cases by exact Htz.
    destruct (0 <? tza); f_equal; lia.
Qed.

Lemma date_string_round_trip_witness :
  newDateFromString istHost (isoDateOfDay 19723) 0 = Some (startOfDay istHost 19723)
  /\ toISODate (startOfDay istHost 19723) = isoDateOfDay (19723 - 1).
Proof.
  apply (date_string_round_trip istHost 19723);
    [vm_compute; split; discriminate|unfold istHost, msPerDay; lia].
Defined.

(** ** The weekly walk *)

Section WeeklyFacts.

Variables (tza : Z) (settings : RecurringSettings) (start finalEndDate : Z).

Lemma weekScan_none n : forall cur ds,
  (forall dayIndex, selected (weeklyDays settings) dayIndex = false) ->
  snd (weekScan tza settings start finalEndDate n cur ds) = ds.
Proof.
  induction n as [|n IH]; intros cur ds Hnone; [reflexivity|].
  cbn [weekScan]. rewrite Hnone. cbn [andb]. now apply IH.
Qed.

Lemma while_weekly_none fuel : forall w,
  frequency settings = weekly ->
  (forall dayIndex, selected (weeklyDays settings) dayIndex = false) ->
  dates (while tza settings start finalEndDate fuel w) = dates w.
Proof.
  induction fuel as [|fuel IH]; intros w Hf Hnone; [reflexivity|].
  cbn [while]. destruct (guard finalEndDate w); [|reflexivity].
  rewrite IH by assumption. unfold body. rewrite Hf. unfold weeklyArm. cbn [dates].
  now apply weekScan_none.
Qed.

(** X24. A round of the weekly walk scans seven consecutive days, from
    the week start on: each is added when its weekday is selected and it
    is within [start, finalEndDate].  The week start is the cursor, moved
    back by the weekday of the start date in the first round, and the next
    cursor is [interval] weeks after the week start; when the walk begins
    at the start date, the first week start is the Sunday on or before
    it. *)
Theorem weekly_round_scans_a_week w :
  frequency settings = weekly ->
  let ws := if iterations w =? 0
            then current w - getDay tza start * msPerDay else current w in
  let w' := body tza settings start finalEndDate w in
  dates w' = foldl (emitIfSelected tza settings start finalEndDate) (dates w) (daysFrom ws 7)
  /\ current w' = ws + interval settings * 7 * msPerDay
  /\ (iterations w = 0 -> current w = start ->
      getDay tza ws = 0 /\ ws <= start < ws + 7 * msPerDay).
Proof.
  intros Hf ws w'.
  assert (weekStart tza start w = ws) as Hws.
  { subst ws. unfold weekStart.
    destruct (Z.eqb_spec (iterations w) 0) as [H0|H0].
    - rewrite H0. change (0 + 1 =? 1) with true. cbv iota.
      replace (getDate tza (current w) - getDay tza start)
        with (getDate tza (current w) + - getDay tza start) by lia.
      rewrite setDate_shift. lia.
    - destruct (Z.eqb_spec (iterations w + 1) 1); [lia|reflexivity]. }
  destruct (weekly_round tza settings start finalEndDate w Hf) as (Hd & Hc & _).
  rewrite Hws in Hd, Hc. split; [exact Hd|]. split; [subst w'; rewrite Hc; lia|].
  intros H0 Hcur.
  destruct (weekStart_first_round tza start w H0 Hcur) as (H1 & _ & H3).
  rewrite Hws in H1, H3. now split.
Qed.

End WeeklyFacts.

Lemma loopEntry_dates tza settings start fe w0 :
  loopEntry tza settings = Some (start, fe, w0) -> dates w0 = [].
Proof.
  unfold loopEntry.
  destruct (startDate settings) as [s|]; [|discriminate].
  destruct (newDateFromString tza s 0) as [st|]; [|discriminate].
  destruct (endOfRange tza settings _) as [e|]; [|discriminate].
  intros H. apply Some_eq_inv in H. now injection H as _ _ <-.
Qed.

(** X25. The weekly expansion with no weekday selected is empty, whatever
    the dates, the interval and the host. *)
Theorem weekly_none_selected tza settings :
  frequency settings = weekly ->
  (forall dayIndex, selected (weeklyDays settings) dayIndex = false) ->
  calculateRecurringDates tza settings = [].
Proof.
  intros Hf Hnone. rewrite calculateRecurringDates_dates. unfold expansion.
  destruct (loopEntry tza settings) as [[[start fe] w0]|] eqn:He; [|reflexivity].
  rewrite while_weekly_none by assumption.
  now rewrite (loopEntry_dates tza settings start fe w0 He).
Qed.

Lemma weekly_none_selected_witness :
  calculateRecurringDates utcHost weeklyOnNoDay = [].
Proof.
  apply weekly_none_selected; [reflexivity|].
  intros dayIndex. unfold selected, weeklyOnNoDay. cbn [weeklyDays].
  destruct (decide (dayIndex = 0)) as [->|H0]; [reflexivity|].
  rewrite lookup_insert_ne by congruence.
  destruct (decide (dayIndex = 1)) as [->|H1]; [reflexivity|].
  rewrite lookup_singleton_ne by congruence. reflexivity.
Defined.

(** ** Toggling a weekday *)

Section SelectedOnly.

Variables (tza : Z) (s : RecurringSettings) (wd1 wd2 : gmap Z bool).

Hypothesis same : forall dayIndex, selected wd1 dayIndex = selected wd2 dayIndex.

Lemma weekScan_selected start fe n : forall cur ds,
  weekScan tza (withWeeklyDays s wd1) start fe n cur ds
  = weekScan tza (withWeeklyDays s wd2) start fe n cur ds.
Proof.
  induction n as [|n IH]; intros cur ds; [reflexivity|].
  cbn [weekScan withWeeklyDays weeklyDays]. rewrite same. apply IH.
Qed.

Lemma body_selected start fe w :
  body tza (withWeeklyDays s wd1) start fe w = body tza (withWeeklyDays s wd2) start fe w.
Proof.
  unfold body. cbn [withWeeklyDays frequency].
  destruct (frequency s).
  - unfold dailyArm. cbn [withWeeklyDays interval]. reflexivity.
  - unfold weeklyArm. rewrite weekScan_selected. cbn [withWeeklyDays interval].
    reflexivity.
  - unfold monthlyArm, monthDate, targetDate, matchingDays.
    cbn [withWeeklyDays interval monthlyType monthlyOnDay monthlyOnThe]. reflexivity.
  - unfold yearlyArm. cbn [withWeeklyDays interval]. reflexivity.
Qed.

Lemma while_selected start fe fuel : forall w,
  while tza (withWeeklyDays s wd1) start fe fuel w
  = while tza (withWeeklyDays s wd2) start fe fuel w.
Proof.
  induction fuel as [|fuel IH]; intros w; [reflexivity|].
  cbn [while]. destruct (guard fe w); [|reflexivity]. now rewrite body_selected, IH.
Qed.

Lemma loopEntry_selected :
  loopEntry tza (withWeeklyDays s wd1) = loopEntry tza (withWeeklyDays s wd2).
Proof.
  unfold loopEntry, endOfRange. cbn [withWeeklyDays startDate endDate]. reflexivity.
Qed.

Lemma calculateRecurringDates_selected :
  calculateRecurringDates tza (withWeeklyDays s wd1)
  = calculateRecurringDates tza (withWeeklyDays s wd2).
Proof.
  rewrite !calculateRecurringDates_dates. unfold expansion.
  rewrite loopEntry_selected.
  destruct (loopEntry tza (withWeeklyDays s wd2)) as [[[start fe] w0]|]; [|reflexivity].
  now rewrite while_selected.
Qed.

End SelectedOnly.

Lemma withWeeklyDays_same s : withWeeklyDays s (weeklyDays s) = s.
Proof. now destruct s. Qed.

Lemma selected_toggle dayIndex s x :
  selected (weeklyDays (toggleWeeklyDay dayIndex s)) x
  = if bool_decide (x = dayIndex) then negb (selected (weeklyDays s) x)
    else selected (weeklyDays s) x.
Proof.
  unfold toggleWeeklyDay. cbn [withWeeklyDays weeklyDays]. unfold selected at 1.
  case_bool_decide as Hx.
  - subst x. now rewrite lookup_insert_eq.
  - now rewrite lookup_insert_ne by congruence.
Qed.

(** X26. [toggleWeeklyDay] flips the selection of its weekday and of no
    other, and toggling the same weekday twice gives settings with the
    same expansion, on every host and for every frequency (the object
    [weeklyDays] itself may have gained a key). *)
Theorem toggleWeeklyDay_twice tza dayIndex s :
  (forall x, selected (weeklyDays (toggleWeeklyDay dayIndex s)) x
             = if bool_decide (x = dayIndex) then negb (selected (weeklyDays s) x)
               else selected (weeklyDays s) x)
  /\ calculateRecurringDates tza (toggleWeeklyDay dayIndex (toggleWeeklyDay dayIndex s))
     = calculateRecurringDates tza s.
Proof.
  split; [intros x; apply selected_toggle|].
  transitivity (calculateRecurringDates tza (withWeeklyDays s (weeklyDays s)));
    [|now rewrite withWeeklyDays_same].
  change (toggleWeeklyDay dayIndex (toggleWeeklyDay dayIndex s))
    with (withWeeklyDays s (weeklyDays (toggleWeeklyDay dayIndex
                                           (toggleWeeklyDay dayIndex s)))).
  apply calculateRecurringDates_selected. intros x.
  rewrite !selected_toggle. case_bool_decide; [|reflexivity]. apply negb_involutive.
Qed.

Lemma weekly_round_scans_a_week_witness :
  let w := {| current := 1704067200000; iterations := 0; dates := [] |} in
  current (body utcHost mondaysAndWednesdays 1704067200000 1705276799999 w)
  = (if iterations w =? 0
     then current w - getDay utcHost 1704067200000 * msPerDay else current w)
    + interval mondaysAndWednesdays * 7 * msPerDay.
Proof.
  intros w.
  exact (proj1 (proj2 (weekly_round_scans_a_week utcHost mondaysAndWednesdays
                         1704067200000 1705276799999 w eq_refl))).
Defined.

(** ** Days a month does not have *)

(** A date past the end of its month is a date of the next month. *)
Lemma MakeDay_overflow y m d :
  0 <= m <= 11 -> DaysInMonth y m < d <= DaysInMonth y m + 28 ->
  YearFromDay (MakeDay y m d) = y + (m + 1) / 12
  /\ MonthFromDay (MakeDay y m d) = (m + 1) mod 12
  /\ DateFromDay (MakeDay y m d) = d - DaysInMonth y m.
Proof.
  intros Hm Hd.
  assert (MakeDay y m d
          = MakeDay (y + (m + 1) / 12) ((m + 1) mod 12) (d - DaysInMonth y m)) as ->.
  { rewrite <- MakeDay_normalize.
    replace d with (1 + (d - 1)) at 1 by lia.
    replace (d - DaysInMonth y m) with (1 + (d - DaysInMonth y m - 1)) by lia.
    rewrite !MakeDay_date_shift. unfold DaysInMonth. lia. }
  assert (0 <= (m + 1) mod 12 <= 11) as Hm1 by divlia.
  pose proof (DaysInMonth_range (y + (m + 1) / 12) ((m + 1) mod 12) Hm1).
  apply civil_of_MakeDay; lia.
Qed.

(** The fields of [MakeDay y m d] for a date 1..31 of a month 0..11. *)
Lemma MakeDay_fields y m d :
  0 <= m <= 11 -> 1 <= d <= 31 ->
  let over := if d <=? DaysInMonth y m then 0 else 1 in
  12 * YearFromDay (MakeDay y m d) + MonthFromDay (MakeDay y m d) = 12 * y + m + over
  /\ DateFromDay (MakeDay y m d) = d - over * DaysInMonth y m.
Proof.
  intros Hm Hd over. subst over. pose proof (DaysInMonth_range y m Hm) as Hr.
  destruct (Z.leb_spec d (DaysInMonth y m)) as [Hle|Hgt].
  - destruct (civil_of_MakeDay y m d) as (-> & -> & ->); lia.
  - destruct (MakeDay_overflow y m d) as (-> & -> & ->); [lia..|]. split; divlia.
Qed.

Section OverflowFacts.

Variables (tza : Z) (settings : RecurringSettings) (start finalEndDate : Z).

Lemma cursor_fields t :
  0 <= getMonth tza t <= 11 /\ 1 <= getDate tza t <= 31.
Proof.
  pose proof (MonthFromDay_range (Day (LocalTime tza t))) as Hm.
  pose proof (DateFromDay_range (Day (LocalTime tza t))) as Hd.
  pose proof (DaysInMonth_range (YearFromDay (Day (LocalTime tza t))) _ Hm) as Hr.
  unfold getMonth, getDate. lia.
Qed.

(** X27. A round of the monthly walk moves the cursor to day 1 of the
    month [interval] months after the cursor's month when that month has
    the cursor's day of the month, and to day 1 of the month after it
    otherwise: from a start on day 29, 30 or 31 the first round can pass
    over a month, which is then never visited. *)
Theorem monthly_round_next_month w :
  frequency settings = monthly ->
  let cur := current w in
  let target := 12 * getFullYear tza cur + getMonth tza cur + interval settings in
  let cur' := current (body tza settings start finalEndDate w) in
  getDate tza cur' = 1
  /\ 12 * getFullYear tza cur' + getMonth tza cur'
     = target + (if getDate tza cur <=? DaysInMonth (target / 12) (target mod 12)
                 then 0 else 1).
Proof.
  intros Hf cur target cur'. subst cur'. unfold body. rewrite Hf. unfold monthlyArm.
  cbn [current]. fold cur.
  set (y := getFullYear tza cur) in *. set (m := getMonth tza cur) in *.
  set (d := getDate tza cur) in *. set (k := interval settings) in *.
  destruct (cursor_fields cur) as [Hm Hd]. fold m in Hm. fold d in Hd.
  set (t1 := setMonth tza cur (m + k)).
  assert (Day (LocalTime tza t1) = MakeDay (target / 12) (target mod 12) d) as HD.
  { subst t1. rewrite Day_setMonth, MakeDay_normalize. fold y d.
    subst target. f_equal; divlia. }
  assert (0 <= target mod 12 <= 11) as HM by divlia.
  assert (12 * getFullYear tza t1 + getMonth tza t1
          = 12 * (target / 12) + target mod 12
            + (if d <=? DaysInMonth (target / 12) (target mod 12) then 0 else 1)) as Hym.
  { unfold getFullYear, getMonth. rewrite HD.
    exact (proj1 (MakeDay_fields (target / 12) (target mod 12) d HM Hd)). }
  destruct (cursor_fields t1) as [Hm1 _].
  pose proof (DaysInMonth_range (getFullYear tza t1) (getMonth tza t1) Hm1) as Hr.
  destruct (civil_of_MakeDay (getFullYear tza t1) (getMonth tza t1) 1)
    as (Hy' & Hm' & Hd'); [lia..|].
  unfold getDate at 1, getFullYear at 1, getMonth at 1.
  rewrite !Day_setDate, Hy', Hm', Hd'. split; [reflexivity|].
  rewrite Hym. divlia.
Qed.

(** X28. On a fixed day of the month, the candidate of a round is that
    day of the cursor's month when the month has it; when the month is
    shorter the candidate is a day of the next month (day 31 of a month
    of 30 days is day 1 of the next), and it is added when within the
    range.  (A year 0..99 of the cursor is read as 1900..1999.) *)
Theorem monthly_onDay_candidate cur :
  monthlyType settings = onDay ->
  1 <= monthlyOnDay settings <= 31 ->
  let y := MakeFullYear (getFullYear tza cur) in
  let m := getMonth tza cur in
  let over := if monthlyOnDay settings <=? DaysInMonth y m then 0 else 1 in
  exists md,
    monthDate tza settings cur = Some md
    /\ 12 * getFullYear tza md + getMonth tza md = 12 * y + m + over
    /\ getDate tza md = monthlyOnDay settings - over * DaysInMonth y m.
Proof.
  intros Ht Hd y m over. unfold monthDate. rewrite Ht. eexists. split; [reflexivity|].
  destruct (cursor_fields cur) as [Hm _].
  set (md := newDate tza (getFullYear tza cur) (getMonth tza cur) (monthlyOnDay settings)).
  assert (Day (LocalTime tza md) = MakeDay y m (monthlyOnDay settings)) as HD
    by apply Day_newDate.
  unfold getFullYear, getMonth, getDate. rewrite HD.
  apply (MakeDay_fields y m (monthlyOnDay settings) Hm Hd).
Qed.

(** X29. The candidate of a round of the yearly walk is the month and day
    of the start date in the cursor's year; when that year does not have
    the day (a start on February 29, in a year that is not a leap year)
    it is March 1.  It is added when within the range, and the cursor's
    year grows by [interval].  (A year 0..99 of the cursor is read as
    1900..1999.) *)
Theorem yearly_round_candidate w :
  frequency settings = yearly ->
  let cur := current w in
  let y := MakeFullYear (getFullYear tza cur) in
  let yd := yearlyDate tza start cur in
  let w' := body tza settings start finalEndDate w in
  dates w' = (if inRange start finalEndDate yd
              then Set_add (toISODate yd) (dates w) else dates w)
  /\ getFullYear tza (current w') = getFullYear tza cur + interval settings
  /\ getFullYear tza yd = y
  /\ (if getDate tza start <=? DaysInMonth y (getMonth tza start)
      then getMonth tza yd = getMonth tza start /\ getDate tza yd = getDate tza start
      else getMonth tza start = 1 /\ getDate tza start = 29
           /\ getMonth tza yd = 2 /\ getDate tza yd = 1).
Proof.
  intros Hf cur y yd w'.
  destruct (yearly_round tza settings start finalEndDate w Hf) as (Hd & Hc & _).
  split; [exact Hd|]. split; [exact Hc|].
  set (ms := getMonth tza start). set (ds := getDate tza start).
  assert (Day (LocalTime tza yd) = MakeDay y ms ds) as HD by apply Day_newDate.
  clearbody yd.
  replace (getFullYear tza yd) with (YearFromDay (MakeDay y ms ds))
    by (unfold getFullYear; now rewrite HD).
  replace (getMonth tza yd) with (MonthFromDay (MakeDay y ms ds))
    by (unfold getMonth; now rewrite HD).
  replace (getDate tza yd) with (DateFromDay (MakeDay y ms ds))
    by (unfold getDate; now rewrite HD).
  assert (0 <= ms <= 11) as Hms by apply MonthFromDay_range.
  pose proof (DateFromDay_range (Day (LocalTime tza start))) as Hds.
  fold (getDate tza start) (getMonth tza start) in Hds. fold ms ds in Hds.
  rewrite DaysInMonth_table in Hds by exact Hms.
  pose proof (DaysInYear_cases (YearFromDay (Day (LocalTime tza start)))) as Hys.
  pose proof (DaysInYear_cases y) as Hyy.
  pose proof (DaysInMonth_table y ms Hms) as Htab.
  split.
  - apply (YearFromDay_MakeDay_any (YearFromDay (Day (LocalTime tza start))));
      [exact Hms|]. rewrite DaysInMonth_table by exact Hms. exact Hds.
  - destruct (Z.leb_spec ds (DaysInMonth y ms)) as [Hle|Hgt].
    + destruct (civil_of_MakeDay y ms ds) as (_ & -> & ->); [lia..|]. now split.
    + assert (ms = 1 /\ ds = 29 /\ DaysInMonth y ms = 28) as (Hm1 & Hd29 & Hdim).
      { destruct (ms =? 1) eqn:E1; [lia|].
        destruct ((ms =? 3) || (ms =? 5) || (ms =? 8) || (ms =? 10)); lia. }
      destruct (MakeDay_overflow y ms ds) as (_ & -> & ->); [lia..|].
      rewrite Hdim, Hm1, Hd29. repeat split; reflexivity.
Qed.

End OverflowFacts.

Lemma monthly_round_next_month_witness :
  let w := {| current := 1706659200000; iterations := 0; dates := [] |} in
  let cur' := current (body utcHost fifteenthFromEndOfJanuary 1706659200000
                         1714521599999 w) in
  getDate utcHost cur' = 1
  /\ 12 * getFullYear utcHost cur' + getMonth utcHost cur' = 12 * 2024 + 1 + 1.
Proof.
  apply (monthly_round_next_month utcHost fifteenthFromEndOfJanuary 1706659200000
           1714521599999 {| current := 1706659200000; iterations := 0; dates := [] |}).
  reflexivity.
Defined.

Lemma monthly_onDay_candidate_witness :
  exists md,
    monthDate utcHost thirtyFirsts 1711929600000 = Some md
    /\ 12 * getFullYear utcHost md + getMonth utcHost md = 12 * 2024 + 3 + 1
    /\ getDate utcHost md = 31 - 1 * 30.
Proof.
  apply (monthly_onDay_candidate utcHost thirtyFirsts 1711929600000);
    [reflexivity|vm_compute; split; discriminate].
Defined.

Lemma yearly_round_candidate_witness :
  let w := {| current := 1740787200000; iterations := 1; dates := [] |} in
  let cur := current w in
  let y := MakeFullYear (getFullYear utcHost cur) in
  let yd := yearlyDate utcHost 1709164800000 cur in
  let w' := body utcHost leapDays 1709164800000 1798761599999 w in
  dates w' = (if inRange 1709164800000 1798761599999 yd
              then Set_add (toISODate yd) (dates w) else dates w)
  /\ getFullYear utcHost (current w') = getFullYear utcHost cur + interval leapDays
  /\ getFullYear utcHost yd = y
  /\ (if getDate utcHost 1709164800000 <=? DaysInMonth y (getMonth utcHost 1709164800000)
      then getMonth utcHost yd = getMonth utcHost 1709164800000
           /\ getDate utcHost yd = getDate utcHost 1709164800000
      else getMonth utcHost 1709164800000 = 1 /\ getDate utcHost 1709164800000 = 29
           /\ getMonth utcHost yd = 2 /\ getDate utcHost yd = 1).
Proof.
  apply (yearly_round_candidate utcHost leapDays 1709164800000 1798761599999
           {| current := 1740787200000; iterations := 1; dates := [] |}).
  reflexivity.
Defined.

(** ** The end of the range *)

Section EndDateOnly.

Variables (tza : Z) (s : RecurringSettings) (v1 v2 : string).

Abbreviation s1 := (handleDateChange fieldEndDate v1 s).
Abbreviation s2 := (handleDateChange fieldEndDate v2 s).

Lemma weekScan_endDate start fe n : forall cur ds,
  weekScan tza s1 start fe n cur ds = weekScan tza s2 start fe n cur ds.
Proof.
  induction n as [|n IH]; intros cur ds; [reflexivity|].
  cbn [weekScan handleDateChange weeklyDays]. apply IH.
Qed.

Lemma body_endDate start fe w : body tza s1 start fe w = body tza s2 start fe w.
Proof.
  unfold body.
  change (frequency (handleDateChange fieldEndDate v1 s)) with (frequency s).
  change (frequency (handleDateChange fieldEndDate v2 s)) with (frequency s).
  destruct (frequency s).
  - unfold dailyArm. cbn [handleDateChange interval]. reflexivity.
  - unfold weeklyArm. rewrite weekScan_endDate. cbn [handleDateChange interval].
    reflexivity.
  - unfold monthlyArm, monthDate, targetDate, matchingDays.
    cbn [handleDateChange interval monthlyType monthlyOnDay monthlyOnThe]. reflexivity.
  - unfold yearlyArm. cbn [handleDateChange interval]. reflexivity.
Qed.

Lemma while_endDate start fe fuel : forall w,
  while tza s1 start fe fuel w = while tza s2 start fe fuel w.
Proof.
  induction fuel as [|fuel IH]; intros w; [reflexivity|].
  cbn [while]. destruct (guard fe w); [|reflexivity]. now rewrite body_endDate, IH.
Qed.

End EndDateOnly.

Lemma isoDateOf_truthy y m d : truthy (Some (isoDateOf y m d)) = true.
Proof. unfold isoDateOf. apply truthy_app_dash. Qed.

Lemma endDate_handleDateChange v s :
  endDate (handleDateChange fieldEndDate v s) = if truthy (Some v) then Some v else None.
Proof. reflexivity. Qed.

(** X30. No end date means: until January 1 of the year five years after
    the start year, that day included.  For a start date in a year
    0100..9994, clearing the end date gives the same result as entering
    that January 1 as the end date, on every host and for every
    frequency. *)
Theorem no_endDate_is_five_years tza s s0 y m d :
  startDate s = Some s0 ->
  parseISODate s0 = Some (y, m, d) ->
  100 <= y <= 9994 ->
  calculateRecurringDates tza (handleDateChange fieldEndDate "" s)
  = calculateRecurringDates tza (handleDateChange fieldEndDate (isoDateOf (y + 5) 1 1) s).
Proof.
  intros Hs Hp Hy. rewrite !calculateRecurringDates_dates. unfold expansion.
  rewrite (loopEntry_days tza (handleDateChange fieldEndDate "" s) s0 y m d
             (MakeDay (y + 5) 0 1)); [|exact Hs|exact Hp|lia|reflexivity].
  rewrite (loopEntry_days tza (handleDateChange fieldEndDate (isoDateOf (y + 5) 1 1) s)
             s0 y m d (MakeDay (y + 5) 0 1)); [|exact Hs|exact Hp|lia|].
  - now rewrite (while_endDate tza s "" (isoDateOf (y + 5) 1 1)).
  - unfold effectiveEndDay. rewrite endDate_handleDateChange, !isoDateOf_truthy.
    unfold dayOfDateString. rewrite parseISODate_isoDateOf; [reflexivity|lia|lia|].
    pose proof (DaysInMonth_range (y + 5) (1 - 1) ltac:(lia)). lia.
Qed.

Lemma no_endDate_is_five_years_witness :
  calculateRecurringDates istHost (handleDateChange fieldEndDate "" anniversaries)
  = calculateRecurringDates istHost
      (handleDateChange fieldEndDate (isoDateOf (2023 + 5) 1 1) anniversaries).
Proof.
  apply (no_endDate_is_five_years istHost anniversaries "2023-02-28" 2023 2 28);
    [reflexivity|vm_compute; reflexivity|lia].
Defined.

(** ** The result in chronological order *)








